(** * HyperGrid environment (gfn/envs/hypergrid.py)

    A shallow embedding of the batched grid-world environment [HyperGrid]
    and of its [StatesBatch] container, followed by the properties of the
    transition, mask, done-flag, indexing and reward functions.

    Tensors of dtype [torch.long] are lists of [Z] with the 64-bit
    wrap-around written out; boolean tensors are lists of [bool]; a batch
    is a list of rows.  [StatesBatch] objects are mutable Python objects:
    they live in a heap and the methods are written in a state-and-error
    monad over that heap, so that what a raised exception leaves behind is
    part of the model. *)

From Stdlib Require Import ZArith QArith Qabs SpecFloat List Bool Lia.
From stdpp Require Import base tactics option numbers list.

Local Open Scope Z_scope.

(** ** Exceptions and results *)

(** [ValueError] is what [step] and [backward_step] raise themselves;
    [RuntimeError] is what [torch.gather] raises for an index outside the
    gathered dimension; [IndexError] is what tensor indexing raises for a
    shape mismatch or an index outside a row; [AssertionError] is the
    constructor's shape assertion.  [ReferenceError] stands for following
    a reference to an object that was never allocated (no Python program
    does that; every statement below assumes the reference is live). *)
Inductive exn : Type :=
  | ValueError
  | RuntimeError
  | IndexError
  | AssertionError
  | ReferenceError.

Definition result (A : Type) : Type := (exn + A)%type.

Definition rbind {A B : Type} (r : result A) (f : A -> result B) : result B :=
  match r with
  | inl e => inl e
  | inr a => f a
  end.

(** ** 64-bit integers *)

Definition int64_max : Z := 2 ^ 63 - 1.
Definition int64_min : Z := - 2 ^ 63.

(** The value a signed 64-bit cell holds after storing [z]. *)
Definition wrap64 (z : Z) : Z := (z + 2 ^ 63) mod 2 ^ 64 - 2 ^ 63.

(** [t.sum(-1)] of one row of a long tensor. *)
Definition sum64 (row : list Z) : Z :=
  fold_left (fun acc x => wrap64 (acc + x)) row 0.

(** ** Tensor operations used by the environment *)

(** [~m] on a boolean vector. *)
Definition lnot (m : list bool) : list bool := map negb m.

(** [a | b] on boolean vectors of equal length. *)
Definition lor (a b : list bool) : list bool := zip_with orb a b.

(** [t == c] on an integer vector. *)
Definition eq_scalar (t : list Z) (c : Z) : list bool :=
  map (fun x => x =? c) t.

(** Rows of [xs] at which the boolean mask is true. *)
Fixpoint mask_select {A : Type} (m : list bool) (xs : list A) : list A :=
  match m, xs with
  | b :: m', x :: xs' =>
      if b then x :: mask_select m' xs' else mask_select m' xs'
  | _, _ => []
  end.

(** [xs[m]] with a boolean mask over the leading dimension: the mask must
    have the length of that dimension. *)
Definition bool_index {A : Type} (xs : list A) (m : list bool) : result (list A) :=
  if Nat.eqb (length m) (length xs) then inr (mask_select m xs)
  else inl IndexError.

(** Number of selected positions of a mask. *)
Definition count_true (m : list bool) : nat := length (filter (fun b => b = true) m).

(** Rows of [xs] with the selected ones replaced, in order, by [new]. *)
Fixpoint mask_assign {A : Type} (m : list bool) (xs new : list A) : list A :=
  match m, xs with
  | b :: m', x :: xs' =>
      if b then
        match new with
        | n :: new' => n :: mask_assign m' xs' new'
        | [] => x :: mask_assign m' xs' []
        end
      else x :: mask_assign m' xs' new
  | _, _ => xs
  end.

(** [xs[m] = new] in place: shapes must agree. *)
Definition bool_index_put {A : Type} (xs : list A) (m : list bool) (new : list A)
  : result (list A) :=
  if Nat.eqb (length m) (length xs) && Nat.eqb (length new) (count_true m)
  then inr (mask_assign m xs new)
  else inl IndexError.

(** [torch.gather(input, 1, index.unsqueeze(1))]: one column index per row;
    an index outside [0, row length) raises. *)
Fixpoint gather (input : list (list bool)) (index : list Z) : result (list bool) :=
  match index with
  | [] => inr []
  | a :: index' =>
      match input with
      | [] => inl RuntimeError
      | row :: input' =>
          if (0 <=? a) && (a <? Z.of_nat (length row)) then
            match row !! Z.to_nat a with
            | Some v => rbind (gather input' index') (fun vs => inr (v :: vs))
            | None => inl RuntimeError
            end
          else inl RuntimeError
      end
  end.

(** Python's builtin [all] over the gathered column. *)
Definition py_all (vs : list bool) : bool := forallb (fun v => v) vs.

(** Position denoted by a column index in advanced indexing: negative
    indices count from the end, anything else outside the row raises. *)
Definition norm_index (len : nat) (a : Z) : option nat :=
  if (0 <=? a) && (a <? Z.of_nat len) then Some (Z.to_nat a)
  else if (- Z.of_nat len <=? a) && (a <? 0) then Some (Z.to_nat (a + Z.of_nat len))
  else None.

(** [rows[torch.arange(n), index] += delta]. *)
Fixpoint index_add (rows : list (list Z)) (index : list Z) (delta : Z)
  : result (list (list Z)) :=
  match rows, index with
  | [], [] => inr []
  | row :: rows', a :: index' =>
      match norm_index (length row) a with
      | Some j =>
          rbind (index_add rows' index' delta)
                (fun rs => inr (alter (fun x => wrap64 (x + delta)) j row :: rs))
      | None => inl IndexError
      end
  | _, _ => inl IndexError
  end.

(** [torch.ones((rows, cols), dtype=bool)]. *)
Definition ones (rows cols : nat) : list (list bool) :=
  replicate rows (replicate cols true).

(** [t[sel] = False] for a boolean tensor [sel] of the shape of [t]. *)
Definition fill_false (t sel : list (list bool)) : list (list bool) :=
  zip_with (zip_with (fun x s : bool => if s then false else x)) t sel.

(** ** The environment and its batch of states *)

(** The dataclass [HyperGrid] with its defaults' types: the reward
    coefficients are Python floats, given by the rational they are written
    as; [n_envs] is the batch size the base class [Env] keeps. *)
Record HyperGrid : Type := {
  ndim : nat;
  height : Z;
  R0 : Q;
  R1 : Q;
  R2 : Q;
  reward_cos : bool;
  n_envs : nat
}.

Definition n_actions (env : HyperGrid) : nat := (ndim env + 1)%nat.

Record StatesBatch : Type := {
  states : list (list Z);
  masks : list (list bool);
  backward_masks : list (list bool);
  already_dones : list bool
}.

Definition set_states (v : list (list Z)) (s : StatesBatch) : StatesBatch :=
  {| states := v; masks := masks s; backward_masks := backward_masks s;
     already_dones := already_dones s |}.

Definition set_masks (v : list (list bool)) (s : StatesBatch) : StatesBatch :=
  {| states := states s; masks := v; backward_masks := backward_masks s;
     already_dones := already_dones s |}.

Definition set_backward_masks (v : list (list bool)) (s : StatesBatch) : StatesBatch :=
  {| states := states s; masks := masks s; backward_masks := v;
     already_dones := already_dones s |}.

Definition set_already_dones (v : list bool) (s : StatesBatch) : StatesBatch :=
  {| states := states s; masks := masks s; backward_masks := backward_masks s;
     already_dones := v |}.

(** Every row of the tensor has [n] columns. *)
Definition has_cols {A : Type} (n : nat) (t : list (list A)) : bool :=
  forallb (fun row => Nat.eqb (length row) n) t.

(** [StatesBatch.make_masks]: a tensor of ones in which the positions
    where [states == height - 1], extended by a column of zeros for the
    stop action, are set to False.  The boolean index must have the shape
    of the mask tensor.  The scalar [height - 1] is compared as the integer
    it is, which is the comparison of the tensor when [height - 1] is a
    signed 64-bit integer. *)
Definition make_masks (env : HyperGrid) (st : list (list Z)) : result (list (list bool)) :=
  let m := ones (length st) (n_actions env) in
  let sel := map (fun row => map (fun x => x =? height env - 1) row ++ [false]) st in
  if has_cols (n_actions env) sel then inr (fill_false m sel) else inl IndexError.

(** [StatesBatch.make_backward_masks]: ones, set to False where
    [states == 0]. *)
Definition make_backward_masks (env : HyperGrid) (st : list (list Z))
  : result (list (list bool)) :=
  let m := ones (length st) (n_actions env - 1) in
  let sel := map (fun row => map (fun x => x =? 0) row) st in
  if has_cols (n_actions env - 1) sel then inr (fill_false m sel) else inl IndexError.

(** ** The heap of batch objects and the monad of the methods *)

Abbreviation loc := nat (only parsing).
Abbreviation heap := (list StatesBatch) (only parsing).

Definition M (A : Type) : Type := heap -> result A * heap.

Definition ret {A : Type} (a : A) : M A := fun h => (inr a, h).

Definition bind {A B : Type} (m : M A) (f : A -> M B) : M B :=
  fun h =>
    match m h with
    | (inr a, h') => f a h'
    | (inl e, h') => (inl e, h')
    end.

Definition raise {A : Type} (e : exn) : M A := fun h => (inl e, h).

Definition lift {A : Type} (r : result A) : M A := fun h => (r, h).

Notation "'let!' x ':=' m 'in' k" := (bind m (fun x => k))
  (at level 10, x name, m at level 100, k at level 200).

(** Reading the object behind a reference. *)
Definition deref (l : loc) : M StatesBatch :=
  fun h =>
    match h !! l with
    | Some s => (inr s, h)
    | None => (inl ReferenceError, h)
    end.

(** Assigning to an attribute of the object behind a reference. *)
Definition modify (l : loc) (f : StatesBatch -> StatesBatch) : M unit :=
  fun h =>
    match h !! l with
    | Some s => (inr tt, <[l := f s]> h)
    | None => (inl ReferenceError, h)
    end.

Definition alloc (s : StatesBatch) : M loc :=
  fun h => (inr (length h), h ++ [s]).

(** [deepcopy(obj)]: a new object with the same field values. *)
Definition deepcopy (l : loc) : M loc :=
  let! s := deref l in alloc s.

(** ** Methods of [StatesBatch] *)

(** Modelled from the spec: [update_masks] (the spec's [recompute_masks])
    is inherited from [AbstractStatesBatch], whose source is absent.  It
    stores the results of the two mask functions the subclass defines,
    forward mask first. *)
Definition update_masks (env : HyperGrid) (self : loc) : M unit :=
  let! s := deref self in
  let! fm := lift (make_masks env (states s)) in
  let! _ := modify self (set_masks fm) in
  let! s := deref self in
  let! bm := lift (make_backward_masks env (states s)) in
  modify self (set_backward_masks bm).

(** Modelled from the spec: [zero_the_dones] is inherited from
    [AbstractStatesBatch], whose source is absent.  It clears the done
    flag of every batch element. *)
Definition zero_the_dones (self : loc) : M unit :=
  let! s := deref self in
  modify self (set_already_dones (replicate (length (states s)) false)).

(** [StatesBatch.update_the_dones]: [already_dones = states.sum(-1) == 0]. *)
Definition update_the_dones (self : loc) : M unit :=
  let! s := deref self in
  modify self (set_already_dones (map (fun row => sum64 row =? 0) (states s))).

(** How a batch is requested from the constructor. *)
Inductive init : Type :=
  | InitZeros
  | InitRandom (stream : nat -> Z)
  | InitStates (st : list (list Z)).

(** [torch.zeros((rows, cols), dtype=torch.long)]. *)
Definition zeros (rows cols : nat) : list (list Z) :=
  replicate rows (replicate cols 0).

(** [torch.randint(0, high, (rows, cols))]: the generator is a stream of
    raw draws, reduced into [0, high). *)
Definition randint (high : Z) (rows cols : nat) (stream : nat -> Z) : list (list Z) :=
  map (fun i => map (fun j => stream (i * cols + j)%nat mod high) (seq 0 cols))
      (seq 0 rows).

(** The [states] tensor chosen by [StatesBatch.__post_init__]. *)
Definition post_init_states (env : HyperGrid) (i : init) : result (list (list Z)) :=
  match i with
  | InitZeros => inr (zeros (n_envs env) (ndim env))
  | InitRandom stream => inr (randint (height env) (n_envs env) (ndim env) stream)
  | InitStates st =>
      if has_cols (ndim env) st then inr st else inl AssertionError
  end.

(** [StatesBatch(...)]: the subclass initialiser picks the states.
    Modelled from the spec: the inherited [AbstractStatesBatch.__post_init__]
    it ends with is absent; it derives both masks from the states and starts
    with no element done.  A batch holds its tensors by value: the array
    of the caller is copied into the object, so two objects that would
    share one tensor are not represented. *)
Definition StatesBatch_new (env : HyperGrid) (i : init) : M loc :=
  let! st := lift (post_init_states env i) in
  let! self := alloc {| states := st; masks := []; backward_masks := [];
                        already_dones := replicate (length st) false |} in
  let! _ := update_masks env self in
  ret self.

(** Modelled from the spec: [Env.reset] is absent; it gives the
    environment a fresh all-origin batch of [n_envs] elements. *)
Definition reset (env : HyperGrid) : M loc :=
  StatesBatch_new env InitZeros.

(** ** Methods of [HyperGrid] *)

(** [HyperGrid.step(actions)], on the batch object [self._state]. *)
Definition step (env : HyperGrid) (_state : loc) (actions : list Z)
  : M (loc * list bool) :=
  let! s := deref _state in
  let! not_done_states_masks := lift (bool_index (masks s) (lnot (already_dones s))) in
  let! not_done_actions := lift (bool_index actions (lnot (already_dones s))) in
  let! gathered := lift (gather not_done_states_masks not_done_actions) in
  if negb (py_all gathered) then raise ValueError
  else
    let dones := lor (already_dones s) (eq_scalar actions (Z.of_nat (n_actions env) - 1)) in
    let! _ := modify _state (set_already_dones dones) in
    let! s := deref _state in
    let! not_done_states := lift (bool_index (states s) (lnot dones)) in
    let! not_done_actions := lift (bool_index actions (lnot dones)) in
    let! not_done_states := lift (index_add not_done_states not_done_actions 1) in
    let! new_states := lift (bool_index_put (states s) (lnot dones) not_done_states) in
    let! _ := modify _state (set_states new_states) in
    let! _ := update_masks env _state in
    let! copy := deepcopy _state in
    ret (copy, dones).

(** [HyperGrid.backward_step(states, actions)]: works on a deep copy of
    the batch it is given. *)
Definition backward_step (env : HyperGrid) (states0 : loc) (actions : list Z)
  : M (loc * list bool) :=
  let! st := deepcopy states0 in
  let! s := deref st in
  let! not_done_states_masks :=
    lift (bool_index (backward_masks s) (lnot (already_dones s))) in
  let! not_done_actions := lift (bool_index actions (lnot (already_dones s))) in
  let! gathered := lift (gather not_done_states_masks not_done_actions) in
  if negb (py_all gathered) then raise ValueError
  else
    let! not_done_states := lift (bool_index (states s) (lnot (already_dones s))) in
    let! not_done_states := lift (index_add not_done_states not_done_actions (-1)) in
    let! new_states :=
      lift (bool_index_put (states s) (lnot (already_dones s)) not_done_states) in
    let! _ := modify st (set_states new_states) in
    let! s := deref st in
    let dones := lor (already_dones s) (map (fun row => sum64 row =? 0) (states s)) in
    let! _ := modify st (set_already_dones dones) in
    let! _ := update_masks env st in
    ret (st, dones).

(** [a * b] for a vector [a] and one row [b] of a matrix, with the
    broadcasting of the last dimension: equal lengths, or one of them of
    length one; anything else raises. *)
Definition broadcast_mul (a b : list Z) : result (list Z) :=
  if Nat.eqb (length a) (length b) then inr (zip_with (fun x y => wrap64 (x * y)) a b)
  else if Nat.eqb (length b) 1 then inr (map (fun x => wrap64 (x * hd 0 b)) a)
  else if Nat.eqb (length a) 1 then inr (map (fun y => wrap64 (hd 0 a * y)) b)
  else inl RuntimeError.

(** [height ** torch.arange(ndim - 1, -1, -1)], a long tensor. *)
Definition canonical_base (env : HyperGrid) : list Z :=
  map (fun e => wrap64 (height env ^ Z.of_nat e)) (rev (seq 0 (ndim env))).

(** [HyperGrid.get_states_indices] on one state vector:
    [(canonical_base * states).sum(-1).long()]. *)
Definition get_states_index (env : HyperGrid) (row : list Z) : result Z :=
  rbind (broadcast_mul (canonical_base env) row) (fun p => inr (sum64 p)).

(** [HyperGrid.get_states_indices] on a batch of state vectors. *)
Fixpoint get_states_indices (env : HyperGrid) (st : list (list Z)) : result (list Z) :=
  match st with
  | [] => inr []
  | row :: st' =>
      rbind (get_states_index env row)
            (fun k => rbind (get_states_indices env st') (fun ks => inr (k :: ks)))
  end.

(** ** Pure descriptions of what the batched operations compute *)

(** The column index [a] falls inside a row of [len] columns. *)
Definition in_range (len : nat) (a : Z) : bool :=
  (0 <=? a) && (a <? Z.of_nat len).

(** The mask row has an entry for action [a] and that entry is true. *)
Definition allowed (row : list bool) (a : Z) : bool :=
  (0 <=? a) && match row !! Z.to_nat a with Some v => v | None => false end.

(** Every selected element has its column index inside its row. *)
Fixpoint sel_in_range {A : Type} (m : list bool) (rows : list (list A)) (acts : list Z)
  : bool :=
  match m, rows, acts with
  | b :: m', row :: rows', a :: acts' =>
      (negb b || in_range (length row) a) && sel_in_range m' rows' acts'
  | _, _, _ => true
  end.

(** Every selected element has an action its mask row allows. *)
Fixpoint sel_allowed (m : list bool) (msk : list (list bool)) (acts : list Z) : bool :=
  match m, msk, acts with
  | b :: m', row :: msk', a :: acts' =>
      (negb b || allowed row a) && sel_allowed m' msk' acts'
  | _, _, _ => true
  end.

(** The selected rows with the chosen coordinate moved by [delta]. *)
Fixpoint move_rows (delta : Z) (m : list bool) (acts : list Z) (rows : list (list Z))
  : list (list Z) :=
  match m, acts, rows with
  | b :: m', a :: acts', r :: rows' =>
      (if b then alter (fun x => wrap64 (x + delta)) (Z.to_nat a) r else r)
        :: move_rows delta m' acts' rows'
  | _, _, _ => []
  end.

(** Rows of the two masks as functions of a state row. *)
Definition forward_mask_row (env : HyperGrid) (row : list Z) : list bool :=
  map (fun x => negb (x =? height env - 1)) row ++ [true].

Definition backward_mask_row (row : list Z) : list bool :=
  map (fun x => negb (x =? 0)) row.

(** A batch whose masks are the mask functions of the given states. *)
Definition with_masks (env : HyperGrid) (st : list (list Z)) (dones : list bool)
  : StatesBatch :=
  {| states := st;
     masks := map (forward_mask_row env) st;
     backward_masks := map backward_mask_row st;
     already_dones := dones |}.

Definition stop_action (env : HyperGrid) : Z := Z.of_nat (n_actions env) - 1.

Definition step_dones (env : HyperGrid) (s : StatesBatch) (acts : list Z) : list bool :=
  lor (already_dones s) (eq_scalar acts (stop_action env)).

(** The batch a successful [step] leaves in [self._state]. *)
Definition step_post (env : HyperGrid) (s : StatesBatch) (acts : list Z) : StatesBatch :=
  let dones := step_dones env s acts in
  with_masks env (move_rows 1 (lnot dones) acts (states s)) dones.

(** The batch a successful [backward_step] returns. *)
Definition backward_post (env : HyperGrid) (s : StatesBatch) (acts : list Z)
  : StatesBatch :=
  let st := move_rows (-1) (lnot (already_dones s)) acts (states s) in
  with_masks env st (lor (already_dones s) (map (fun row => sum64 row =? 0) st)).

(** The tensors of a batch have the shapes of a batch of this environment. *)
Definition shape_ok (env : HyperGrid) (s : StatesBatch) : Prop :=
  length (masks s) = length (states s)
  /\ length (backward_masks s) = length (states s)
  /\ length (already_dones s) = length (states s)
  /\ has_cols (ndim env) (states s) = true
  /\ has_cols (n_actions env) (masks s) = true
  /\ has_cols (ndim env) (backward_masks s) = true.

(** The batch invariant: right shapes, and masks derived from the states. *)
Definition wf_batch (env : HyperGrid) (s : StatesBatch) : Prop :=
  has_cols (ndim env) (states s) = true
  /\ length (already_dones s) = length (states s)
  /\ masks s = map (forward_mask_row env) (states s)
  /\ backward_masks s = map backward_mask_row (states s).

(** Every coordinate of every element lies on the grid. *)
Definition in_grid (env : HyperGrid) (st : list (list Z)) : Prop :=
  forall i row d x, st !! i = Some row -> row !! d = Some x -> 0 <= x <= height env - 1.

(** ** The demo scenario of the module *)

Definition demo_env : HyperGrid :=
  {| ndim := 2; height := 3; R0 := 1 # 10; R1 := 1 # 2; R2 := 2 # 1;
     reward_cos := false; n_envs := 3 |}.

(** The three successful calls of the demo on the environment's batch
    [l]: for each call, the states of the returned batch and the returned
    done vector. *)
Definition demo_steps (l : loc)
  : M ((list (list Z) * list bool) * (list (list Z) * list bool)
       * (list (list Z) * list bool)) :=
  let! r1 := step demo_env l [0; 1; 1] in
  let! s1 := deref (fst r1) in
  let! r2 := step demo_env l [0; 2; 1] in
  let! s2 := deref (fst r2) in
  let! r3 := step demo_env l [1; 1; 2] in
  let! s3 := deref (fst r3) in
  ret ((states s1, snd r1), (states s2, snd r2), (states s3, snd r3)).

(** [env.reset()] followed by the three calls. *)
Definition demo_run : M ((list (list Z) * list bool) * (list (list Z) * list bool)
                         * (list (list Z) * list bool)) :=
  let! l := reset demo_env in demo_steps l.

(** The same, followed by the fourth call and a look at the
    environment's batch whatever that call did. *)
Definition demo_fourth : M (result (loc * list bool) * StatesBatch) :=
  let! l := reset demo_env in
  let! _ := demo_steps l in
  fun h =>
    let (r, h') := step demo_env l [0; 1; 1] h in
    (let! s := deref l in ret (r, s)) h'.

(** ** Refused actions *)

(** The spec's single error kind: the source raises [ValueError] for a
    mask entry that is false and lets [torch.gather] raise [RuntimeError]
    for an action that has no mask entry. *)
Definition InvalidAction (e : exn) : Prop := e = ValueError \/ e = RuntimeError.

(** Some element that is not done has an action its mask row does not
    allow. *)
Definition refused (dones : list bool) (msk : list (list bool)) (acts : list Z) : Prop :=
  exists i a row,
    dones !! i = Some false /\ acts !! i = Some a /\ msk !! i = Some row
    /\ allowed row a = false.

(** Some element that is not done has an action whose mask entry exists
    and is false. *)
Definition masked_out (dones : list bool) (msk : list (list bool)) (acts : list Z) : Prop :=
  exists i a row,
    dones !! i = Some false /\ acts !! i = Some a /\ msk !! i = Some row
    /\ 0 <= a /\ row !! Z.to_nat a = Some false.

(** Every element that is not done has an action inside its mask row. *)
Definition typed_actions (dones : list bool) (msk : list (list bool)) (acts : list Z) : Prop :=
  forall i a row,
    dones !! i = Some false -> acts !! i = Some a -> msk !! i = Some row ->
    0 <= a < Z.of_nat (length row).

(** ** Statements about masks and done flags, as the spec words them *)

(** The spec's reading of the masks: increment [d] is legal iff the
    coordinate is below [height - 1], decrement [d] iff it is above 0. *)
Definition masks_as_stated (env : HyperGrid) (s : StatesBatch) : Prop :=
  forall i row fm bm d x,
    states s !! i = Some row -> masks s !! i = Some fm ->
    backward_masks s !! i = Some bm -> row !! d = Some x ->
    (fm !! d = Some true <-> x < height env - 1)
    /\ (bm !! d = Some true <-> x > 0).

(** The shapes the spec gives the masks: a row per element, [ndim + 1]
    forward columns of which the last (stop) is true, and exactly [ndim]
    backward columns. *)
Definition mask_shapes (env : HyperGrid) (s : StatesBatch) : Prop :=
  length (masks s) = length (states s)
  /\ length (backward_masks s) = length (states s)
  /\ (forall i fm, masks s !! i = Some fm ->
        length fm = (ndim env + 1)%nat /\ fm !! ndim env = Some true)
  /\ (forall i bm, backward_masks s !! i = Some bm -> length bm = ndim env).

(** The all-zero origin. *)
Definition is_origin (row : list Z) : bool := forallb (fun x => x =? 0) row.

(** The sum of a row as an integer, before it is stored in 64 bits. *)
Definition Zsum (row : list Z) : Z := foldr Z.add 0 row.

(** Construct a batch from a caller-supplied array and recompute its
    done flags. *)
Definition new_then_update_the_dones (env : HyperGrid) (st : list (list Z)) : M loc :=
  let! l := StatesBatch_new env (InitStates st) in
  let! _ := update_the_dones l in
  ret l.

(** ** Trajectories *)

(** Successive calls of [step] on the environment's batch [l], one action
    vector per call; the result is the batch returned by the last call
    ([last] when there is no call). *)
Fixpoint steps (env : HyperGrid) (l last : loc) (traj : list (list Z)) : M loc :=
  match traj with
  | [] => ret last
  | acts :: traj' =>
      let! r := step env l acts in
      steps env l (fst r) traj'
  end.

(** [env.reset()] followed by the calls of a trajectory. *)
Definition forward_run (env : HyperGrid) (traj : list (list Z)) : M loc :=
  let! l := reset env in
  steps env l l traj.

(** Successive calls of [backward_step], each on the batch the previous
    one returned; the result is the last batch and the done vectors
    returned, in order. *)
Fixpoint backward_steps (env : HyperGrid) (st : loc) (traj : list (list Z))
  : M (loc * list (list bool)) :=
  match traj with
  | [] => ret (st, [])
  | acts :: traj' =>
      let! r := backward_step env st acts in
      let! rest := backward_steps env (fst r) traj' in
      ret (fst rest, snd r :: snd rest)
  end.

(** No action of the trajectory is the stop action. *)
Definition never_stops (env : HyperGrid) (traj : list (list Z)) : Prop :=
  Forall (Forall (fun a => a <> stop_action env)) traj.

(** The grid is not empty, and [height - 1] and the coordinate sum of
    every state on the grid are 64-bit integers. *)
Definition sums_fit (env : HyperGrid) : Prop :=
  1 <= height env
  /\ height env - 1 <= int64_max
  /\ Z.of_nat (ndim env) * (height env - 1) <= int64_max.

(** Pure counterparts: the batch after a trajectory, and whether every
    call of it is accepted. *)
Fixpoint fwd (env : HyperGrid) (s : StatesBatch) (traj : list (list Z)) : StatesBatch :=
  match traj with
  | [] => s
  | acts :: traj' => fwd env (step_post env s acts) traj'
  end.

Fixpoint legal (env : HyperGrid) (s : StatesBatch) (traj : list (list Z)) : Prop :=
  match traj with
  | [] => True
  | acts :: traj' =>
      length acts = length (states s)
      /\ sel_allowed (lnot (already_dones s)) (masks s) acts = true
      /\ legal env (step_post env s acts) traj'
  end.

Fixpoint bwd (env : HyperGrid) (s : StatesBatch) (traj : list (list Z)) : StatesBatch :=
  match traj with
  | [] => s
  | acts :: traj' => bwd env (backward_post env s acts) traj'
  end.

Fixpoint blegal (env : HyperGrid) (s : StatesBatch) (traj : list (list Z)) : Prop :=
  match traj with
  | [] => True
  | acts :: traj' =>
      length acts = length (states s)
      /\ sel_allowed (lnot (already_dones s)) (backward_masks s) acts = true
      /\ blegal env (backward_post env s acts) traj'
  end.

Fixpoint bdones (env : HyperGrid) (s : StatesBatch) (traj : list (list Z))
  : list (list bool) :=
  match traj with
  | [] => []
  | acts :: traj' =>
      already_dones (backward_post env s acts)
        :: bdones env (backward_post env s acts) traj'
  end.

(** ** The canonical index, as the spec words it *)

(** The value of a digit vector as a number in base [h], most
    significant digit first. *)
Definition radix_value (h : Z) (row : list Z) : Z :=
  fold_left (fun acc x => acc * h + x) row 0.

(** The value of a digit vector, by its leading digit. *)
Fixpoint place_value (h : Z) (row : list Z) : Z :=
  match row with
  | [] => 0
  | x :: r => x * h ^ Z.of_nat (length r) + place_value h r
  end.

(** The [n] digits of [k] in base [h], most significant first. *)
Fixpoint index_to_state (h : Z) (n : nat) (k : Z) : list Z :=
  match n with
  | O => []
  | S n' => (k / h ^ Z.of_nat n') :: index_to_state h n' (k mod h ^ Z.of_nat n')
  end.

(** A state vector of the grid. *)
Definition grid_state (env : HyperGrid) (row : list Z) : Prop :=
  length row = ndim env
  /\ forall d x, row !! d = Some x -> 0 <= x <= height env - 1.

(** The number of states is at most [2 ^ 63]: every weight, product and
    index is a 64-bit integer. *)
Definition index_fits (env : HyperGrid) : Prop :=
  1 <= height env /\ height env ^ Z.of_nat (ndim env) <= 2 ^ 63.

(** The binary hypercube of 64 dimensions. *)
Definition cube64 : HyperGrid :=
  {| ndim := 64; height := 2; R0 := 1 # 10; R1 := 1 # 2; R2 := 2 # 1;
     reward_cos := false; n_envs := 1 |}.

(** ** The reward *)

(** The floating-point arithmetic of the tensor library, as an interface:
    the float type of the result tensors, the conversion of a long and of
    a Python float to it, the elementwise operations, and the constant
    [1.0 / (2 * torch.pi) ** 0.5] computed by Python. *)
Record FloatOps : Type := {
  F : Type;
  of_int : Z -> F;
  of_float : Q -> F;
  fadd : F -> F -> F;
  fsub : F -> F -> F;
  fmul : F -> F -> F;
  fdiv : F -> F -> F;
  fneg : F -> F;
  fabs : F -> F;
  flt : F -> F -> bool;
  fcos : F -> F;
  fexp : F -> F;
  inv_sqrt_2pi : F
}.

(** [t.prod(-1)] of one row of a boolean tensor: a long. *)
Definition prod_bool (bs : list bool) : Z :=
  fold_left (fun acc (b : bool) => wrap64 (acc * (if b then 1 else 0))) bs 1.

(** [t.prod(-1)] of one row of a float tensor. *)
Definition prod_float (ops : FloatOps) (xs : list (F ops)) : F ops :=
  fold_left (fmul ops) xs (of_int ops 1).

(** [ax = abs(final_states / (height - 1) - 0.5)], one coordinate. *)
Definition ax (ops : FloatOps) (env : HyperGrid) (x : Z) : F ops :=
  fabs ops (fsub ops (fdiv ops (of_int ops x) (of_int ops (height env - 1)))
                     (of_float ops (1 # 2))).

(** [HyperGrid.reward] on one state vector. *)
Definition reward_row (ops : FloatOps) (env : HyperGrid) (row : list Z) : F ops :=
  let axs := map (ax ops env) row in
  if negb (reward_cos env) then
    fadd ops
      (fadd ops (of_float ops (R0 env))
         (fmul ops
            (of_int ops (prod_bool (map (fun a => flt ops (of_float ops (1 # 4)) a) axs)))
            (of_float ops (R1 env))))
      (fmul ops
         (of_int ops
            (prod_bool (map (fun a => flt ops (of_float ops (3 # 10)) a
                                      && flt ops a (of_float ops (4 # 10))) axs)))
         (of_float ops (R2 env)))
  else
    let pdf a :=
      let pdf_input := fmul ops a (of_int ops 5) in
      fmul ops (inv_sqrt_2pi ops)
           (fexp ops (fdiv ops (fneg ops (fmul ops pdf_input pdf_input)) (of_int ops 2))) in
    fadd ops (of_float ops (R0 env))
      (fmul ops
         (prod_float ops
            (map (fun a => fmul ops (fadd ops (fcos ops (fmul ops a (of_int ops 50)))
                                              (of_int ops 1))
                                (pdf a)) axs))
         (of_float ops (R1 env))).

(** [HyperGrid.reward] on a batch of state vectors. *)
Definition reward (ops : FloatOps) (env : HyperGrid) (final_states : list (list Z))
  : list (F ops) :=
  map (reward_row ops env) final_states.

(** The indicator of a condition, as the long a product of booleans is. *)
Definition indicator (b : bool) : Z := if b then 1 else 0.

(** Exact rational arithmetic; the transcendental functions and the
    constant, which the default reward does not use, are given. *)
Definition exact_ops (cos exp : Q -> Q) (c : Q) : FloatOps :=
  {| F := Q;
     of_int := inject_Z;
     of_float := fun q => q;
     fadd := Qplus; fsub := Qminus; fmul := Qmult; fdiv := Qdiv;
     fneg := Qopp; fabs := Qabs;
     flt := fun a b => match Qcompare a b with Lt => true | _ => false end;
     fcos := cos; fexp := exp; inv_sqrt_2pi := c |}.

(** IEEE single precision, the default float type of the tensor library:
    a long is rounded to it, a Python float is the double nearest to the
    written rational, rounded in turn. *)
Definition double_of_Q (q : Q) : spec_float :=
  SFdiv 53 1024 (binary_normalize 53 1024 (Qnum q) 0 false)
                (binary_normalize 53 1024 (Zpos (Qden q)) 0 false).

Definition to_single (x : spec_float) : spec_float :=
  match x with
  | S754_finite s m e => binary_normalize 24 128 (cond_Zopp s (Zpos m)) e s
  | _ => x
  end.

Definition single_ops (cos exp : spec_float -> spec_float) (c : spec_float) : FloatOps :=
  {| F := spec_float;
     of_int := fun z => binary_normalize 24 128 z 0 false;
     of_float := fun q => to_single (double_of_Q q);
     fadd := SFadd 24 128; fsub := SFsub 24 128; fmul := SFmul 24 128;
     fdiv := SFdiv 24 128;
     fneg := SFopp; fabs := SFabs;
     flt := SFltb;
     fcos := cos; fexp := exp; inv_sqrt_2pi := c |}.

(** ** The default reward over numbers, as the spec words it *)

Definition Qltb (a b : Q) : bool :=
  match Qcompare a b with Lt => true | _ => false end.

(** [[c]]: 1 when the condition holds, 0 otherwise. *)
Definition bracket (c : bool) : Q := if c then 1%Q else 0%Q.

Definition Qprod (qs : list Q) : Q := fold_right Qmult 1%Q qs.

(** [ax_d = |state_d / (height - 1) - 0.5|]. *)
Definition ax_as_stated (env : HyperGrid) (x : Z) : Q :=
  Qabs (inject_Z x / inject_Z (height env - 1) - (1 # 2))%Q.

(** [R0 + R1 * prod_d [ax_d > 0.25] + R2 * prod_d [0.3 < ax_d < 0.4]]. *)
Definition reward_as_stated (env : HyperGrid) (row : list Z) : Q :=
  (R0 env
   + R1 env * Qprod (map (fun x => bracket (Qltb (1 # 4) (ax_as_stated env x))) row)
   + R2 env * Qprod (map (fun x => bracket (Qltb (3 # 10) (ax_as_stated env x)
                                            && Qltb (ax_as_stated env x) (4 # 10))) row))%Q.

(** A grid of height 11 with the reward parameters of the demo. *)
Definition grid11 : HyperGrid :=
  {| ndim := 2; height := 11; R0 := 1 # 10; R1 := 1 # 2; R2 := 2 # 1;
     reward_cos := false; n_envs := 1 |}.

(** ** Checks on concrete batches *)

(** Boolean form of [in_grid]. *)
Definition in_grid_b (env : HyperGrid) (st : list (list Z)) : bool :=
  forallb (forallb (fun x => (0 <=? x) && (x <=? height env - 1))) st.

(** A batch of two elements on the demo grid, the second of them done. *)
Definition sample_batch : StatesBatch :=
  with_masks demo_env [[2; 0]; [0; 1]] [false; true].

(** A trajectory of two steps for the three elements of the demo. *)
Definition sample_trajectory : list (list Z) := [[0; 1; 1]; [1; 0; 1]].

(** ** The mask update of the second environment class, [HyperGrid2] *)

Module HyperGrid2.

(** The attributes of a [States] object that [update_masks] reads and
    writes; the states hold integers, as [make_random_states] produces
    them. *)
Record States : Type := {
  states : list (list Z);
  forward_masks : list (list bool);
  backward_masks : list (list bool)
}.

(** [t != c] on a matrix. *)
Definition ne_scalar (t : list (list Z)) (c : Z) : list (list bool) :=
  map (map (fun x => negb (x =? c))) t.

(** [row[:-1] = v] on one row: the value has the length of the slice, or
    length one and is repeated; anything else raises. *)
Definition assign_init (row v : list bool) : result (list bool) :=
  let n := (length row - 1)%nat in
  if Nat.eqb (length v) n then inr (v ++ drop n row)
  else if Nat.eqb (length v) 1 then inr (replicate n (hd false v) ++ drop n row)
  else inl RuntimeError.

Fixpoint assign_init_rows (t v : list (list bool)) : result (list (list bool)) :=
  match t, v with
  | [], [] => inr []
  | row :: t', vr :: v' =>
      rbind (assign_init row vr)
            (fun r => rbind (assign_init_rows t' v') (fun rs => inr (r :: rs)))
  | _, _ => inl RuntimeError
  end.

(** [t[..., :-1] = v]: the value has the rows of [t], or one row that is
    repeated; shapes are checked before anything is written. *)
Definition slice_assign (t v : list (list bool)) : result (list (list bool)) :=
  if Nat.eqb (length v) (length t) then assign_init_rows t v
  else if Nat.eqb (length v) 1 then assign_init_rows t (replicate (length t) (hd [] v))
  else inl RuntimeError.

(** [HyperGrid2.update_masks(states)]: the new attributes of the object,
    or the exception, which leaves the object as it was. *)
Definition update_masks (env : HyperGrid) (s : States) : result States :=
  rbind (slice_assign (forward_masks s) (ne_scalar (states s) (height env - 1)))
        (fun fm => inr {| states := states s;
                          forward_masks := fm;
                          backward_masks := ne_scalar (states s) 0 |}).

End HyperGrid2.

(** The same two elements with both done, and with none done. *)
Definition sample_done_batch : StatesBatch :=
  with_masks demo_env [[2; 0]; [0; 1]] [true; true].

Definition sample_fresh_batch : StatesBatch :=
  with_masks demo_env [[2; 0]; [0; 1]] [false; false].

(** Two elements, the first at the origin and not done. *)
Definition sample_origin_batch : StatesBatch :=
  with_masks demo_env [[0; 0]; [0; 1]] [false; true].

(** A [States] object of [HyperGrid2] with one element. *)
Definition sample_states2 : HyperGrid2.States :=
  {| HyperGrid2.states := [[2; 0]];
     HyperGrid2.forward_masks := [[true; true; true]];
     HyperGrid2.backward_masks := [[false; false]] |}.

(** ** Facts about the tensor operations *)

Lemma has_cols_lookup {A : Type} (n : nat) (t : list (list A)) :
  has_cols n t = true <-> forall i row, t !! i = Some row -> length row = n.
Proof.
  unfold has_cols. induction t as [|r t IH]; simpl.
  - split; [intros _ i row H; destruct i; discriminate | reflexivity].
  - rewrite andb_true_iff, IH, Nat.eqb_eq. split.
    + intros [Hr Ht] [|i] row H; simpl in H; [congruence | eauto].
    + intros H. split; [apply (H O); reflexivity | intros i row Hi; apply (H (S i)); exact Hi].
Qed.

Lemma has_cols_map_length {A B : Type} (f : list A -> list B) (n k : nat) (t : list (list A)) :
  (forall row, length (f row) = (length row + k)%nat) ->
  has_cols (n + k) (map f t) = has_cols n t.
Proof.
  intros Hf. unfold has_cols. induction t as [|r t IH]; simpl; [reflexivity|].
  rewrite IH, Hf. f_equal.
  destruct (Nat.eqb_spec (length r + k) (n + k)), (Nat.eqb_spec (length r) n); try reflexivity; lia.
Qed.

Lemma lookup_lnot (m : list bool) (i : nat) : lnot m !! i = negb <$> m !! i.
Proof. unfold lnot. apply list_lookup_fmap. Qed.

Lemma length_lnot (m : list bool) : length (lnot m) = length m.
Proof. unfold lnot. apply length_map. Qed.

Lemma length_lor (a b : list bool) :
  length b = length a -> length (lor a b) = length a.
Proof. intros H. unfold lor. rewrite length_zip_with. lia. Qed.

Lemma length_eq_scalar (t : list Z) (c : Z) : length (eq_scalar t c) = length t.
Proof. unfold eq_scalar. apply length_map. Qed.

Lemma lookup_eq_scalar (t : list Z) (c : Z) (i : nat) :
  eq_scalar t c !! i = (fun x => x =? c) <$> t !! i.
Proof. unfold eq_scalar. apply list_lookup_fmap. Qed.

Lemma lookup_lor (a b : list bool) (i : nat) (x y : bool) :
  a !! i = Some x -> b !! i = Some y -> lor a b !! i = Some (x || y).
Proof. intros Ha Hb. unfold lor. rewrite lookup_zip_with, Ha, Hb. reflexivity. Qed.

Lemma bool_index_ok {A : Type} (xs : list A) (m : list bool) :
  length m = length xs -> bool_index xs m = inr (mask_select m xs).
Proof. intros H. unfold bool_index. rewrite H, Nat.eqb_refl. reflexivity. Qed.

Lemma bool_index_err {A : Type} (xs : list A) (m : list bool) :
  length m <> length xs -> bool_index xs m = inl IndexError.
Proof.
  intros H. unfold bool_index. destruct (Nat.eqb_spec (length m) (length xs)); [contradiction | reflexivity].
Qed.

Lemma sel_in_range_lookup {A : Type} (m : list bool) (rows : list (list A)) (acts : list Z) :
  sel_in_range m rows acts = true <->
  forall i row a, m !! i = Some true -> rows !! i = Some row -> acts !! i = Some a ->
                  in_range (length row) a = true.
Proof.
  revert rows acts. induction m as [|b m IH]; intros [|row rows] [|a acts]; simpl;
    try (split; [intros _ i r x H1 H2 H3; destruct i; discriminate | reflexivity]).
  rewrite andb_true_iff, IH. split.
  - intros [H0 H] [|i] r x H1 H2 H3; simpl in *.
    + inversion H1; inversion H2; inversion H3; subst. exact H0.
    + eapply H; eauto.
  - intros H. split.
    + destruct b; [apply (H O row a); reflexivity | reflexivity].
    + intros i r x H1 H2 H3. apply (H (S i) r x); assumption.
Qed.

Lemma sel_allowed_lookup (m : list bool) (msk : list (list bool)) (acts : list Z) :
  sel_allowed m msk acts = true <->
  forall i row a, m !! i = Some true -> msk !! i = Some row -> acts !! i = Some a ->
                  allowed row a = true.
Proof.
  revert msk acts. induction m as [|b m IH]; intros [|row msk] [|a acts]; simpl;
    try (split; [intros _ i r x H1 H2 H3; destruct i; discriminate | reflexivity]).
  rewrite andb_true_iff, IH. split.
  - intros [H0 H] [|i] r x H1 H2 H3; simpl in *.
    + inversion H1; inversion H2; inversion H3; subst. exact H0.
    + eapply H; eauto.
  - intros H. split.
    + destruct b; [apply (H O row a); reflexivity | reflexivity].
    + intros i r x H1 H2 H3. apply (H (S i) r x); assumption.
Qed.

Lemma allowed_in_range (row : list bool) (a : Z) :
  allowed row a = true -> in_range (length row) a = true.
Proof.
  unfold allowed, in_range. rewrite !andb_true_iff. intros [H0 H]. split; [exact H0|].
  destruct (row !! Z.to_nat a) eqn:E; [|discriminate].
  apply lookup_lt_Some in E. apply Z.ltb_lt. apply Z.leb_le in H0. lia.
Qed.

(** What [gather] over the selected rows computes. *)
Lemma gather_select (m : list bool) (msk : list (list bool)) (acts : list Z) :
  length msk = length m -> length acts = length m ->
  match gather (mask_select m msk) (mask_select m acts) with
  | inl e => e = RuntimeError /\ sel_in_range m msk acts = false
  | inr vs => sel_in_range m msk acts = true /\ py_all vs = sel_allowed m msk acts
  end.
Proof.
  revert msk acts. induction m as [|b m IH]; intros [|row msk] [|a acts] Hm Ha;
    simpl in *; try discriminate; [split; reflexivity|].
  specialize (IH msk acts ltac:(lia) ltac:(lia)).
  destruct b; simpl; [|exact IH].
  unfold allowed, in_range.
  destruct (0 <=? a) eqn:E0; simpl; [|split; reflexivity].
  destruct (a <? Z.of_nat (length row)) eqn:E1; simpl; [|split; reflexivity].
  destruct (row !! Z.to_nat a) as [v|] eqn:Ev.
  - destruct (gather (mask_select m msk) (mask_select m acts)) as [e|vs]; simpl.
    + exact IH.
    + destruct IH as [IH1 IH2]. split; [exact IH1|]. rewrite IH2. reflexivity.
  - apply lookup_ge_None in Ev. apply Z.ltb_lt in E1. apply Z.leb_le in E0. lia.
Qed.

Lemma norm_index_in_range (len : nat) (a : Z) :
  in_range len a = true -> norm_index len a = Some (Z.to_nat a).
Proof. unfold in_range, norm_index. intros ->. reflexivity. Qed.

Lemma count_true_cons (b : bool) (m : list bool) :
  count_true (b :: m) = ((if b then 1 else 0) + count_true m)%nat.
Proof.
  unfold count_true. destruct b.
  - rewrite filter_cons_True by reflexivity. reflexivity.
  - rewrite filter_cons_False by discriminate. reflexivity.
Qed.

(** Selecting rows, moving one coordinate in each and writing them back
    is [move_rows]. *)
Lemma index_add_select (delta : Z) (m : list bool) (rows : list (list Z)) (acts : list Z) :
  length rows = length m -> length acts = length m ->
  sel_in_range m rows acts = true ->
  exists rs, index_add (mask_select m rows) (mask_select m acts) delta = inr rs
             /\ length rs = count_true m
             /\ mask_assign m rows rs = move_rows delta m acts rows.
Proof.
  revert rows acts. induction m as [|b m IH]; intros [|row rows] [|a acts] Hr Ha Hin;
    simpl in *; try discriminate.
  - exists []. repeat split.
  - apply andb_true_iff in Hin as [H0 Hin].
    destruct (IH rows acts ltac:(lia) ltac:(lia) Hin) as (rs & E & L & Eq).
    rewrite count_true_cons. destruct b; simpl in *.
    + rewrite (norm_index_in_range _ _ H0), E. simpl.
      eexists. split; [reflexivity|]. split; [simpl; lia|]. rewrite Eq. reflexivity.
    + exists rs. split; [exact E|]. split; [exact L|]. rewrite Eq. reflexivity.
Qed.

Lemma length_move_rows (delta : Z) (m : list bool) (acts : list Z) (rows : list (list Z)) :
  length acts = length m -> length rows = length m ->
  length (move_rows delta m acts rows) = length m.
Proof.
  revert acts rows. induction m as [|b m IH]; intros [|a acts] [|r rows] Ha Hr;
    simpl in *; try discriminate; [reflexivity|].
  f_equal. apply IH; lia.
Qed.

Lemma lookup_move_rows (delta : Z) (m : list bool) (acts : list Z) (rows : list (list Z))
      (i : nat) (b : bool) (a : Z) (r : list Z) :
  m !! i = Some b -> acts !! i = Some a -> rows !! i = Some r ->
  move_rows delta m acts rows !! i =
    Some (if b then alter (fun x => wrap64 (x + delta)) (Z.to_nat a) r else r).
Proof.
  revert acts rows i. induction m as [|b0 m IH]; intros [|a0 acts] [|r0 rows] [|i] Hm Ha Hr;
    simpl in *; try discriminate.
  - simplify_eq. reflexivity.
  - eapply IH; eauto.
Qed.

Lemma has_cols_move_rows (n : nat) (delta : Z) (m : list bool) (acts : list Z)
      (rows : list (list Z)) :
  has_cols n rows = true -> has_cols n (move_rows delta m acts rows) = true.
Proof.
  revert acts rows. induction m as [|b m IH]; intros [|a acts] [|r rows] H;
    simpl in *; try reflexivity.
  apply andb_true_iff in H as [H0 H]. rewrite (IH _ _ H), andb_true_r.
  destruct b; [rewrite length_alter|]; exact H0.
Qed.

(** ** The mask functions in closed form *)

Lemma fill_false_row (c : Z) (row : list Z) :
  zip_with (fun x s : bool => if s then false else x)
           (replicate (length row + 1) true)
           (map (fun x => x =? c) row ++ [false])
  = map (fun x => negb (x =? c)) row ++ [true].
Proof.
  induction row as [|x row IH]; simpl; [reflexivity|].
  rewrite IH. destruct (x =? c); reflexivity.
Qed.

Lemma fill_false_row_back (row : list Z) :
  zip_with (fun x s : bool => if s then false else x)
           (replicate (length row) true)
           (map (fun x => x =? 0) row)
  = map (fun x => negb (x =? 0)) row.
Proof.
  induction row as [|x row IH]; simpl; [reflexivity|].
  rewrite IH. destruct (x =? 0); reflexivity.
Qed.

Lemma make_masks_ok (env : HyperGrid) (st : list (list Z)) :
  has_cols (ndim env) st = true ->
  make_masks env st = inr (map (forward_mask_row env) st).
Proof.
  intros H. unfold make_masks, n_actions.
  rewrite (has_cols_map_length _ (ndim env) 1 st), H
    by (intros row; rewrite length_app, length_map; reflexivity).
  f_equal. unfold fill_false, ones.
  induction st as [|row st IH]; simpl in *; [reflexivity|].
  apply andb_true_iff in H as [Hr H]. apply Nat.eqb_eq in Hr.
  rewrite (IH H). f_equal. rewrite <- Hr. apply fill_false_row.
Qed.

Lemma make_masks_err (env : HyperGrid) (st : list (list Z)) :
  has_cols (ndim env) st = false -> make_masks env st = inl IndexError.
Proof.
  intros H. unfold make_masks, n_actions.
  rewrite (has_cols_map_length _ (ndim env) 1 st), H
    by (intros row; rewrite length_app, length_map; reflexivity).
  reflexivity.
Qed.

Lemma make_backward_masks_ok (env : HyperGrid) (st : list (list Z)) :
  has_cols (ndim env) st = true ->
  make_backward_masks env st = inr (map backward_mask_row st).
Proof.
  intros H. unfold make_backward_masks, n_actions.
  replace (ndim env + 1 - 1)%nat with (ndim env + 0)%nat by lia.
  rewrite (has_cols_map_length _ (ndim env) 0 st), H
    by (intros row; rewrite length_map; lia).
  f_equal. unfold fill_false, ones.
  induction st as [|row st IH]; simpl in *; [reflexivity|].
  apply andb_true_iff in H as [Hr H]. apply Nat.eqb_eq in Hr.
  rewrite (IH H). f_equal. rewrite Nat.add_0_r, <- Hr. apply fill_false_row_back.
Qed.

Lemma forward_mask_row_length (env : HyperGrid) (row : list Z) :
  length (forward_mask_row env row) = (length row + 1)%nat.
Proof. unfold forward_mask_row. rewrite length_app, length_map. reflexivity. Qed.

Lemma backward_mask_row_length (row : list Z) :
  length (backward_mask_row row) = length row.
Proof. unfold backward_mask_row. apply length_map. Qed.

(** Column [d] of the forward mask row: the stop column is true, a
    coordinate column is true unless the coordinate equals [height - 1]. *)
Lemma forward_mask_row_lookup (env : HyperGrid) (row : list Z) (d : nat) :
  forward_mask_row env row !! d =
    match row !! d with
    | Some x => Some (negb (x =? height env - 1))
    | None => if Nat.eqb d (length row) then Some true else None
    end.
Proof.
  unfold forward_mask_row. destruct (row !! d) as [x|] eqn:E.
  - rewrite lookup_app_l by (rewrite length_map; eapply lookup_lt_Some; eauto).
    rewrite list_lookup_fmap, E. reflexivity.
  - apply lookup_ge_None in E. rewrite lookup_app_r by (rewrite length_map; lia).
    rewrite length_map. destruct (Nat.eqb_spec d (length row)) as [->|Hne].
    + rewrite Nat.sub_diag. reflexivity.
    + destruct (d - length row)%nat as [|k] eqn:Ek; [lia | reflexivity].
Qed.

Lemma backward_mask_row_lookup (row : list Z) (d : nat) :
  backward_mask_row row !! d = (fun x => negb (x =? 0)) <$> row !! d.
Proof. unfold backward_mask_row. apply list_lookup_fmap. Qed.

Lemma wf_batch_shape (env : HyperGrid) (s : StatesBatch) :
  wf_batch env s -> shape_ok env s.
Proof.
  intros (Hc & Hd & Hm & Hb). unfold shape_ok. rewrite Hm, Hb, !length_map.
  repeat split; try assumption.
  - unfold n_actions. rewrite has_cols_map_length; [exact Hc|].
    apply forward_mask_row_length.
  - rewrite <- (Nat.add_0_r (ndim env)). rewrite has_cols_map_length; [exact Hc|].
    intros row. rewrite backward_mask_row_length. lia.
Qed.

Lemma with_masks_wf (env : HyperGrid) (st : list (list Z)) (dones : list bool) :
  has_cols (ndim env) st = true -> length dones = length st ->
  wf_batch env (with_masks env st dones).
Proof. intros H1 H2. repeat split; assumption. Qed.

(** ** Running the methods *)

Lemma bind_ok {A B : Type} (m : M A) (k : A -> M B) (h h' : heap) (a : A) :
  m h = (inr a, h') -> bind m k h = k a h'.
Proof. intros H. unfold bind. rewrite H. reflexivity. Qed.

Lemma bind_err {A B : Type} (m : M A) (k : A -> M B) (h h' : heap) (e : exn) :
  m h = (inl e, h') -> bind m k h = (inl e, h').
Proof. intros H. unfold bind. rewrite H. reflexivity. Qed.

Lemma deref_ok (h : heap) (l : loc) (s : StatesBatch) :
  h !! l = Some s -> deref l h = (inr s, h).
Proof. intros H. unfold deref. rewrite H. reflexivity. Qed.

Lemma modify_ok (h : heap) (l : loc) (s : StatesBatch) (f : StatesBatch -> StatesBatch) :
  h !! l = Some s -> modify l f h = (inr tt, <[l := f s]> h).
Proof. intros H. unfold modify. rewrite H. reflexivity. Qed.

Lemma lookup_insert_same (h : heap) (l : loc) (s s' : StatesBatch) :
  h !! l = Some s -> <[l := s']> h !! l = Some s'.
Proof. intros H. apply list_lookup_insert_eq. eapply lookup_lt_Some; eauto. Qed.

Lemma insert_snoc (h : heap) (s s' : StatesBatch) :
  <[length h := s']> (h ++ [s]) = h ++ [s'].
Proof.
  replace (length h) with (length h + 0)%nat at 1 by lia.
  rewrite insert_app_r. reflexivity.
Qed.

Lemma lookup_snoc (h : heap) (s : StatesBatch) : (h ++ [s]) !! length h = Some s.
Proof. apply list_lookup_middle. reflexivity. Qed.

Lemma update_masks_run (env : HyperGrid) (h : heap) (l : loc) (s : StatesBatch) :
  h !! l = Some s -> has_cols (ndim env) (states s) = true ->
  update_masks env l h
  = (inr tt, <[l := with_masks env (states s) (already_dones s)]> h).
Proof.
  intros Hl Hc. unfold update_masks.
  rewrite (bind_ok _ _ _ _ _ (deref_ok _ _ _ Hl)).
  unfold lift at 1. rewrite (bind_ok _ _ h h (map (forward_mask_row env) (states s)))
    by (rewrite make_masks_ok by exact Hc; reflexivity).
  rewrite (bind_ok _ _ _ _ _ (modify_ok _ _ _ _ Hl)).
  rewrite (bind_ok _ _ _ _ _ (deref_ok _ _ _ (lookup_insert_same _ _ _ _ Hl))).
  simpl states. unfold lift.
  erewrite bind_ok by (rewrite make_backward_masks_ok by exact Hc; reflexivity).
  rewrite (modify_ok _ _ _ _ (lookup_insert_same _ _ _ _ Hl)).
  rewrite list_insert_insert_eq. reflexivity.
Qed.

Lemma lor_lookup_inv (a b : list bool) (i : nat) (v : bool) :
  lor a b !! i = Some v ->
  exists x y, a !! i = Some x /\ b !! i = Some y /\ v = x || y.
Proof.
  unfold lor. rewrite lookup_zip_with.
  destruct (a !! i) as [x|]; simpl; [|discriminate].
  destruct (b !! i) as [y|]; simpl; [|discriminate].
  intros [= <-]. eauto.
Qed.

(** After validation, the elements that still move have their action
    inside the state row. *)
Lemma step_moves_in_range (env : HyperGrid) (s : StatesBatch) (acts : list Z) :
  shape_ok env s ->
  sel_allowed (lnot (already_dones s)) (masks s) acts = true ->
  sel_in_range (lnot (step_dones env s acts)) (states s) acts = true.
Proof.
  intros (Hm & _ & Hd & Hcs & Hcm & _) Hall.
  apply sel_in_range_lookup. intros i row a Hi Hrow Ha.
  rewrite lookup_lnot in Hi.
  destruct (step_dones env s acts !! i) as [v|] eqn:Ev; [|discriminate].
  simpl in Hi. assert (v = false) as -> by (destruct v; [discriminate | reflexivity]).
  apply lor_lookup_inv in Ev as (x & y & Hx & Hy & Hxy).
  symmetry in Hxy. apply orb_false_iff in Hxy as [-> ->].
  rewrite lookup_eq_scalar, Ha in Hy. simpl in Hy. injection Hy as Hy.
  destruct (masks s !! i) as [mrow|] eqn:Emrow.
  2:{ apply lookup_ge_None in Emrow. apply lookup_lt_Some in Hrow. lia. }
  assert (allowed mrow a = true) as Hal.
  { eapply (proj1 (sel_allowed_lookup _ _ _) Hall i); eauto.
    rewrite lookup_lnot, Hx. reflexivity. }
  apply allowed_in_range in Hal.
  rewrite (proj1 (has_cols_lookup _ _) Hcm _ _ Emrow) in Hal.
  rewrite (proj1 (has_cols_lookup _ _) Hcs _ _ Hrow).
  unfold in_range, stop_action, n_actions in *.
  apply andb_true_iff in Hal as [H0 H1]. apply Z.ltb_lt in H1. apply Z.eqb_neq in Hy.
  rewrite H0. simpl. apply Z.ltb_lt. lia.
Qed.

(** [step] on a well-shaped batch and an action vector of the batch
    size: which outcome it has, and the heap it leaves. *)
Lemma step_run (env : HyperGrid) (h : heap) (l : loc) (s : StatesBatch) (acts : list Z) :
  h !! l = Some s -> shape_ok env s -> length acts = length (states s) ->
  step env l acts h =
    if sel_in_range (lnot (already_dones s)) (masks s) acts then
      if sel_allowed (lnot (already_dones s)) (masks s) acts then
        (inr (length h, step_dones env s acts),
         <[l := step_post env s acts]> h ++ [step_post env s acts])
      else (inl ValueError, h)
    else (inl RuntimeError, h).
Proof.
  intros Hl Hs Hlen. pose proof Hs as (Hm & Hb & Hd & Hcs & Hcm & Hcb).
  unfold step.
  rewrite (bind_ok _ _ _ _ _ (deref_ok _ _ _ Hl)).
  unfold lift at 1 2 3.
  rewrite (bind_ok _ _ h h (mask_select (lnot (already_dones s)) (masks s)))
    by (rewrite bool_index_ok by (rewrite length_lnot; lia); reflexivity).
  rewrite (bind_ok _ _ h h (mask_select (lnot (already_dones s)) acts))
    by (rewrite bool_index_ok by (rewrite length_lnot; lia); reflexivity).
  pose proof (gather_select (lnot (already_dones s)) (masks s) acts
                ltac:(rewrite length_lnot; lia) ltac:(rewrite length_lnot; lia)) as G.
  destruct (gather _ _) as [e|vs].
  { destruct G as [-> ->]. reflexivity. }
  destruct G as [-> Hall]. rewrite (bind_ok _ _ h h vs) by reflexivity.
  rewrite Hall. destruct (sel_allowed _ _ _) eqn:Eall; simpl; [|reflexivity].
  fold (stop_action env). fold (step_dones env s acts).
  set (dones := step_dones env s acts).
  assert (length dones = length (states s)) as Hdl.
  { unfold dones, step_dones. rewrite length_lor; [lia|]. rewrite length_eq_scalar. lia. }
  rewrite (bind_ok _ _ _ _ _ (modify_ok _ _ _ _ Hl)).
  rewrite (bind_ok _ _ _ _ _ (deref_ok _ _ _ (lookup_insert_same _ _ _ _ Hl))).
  simpl states. unfold lift at 1 2.
  erewrite bind_ok
    by (rewrite bool_index_ok by (rewrite length_lnot; lia); reflexivity).
  erewrite bind_ok
    by (rewrite bool_index_ok by (rewrite length_lnot; lia); reflexivity).
  destruct (index_add_select 1 (lnot dones) (states s) acts
              ltac:(rewrite length_lnot; lia) ltac:(rewrite length_lnot; lia)
              (step_moves_in_range env s acts Hs Eall)) as (rs & Ers & Lrs & Eq).
  unfold lift at 1 2. erewrite bind_ok by (rewrite Ers; reflexivity).
  erewrite bind_ok.
  2:{ unfold bool_index_put. rewrite length_lnot, Hdl, Lrs, !Nat.eqb_refl. simpl.
      rewrite Eq. reflexivity. }
  rewrite (bind_ok _ _ _ _ _ (modify_ok _ _ _ _ (lookup_insert_same _ _ _ _ Hl))).
  rewrite list_insert_insert_eq.
  erewrite bind_ok.
  2:{ apply update_masks_run.
      - apply (lookup_insert_same _ _ _ _ Hl).
      - simpl. apply has_cols_move_rows. exact Hcs. }
  rewrite list_insert_insert_eq. simpl.
  unfold deepcopy.
  rewrite (bind_ok _ _ _ _ _
             (bind_ok _ _ _ _ _ (deref_ok _ _ _ (lookup_insert_same _ _ _ _ Hl)))).
  unfold alloc, ret. rewrite length_insert. reflexivity.
Qed.

(** An action vector of the wrong length is refused by the first
    indexing with the done flags. *)
Lemma step_wrong_length (env : HyperGrid) (h : heap) (l : loc) (s : StatesBatch)
      (acts : list Z) :
  h !! l = Some s -> shape_ok env s -> length acts <> length (states s) ->
  step env l acts h = (inl IndexError, h).
Proof.
  intros Hl (Hm & Hb & Hd & _) Hlen. unfold step.
  rewrite (bind_ok _ _ _ _ _ (deref_ok _ _ _ Hl)).
  unfold lift at 1 2.
  rewrite (bind_ok _ _ h h (mask_select (lnot (already_dones s)) (masks s)))
    by (rewrite bool_index_ok by (rewrite length_lnot; lia); reflexivity).
  rewrite (bind_err _ _ h h IndexError); [reflexivity|].
  rewrite bool_index_err by (rewrite length_lnot; lia). reflexivity.
Qed.

Lemma backward_moves_in_range (env : HyperGrid) (s : StatesBatch) (acts : list Z) :
  shape_ok env s ->
  sel_allowed (lnot (already_dones s)) (backward_masks s) acts = true ->
  sel_in_range (lnot (already_dones s)) (states s) acts = true.
Proof.
  intros (_ & Hb & Hd & Hcs & _ & Hcb) Hall.
  apply sel_in_range_lookup. intros i row a Hi Hrow Ha.
  destruct (backward_masks s !! i) as [mrow|] eqn:Emrow.
  2:{ apply lookup_ge_None in Emrow. apply lookup_lt_Some in Hrow. lia. }
  pose proof (proj1 (sel_allowed_lookup _ _ _) Hall i mrow a Hi Emrow Ha) as Hal.
  apply allowed_in_range in Hal.
  rewrite (proj1 (has_cols_lookup _ _) Hcb _ _ Emrow) in Hal.
  rewrite (proj1 (has_cols_lookup _ _) Hcs _ _ Hrow). exact Hal.
Qed.

(** [backward_step] on a well-shaped batch and an action vector of the
    batch size: the outcome, and the heap, in which the batch it was given
    is where it was and the working copy is the last object. *)
Lemma backward_step_run (env : HyperGrid) (h : heap) (l : loc) (s : StatesBatch)
      (acts : list Z) :
  h !! l = Some s -> shape_ok env s -> length acts = length (states s) ->
  backward_step env l acts h =
    if sel_in_range (lnot (already_dones s)) (backward_masks s) acts then
      if sel_allowed (lnot (already_dones s)) (backward_masks s) acts then
        (inr (length h, already_dones (backward_post env s acts)),
         h ++ [backward_post env s acts])
      else (inl ValueError, h ++ [s])
    else (inl RuntimeError, h ++ [s]).
Proof.
  intros Hl Hs Hlen. pose proof Hs as (Hm & Hb & Hd & Hcs & Hcm & Hcb).
  unfold backward_step, deepcopy.
  rewrite (bind_ok _ _ h (h ++ [s]) (length h))
    by (rewrite (bind_ok _ _ _ _ _ (deref_ok _ _ _ Hl)); reflexivity).
  pose proof (lookup_snoc h s) as Hc.
  rewrite (bind_ok _ _ _ _ _ (deref_ok _ _ _ Hc)).
  unfold lift at 1 2 3.
  erewrite bind_ok
    by (rewrite bool_index_ok by (rewrite length_lnot; lia); reflexivity).
  erewrite bind_ok
    by (rewrite bool_index_ok by (rewrite length_lnot; lia); reflexivity).
  pose proof (gather_select (lnot (already_dones s)) (backward_masks s) acts
                ltac:(rewrite length_lnot; lia) ltac:(rewrite length_lnot; lia)) as G.
  destruct (gather _ _) as [e|vs].
  { destruct G as [-> ->]. reflexivity. }
  destruct G as [-> Hall]. erewrite bind_ok by reflexivity.
  rewrite Hall. destruct (sel_allowed _ _ _) eqn:Eall; simpl; [|reflexivity].
  unfold lift at 1.
  erewrite bind_ok
    by (rewrite bool_index_ok by (rewrite length_lnot; lia); reflexivity).
  destruct (index_add_select (-1) (lnot (already_dones s)) (states s) acts
              ltac:(rewrite length_lnot; lia) ltac:(rewrite length_lnot; lia)
              (backward_moves_in_range env s acts Hs Eall)) as (rs & Ers & Lrs & Eq).
  unfold lift at 1 2. erewrite bind_ok by (rewrite Ers; reflexivity).
  erewrite bind_ok.
  2:{ unfold bool_index_put. rewrite length_lnot, Hd, Lrs, !Nat.eqb_refl. simpl.
      rewrite Eq. reflexivity. }
  rewrite (bind_ok _ _ _ _ _ (modify_ok _ _ _ _ Hc)).
  rewrite insert_snoc.
  rewrite (bind_ok _ _ _ _ _ (deref_ok _ _ _ (lookup_snoc _ _))).
  rewrite (bind_ok _ _ _ _ _ (modify_ok _ _ _ _ (lookup_snoc _ _))).
  rewrite insert_snoc.
  erewrite bind_ok.
  2:{ apply update_masks_run.
      - apply lookup_snoc.
      - simpl. apply has_cols_move_rows. exact Hcs. }
  rewrite insert_snoc. reflexivity.
Qed.

Lemma backward_step_wrong_length (env : HyperGrid) (h : heap) (l : loc) (s : StatesBatch)
      (acts : list Z) :
  h !! l = Some s -> shape_ok env s -> length acts <> length (states s) ->
  backward_step env l acts h = (inl IndexError, h ++ [s]).
Proof.
  intros Hl (Hm & Hb & Hd & _) Hlen. unfold backward_step, deepcopy.
  rewrite (bind_ok _ _ h (h ++ [s]) (length h))
    by (rewrite (bind_ok _ _ _ _ _ (deref_ok _ _ _ Hl)); reflexivity).
  rewrite (bind_ok _ _ _ _ _ (deref_ok _ _ _ (lookup_snoc h s))).
  unfold lift at 1 2.
  erewrite bind_ok
    by (rewrite bool_index_ok by (rewrite length_lnot; lia); reflexivity).
  rewrite (bind_err _ _ (h ++ [s]) (h ++ [s]) IndexError); [reflexivity|].
  rewrite bool_index_err by (rewrite length_lnot; lia). reflexivity.
Qed.

(** Construction of a batch. *)
Lemma StatesBatch_new_run (env : HyperGrid) (i : init) (st : list (list Z)) (h : heap) :
  post_init_states env i = inr st -> has_cols (ndim env) st = true ->
  StatesBatch_new env i h
  = (inr (length h), h ++ [with_masks env st (replicate (length st) false)]).
Proof.
  intros Hi Hc. unfold StatesBatch_new.
  unfold lift. erewrite bind_ok by (rewrite Hi; reflexivity).
  unfold alloc at 1. erewrite bind_ok by reflexivity.
  erewrite bind_ok.
  2:{ apply update_masks_run; [apply lookup_snoc | exact Hc]. }
  rewrite insert_snoc. reflexivity.
Qed.

(** ** The demo scenario *)

(** C1: with ndim=2, height=3 and three elements at the origin, the actions
    [0,1,1] give states [[1,0],[0,1],[0,1]] and done [F,F,F]; then [0,2,1]
    give [[2,0],[0,1],[0,2]] and done [F,T,F]; then [1,1,2] make element 2
    done; a fourth call with [0,1,1] raises the invalid-action error,
    element 0 having coordinate 0 at height-1 = 2 and a false mask entry
    for action 0. *)
Theorem C1_demo_scenario :
  fst (demo_run []) =
    inr (([[1; 0]; [0; 1]; [0; 1]], [false; false; false]),
         ([[2; 0]; [0; 1]; [0; 2]], [false; true; false]),
         ([[2; 1]; [0; 1]; [0; 2]], [false; true; true]))
  /\ exists s,
       fst (demo_fourth []) = inr (inl ValueError, s)
       /\ states s = [[2; 1]; [0; 1]; [0; 2]]
       /\ already_dones s = [false; true; true]
       /\ (exists row mrow,
             states s !! 0%nat = Some row /\ row !! 0%nat = Some (height demo_env - 1)
             /\ masks s !! 0%nat = Some mrow /\ mrow !! 0%nat = Some false).
Proof.
  split; [vm_compute; reflexivity|].
  exists {| states := [[2; 1]; [0; 1]; [0; 2]];
            masks := [[false; true; true]; [true; true; true]; [true; false; true]];
            backward_masks := [[true; true]; [false; true]; [false; true]];
            already_dones := [false; true; true] |}.
  split; [vm_compute; reflexivity|].
  split; [reflexivity|]. split; [reflexivity|].
  exists [2; 1], [false; true; true]. repeat split.
Qed.

(** ** Refused actions and what an exception leaves behind *)

Lemma lnot_lookup_true (dn : list bool) (i : nat) :
  lnot dn !! i = Some true <-> dn !! i = Some false.
Proof.
  rewrite lookup_lnot. destruct (dn !! i) as [[|]|]; simpl; split; congruence.
Qed.

Lemma sel_allowed_false (dn : list bool) (msk : list (list bool)) (acts : list Z) :
  sel_allowed (lnot dn) msk acts = false <-> refused dn msk acts.
Proof.
  split.
  - revert msk acts. induction dn as [|d dn IH]; intros [|row msk] [|a acts]; simpl;
      try discriminate.
    intros H. apply andb_false_iff in H as [H|H].
    + apply orb_false_iff in H as [Hd Ha]. exists O, a, row.
      destruct d; [discriminate|]. repeat split; assumption.
    + destruct (IH _ _ H) as (i & x & r & H1 & H2 & H3 & H4).
      exists (S i), x, r. repeat split; assumption.
  - intros (i & a & row & Hd & Ha & Hr & Hal).
    destruct (sel_allowed (lnot dn) msk acts) eqn:E; [|reflexivity].
    rewrite (proj1 (sel_allowed_lookup _ _ _) E i row a) in Hal;
      [discriminate | apply lnot_lookup_true; exact Hd | exact Hr | exact Ha].
Qed.

Lemma sel_in_range_typed {A : Type} (dn : list bool) (rows : list (list A)) (acts : list Z) :
  sel_in_range (lnot dn) rows acts = true <->
  forall i a row, dn !! i = Some false -> acts !! i = Some a -> rows !! i = Some row ->
                  0 <= a < Z.of_nat (length row).
Proof.
  rewrite sel_in_range_lookup. unfold in_range. split.
  - intros H i a row Hd Ha Hr.
    specialize (H i row a (proj2 (lnot_lookup_true _ _) Hd) Hr Ha).
    apply andb_true_iff in H as [H0 H1]. apply Z.leb_le in H0. apply Z.ltb_lt in H1. lia.
  - intros H i row a Hd Hr Ha.
    specialize (H i a row (proj1 (lnot_lookup_true _ _) Hd) Ha Hr).
    apply andb_true_iff. split; [apply Z.leb_le | apply Z.ltb_lt]; lia.
Qed.

Lemma sel_in_range_false_refused (dn : list bool) (msk : list (list bool)) (acts : list Z) :
  sel_in_range (lnot dn) msk acts = false -> sel_allowed (lnot dn) msk acts = false.
Proof.
  intros H. destruct (sel_allowed (lnot dn) msk acts) eqn:E; [|reflexivity].
  rewrite <- H. symmetry. apply sel_in_range_lookup. intros i row a H1 H2 H3.
  apply allowed_in_range. eapply (proj1 (sel_allowed_lookup _ _ _) E); eauto.
Qed.

Lemma refused_masked_out (dn : list bool) (msk : list (list bool)) (acts : list Z) :
  typed_actions dn msk acts -> (refused dn msk acts <-> masked_out dn msk acts).
Proof.
  intros Ht. split.
  - intros (i & a & row & Hd & Ha & Hr & Hal).
    exists i, a, row. destruct (Ht i a row Hd Ha Hr) as [H0 H1].
    repeat split; try assumption. unfold allowed in Hal.
    destruct (row !! Z.to_nat a) as [v|] eqn:E.
    + destruct (Z.leb_spec 0 a); [|lia]. simpl in Hal. congruence.
    + apply lookup_ge_None in E. lia.
  - intros (i & a & row & Hd & Ha & Hr & H0 & Hv).
    exists i, a, row. repeat split; try assumption.
    unfold allowed. rewrite Hv. apply andb_false_r.
Qed.

(** The outcome of a call, as far as the caller sees one. *)
Lemma step_outcome (env : HyperGrid) (h : heap) (l : loc) (s : StatesBatch) (acts : list Z) :
  h !! l = Some s -> shape_ok env s -> length acts = length (states s) ->
  (sel_allowed (lnot (already_dones s)) (masks s) acts = true
   /\ step env l acts h
      = (inr (length h, step_dones env s acts),
         <[l := step_post env s acts]> h ++ [step_post env s acts]))
  \/ (sel_allowed (lnot (already_dones s)) (masks s) acts = false
      /\ exists e, step env l acts h = (inl e, h) /\ InvalidAction e
         /\ (e = ValueError <->
             sel_in_range (lnot (already_dones s)) (masks s) acts = true)).
Proof.
  intros Hl Hs Hlen. rewrite (step_run env h l s acts Hl Hs Hlen).
  destruct (sel_in_range _ _ _) eqn:Er.
  - destruct (sel_allowed _ _ _) eqn:Ea; [left; split; reflexivity|].
    right. split; [reflexivity|]. exists ValueError. repeat split. left. reflexivity.
  - right. split; [apply sel_in_range_false_refused; exact Er|].
    exists RuntimeError. split; [reflexivity|]. split; [right; reflexivity|].
    split; discriminate.
Qed.

Lemma backward_step_outcome (env : HyperGrid) (h : heap) (l : loc) (s : StatesBatch)
      (acts : list Z) :
  h !! l = Some s -> shape_ok env s -> length acts = length (states s) ->
  (sel_allowed (lnot (already_dones s)) (backward_masks s) acts = true
   /\ backward_step env l acts h
      = (inr (length h, already_dones (backward_post env s acts)),
         h ++ [backward_post env s acts]))
  \/ (sel_allowed (lnot (already_dones s)) (backward_masks s) acts = false
      /\ exists e, backward_step env l acts h = (inl e, h ++ [s]) /\ InvalidAction e
         /\ (e = ValueError <->
             sel_in_range (lnot (already_dones s)) (backward_masks s) acts = true)).
Proof.
  intros Hl Hs Hlen. rewrite (backward_step_run env h l s acts Hl Hs Hlen).
  destruct (sel_in_range _ _ _) eqn:Er.
  - destruct (sel_allowed _ _ _) eqn:Ea; [left; split; reflexivity|].
    right. split; [reflexivity|]. exists ValueError. repeat split. left. reflexivity.
  - right. split; [apply sel_in_range_false_refused; exact Er|].
    exists RuntimeError. split; [reflexivity|]. split; [right; reflexivity|].
    split; discriminate.
Qed.

(** C2: [step] (resp. [backward_step]) raises the invalid-action error
    exactly when some element that is not done has an action its current
    forward (resp. backward) mask does not allow; the error is what the
    call returns, and it leaves every object that existed before the call,
    the batch it was called on included, as it was.  For actions inside
    the mask, the error is [ValueError] and the refusing entry is a false
    entry. *)
Theorem C2_invalid_action_atomic (env : HyperGrid) (h : heap) (l : loc) (s : StatesBatch) :
  h !! l = Some s -> shape_ok env s ->
  (forall acts e h', step env l acts h = (inl e, h') -> h' = h)
  /\ (forall acts r h', backward_step env l acts h = (r, h') ->
        take (length h) h' = h /\ h' !! l = Some s)
  /\ (forall acts, length acts = length (states s) ->
        ((exists e, fst (step env l acts h) = inl e /\ InvalidAction e)
         <-> refused (already_dones s) (masks s) acts)
        /\ ((exists e, fst (backward_step env l acts h) = inl e /\ InvalidAction e)
            <-> refused (already_dones s) (backward_masks s) acts)
        /\ (typed_actions (already_dones s) (masks s) acts ->
            (fst (step env l acts h) = inl ValueError
             <-> masked_out (already_dones s) (masks s) acts))
        /\ (typed_actions (already_dones s) (backward_masks s) acts ->
            (fst (backward_step env l acts h) = inl ValueError
             <-> masked_out (already_dones s) (backward_masks s) acts))).
Proof.
  intros Hl Hs. split; [|split].
  - intros acts e h' H.
    destruct (decide (length acts = length (states s))) as [Hlen|Hlen].
    + destruct (step_outcome env h l s acts Hl Hs Hlen) as [[_ E]|[_ (e' & E & _)]];
        rewrite E in H; congruence.
    + rewrite (step_wrong_length env h l s acts Hl Hs Hlen) in H. congruence.
  - intros acts r h' H.
    assert (exists x, h' = h ++ [x]) as [x ->].
    { destruct (decide (length acts = length (states s))) as [Hlen|Hlen].
      - destruct (backward_step_outcome env h l s acts Hl Hs Hlen)
          as [[_ E]|[_ (e' & E & _)]]; rewrite E in H; injection H as _ <-; eauto.
      - rewrite (backward_step_wrong_length env h l s acts Hl Hs Hlen) in H.
        injection H as _ <-. eauto. }
    split; [apply take_app_length|].
    rewrite lookup_app_l by (eapply lookup_lt_Some; eauto). exact Hl.
  - intros acts Hlen.
    pose proof (step_outcome env h l s acts Hl Hs Hlen) as Hf.
    pose proof (backward_step_outcome env h l s acts Hl Hs Hlen) as Hb.
    split; [|split; [|split]].
    + rewrite <- sel_allowed_false.
      destruct Hf as [[Ea E]|[Ea (e & E & Hi & _)]]; rewrite E, Ea; simpl.
      * split; [intros (e & He & _); discriminate | discriminate].
      * split; [reflexivity | intros _; eauto].
    + rewrite <- sel_allowed_false.
      destruct Hb as [[Ea E]|[Ea (e & E & Hi & _)]]; rewrite E, Ea; simpl.
      * split; [intros (e & He & _); discriminate | discriminate].
      * split; [reflexivity | intros _; eauto].
    + intros Ht. rewrite <- (refused_masked_out _ _ _ Ht), <- sel_allowed_false.
      apply sel_in_range_typed in Ht.
      destruct Hf as [[Ea E]|[Ea (e & E & _ & Hv)]]; rewrite E, Ea; simpl.
      * split; discriminate.
      * split; [reflexivity|]. intros _. f_equal. apply Hv. exact Ht.
    + intros Ht. rewrite <- (refused_masked_out _ _ _ Ht), <- sel_allowed_false.
      apply sel_in_range_typed in Ht.
      destruct Hb as [[Ea E]|[Ea (e & E & _ & Hv)]]; rewrite E, Ea; simpl.
      * split; discriminate.
      * split; [reflexivity|]. intros _. f_equal. apply Hv. exact Ht.
Qed.

(** ** Elements that are already done *)

Lemma sel_in_range_agree {A : Type} (m : list bool) (rows : list (list A))
      (acts acts' : list Z) :
  length acts' = length acts ->
  (forall i, m !! i = Some true -> acts' !! i = acts !! i) ->
  sel_in_range m rows acts' = sel_in_range m rows acts.
Proof.
  revert rows acts acts'.
  induction m as [|b m IH]; intros [|row rows] [|a acts] [|a' acts'] Hl H;
    simpl in *; try discriminate; try reflexivity.
  rewrite (IH rows acts acts') by (lia || (intros i Hi; apply (H (S i)); exact Hi)).
  destruct b; simpl; [|reflexivity].
  specialize (H O eq_refl). simpl in H. injection H as ->. reflexivity.
Qed.

Lemma sel_allowed_agree (m : list bool) (msk : list (list bool)) (acts acts' : list Z) :
  length acts' = length acts ->
  (forall i, m !! i = Some true -> acts' !! i = acts !! i) ->
  sel_allowed m msk acts' = sel_allowed m msk acts.
Proof.
  revert msk acts acts'.
  induction m as [|b m IH]; intros [|row msk] [|a acts] [|a' acts'] Hl H;
    simpl in *; try discriminate; try reflexivity.
  rewrite (IH msk acts acts') by (lia || (intros i Hi; apply (H (S i)); exact Hi)).
  destruct b; simpl; [|reflexivity].
  specialize (H O eq_refl). simpl in H. injection H as ->. reflexivity.
Qed.

Lemma move_rows_agree (delta : Z) (m : list bool) (rows : list (list Z))
      (acts acts' : list Z) :
  length acts' = length acts ->
  (forall i, m !! i = Some true -> acts' !! i = acts !! i) ->
  move_rows delta m acts' rows = move_rows delta m acts rows.
Proof.
  revert rows acts acts'.
  induction m as [|b m IH]; intros [|row rows] [|a acts] [|a' acts'] Hl H;
    simpl in *; try discriminate; try reflexivity.
  rewrite (IH rows acts acts') by (lia || (intros i Hi; apply (H (S i)); exact Hi)).
  destruct b; simpl; [|reflexivity].
  specialize (H O eq_refl). simpl in H. injection H as ->. reflexivity.
Qed.

Lemma lor_eq_scalar_agree (dn : list bool) (acts acts' : list Z) (c : Z) :
  length acts' = length acts ->
  (forall i, dn !! i = Some false -> acts' !! i = acts !! i) ->
  lor dn (eq_scalar acts' c) = lor dn (eq_scalar acts c).
Proof.
  revert acts acts'.
  induction dn as [|d dn IH]; intros [|a acts] [|a' acts'] Hl H;
    simpl in *; try discriminate; try reflexivity.
  unfold lor in *. simpl. f_equal.
  - destruct d; [reflexivity|]. specialize (H O eq_refl). simpl in H.
    injection H as ->. reflexivity.
  - apply IH; [lia|]. intros i Hi. apply (H (S i)). exact Hi.
Qed.

Lemma step_dones_done (env : HyperGrid) (s : StatesBatch) (acts : list Z) (i : nat) :
  length acts = length (already_dones s) ->
  already_dones s !! i = Some true -> step_dones env s acts !! i = Some true.
Proof.
  intros Hl Hd. destruct (lookup_lt_is_Some_2 acts i) as [a Ha].
  { rewrite Hl. eapply lookup_lt_Some; eauto. }
  unfold step_dones.
  rewrite (lookup_lor _ _ i true (a =? stop_action env) Hd);
    [reflexivity | rewrite lookup_eq_scalar, Ha; reflexivity].
Qed.

Lemma step_dones_not_done (env : HyperGrid) (s : StatesBatch) (acts : list Z) (i : nat) :
  lnot (step_dones env s acts) !! i = Some true -> already_dones s !! i = Some false.
Proof.
  intros H. apply lnot_lookup_true in H.
  apply lor_lookup_inv in H as (x & y & Hx & _ & Hxy).
  symmetry in Hxy. apply orb_false_iff in Hxy as [-> _]. exact Hx.
Qed.

(** The actions of done elements do not enter what [step] and
    [backward_step] compute. *)
Lemma step_post_agree (env : HyperGrid) (s : StatesBatch) (acts acts' : list Z) :
  length acts' = length acts ->
  (forall i, already_dones s !! i = Some false -> acts' !! i = acts !! i) ->
  step_dones env s acts' = step_dones env s acts
  /\ step_post env s acts' = step_post env s acts.
Proof.
  intros Hl H.
  assert (step_dones env s acts' = step_dones env s acts) as Hd
      by (apply lor_eq_scalar_agree; assumption).
  split; [exact Hd|]. unfold step_post. rewrite Hd. f_equal.
  apply move_rows_agree; [exact Hl|].
  intros i Hi. apply H. eapply step_dones_not_done; eauto.
Qed.

Lemma backward_post_agree (env : HyperGrid) (s : StatesBatch) (acts acts' : list Z) :
  length acts' = length acts ->
  (forall i, already_dones s !! i = Some false -> acts' !! i = acts !! i) ->
  backward_post env s acts' = backward_post env s acts.
Proof.
  intros Hl H. unfold backward_post.
  rewrite (move_rows_agree (-1) (lnot (already_dones s)) (states s) acts acts' Hl);
    [reflexivity|].
  intros i Hi. apply H. apply lnot_lookup_true. exact Hi.
Qed.

Lemma step_post_frame (env : HyperGrid) (s : StatesBatch) (acts : list Z) (i : nat)
      (row : list Z) :
  length acts = length (states s) -> length (already_dones s) = length (states s) ->
  already_dones s !! i = Some true -> states s !! i = Some row ->
  states (step_post env s acts) !! i = Some row
  /\ already_dones (step_post env s acts) !! i = Some true.
Proof.
  intros Hl Hdl Hd Hr.
  pose proof (step_dones_done env s acts i ltac:(lia) Hd) as Hd'.
  split; [|exact Hd']. simpl.
  destruct (lookup_lt_is_Some_2 acts i) as [a Ha].
  { rewrite Hl. eapply lookup_lt_Some; eauto. }
  erewrite lookup_move_rows; [| rewrite lookup_lnot, Hd'; reflexivity | exact Ha | exact Hr].
  reflexivity.
Qed.

Lemma backward_post_frame (env : HyperGrid) (s : StatesBatch) (acts : list Z) (i : nat)
      (row : list Z) :
  length acts = length (states s) -> length (already_dones s) = length (states s) ->
  already_dones s !! i = Some true -> states s !! i = Some row ->
  states (backward_post env s acts) !! i = Some row
  /\ already_dones (backward_post env s acts) !! i = Some true.
Proof.
  intros Hl Hdl Hd Hr.
  destruct (lookup_lt_is_Some_2 acts i) as [a Ha].
  { rewrite Hl. eapply lookup_lt_Some; eauto. }
  assert (states (backward_post env s acts) !! i = Some row) as Hs.
  { simpl. erewrite lookup_move_rows;
      [| rewrite lookup_lnot, Hd; reflexivity | exact Ha | exact Hr]. reflexivity. }
  split; [exact Hs|]. simpl in *.
  rewrite (lookup_lor _ _ i true (sum64 row =? 0) Hd);
    [reflexivity | rewrite list_lookup_fmap, Hs; reflexivity].
Qed.

(** C4: an element that is done before [step] or [backward_step] keeps its
    state vector and its done flag, and the action supplied for it is
    neither read nor validated: two action vectors that differ only at
    done elements, by any integers at all, make the call do the same thing
    and return the same result. *)
Theorem C4_done_elements_frame (env : HyperGrid) (h : heap) (l : loc) (s : StatesBatch)
        (acts : list Z) :
  h !! l = Some s -> shape_ok env s -> length acts = length (states s) ->
  (forall acts',
      length acts' = length acts ->
      (forall i, already_dones s !! i = Some false -> acts' !! i = acts !! i) ->
      step env l acts' h = step env l acts h
      /\ backward_step env l acts' h = backward_step env l acts h)
  /\ (forall i row, already_dones s !! i = Some true -> states s !! i = Some row ->
        (forall c dones h', step env l acts h = (inr (c, dones), h') ->
           dones !! i = Some true
           /\ exists s' sc, h' !! l = Some s' /\ h' !! c = Some sc
                /\ states s' !! i = Some row /\ already_dones s' !! i = Some true
                /\ states sc !! i = Some row /\ already_dones sc !! i = Some true)
        /\ (forall c dones h', backward_step env l acts h = (inr (c, dones), h') ->
              dones !! i = Some true
              /\ exists sc, h' !! c = Some sc
                   /\ states sc !! i = Some row /\ already_dones sc !! i = Some true)).
Proof.
  intros Hl Hs Hlen. pose proof Hs as (Hm & Hb & Hd & _).
  pose proof (lookup_lt_Some _ _ _ Hl) as Hlt. split.
  - intros acts' Hl' Hag.
    assert (forall i, lnot (already_dones s) !! i = Some true -> acts' !! i = acts !! i)
      as Hag' by (intros i Hi; apply Hag, lnot_lookup_true, Hi).
    rewrite (step_run env h l s acts' Hl Hs ltac:(lia)),
            (step_run env h l s acts Hl Hs Hlen),
            (backward_step_run env h l s acts' Hl Hs ltac:(lia)),
            (backward_step_run env h l s acts Hl Hs Hlen).
    rewrite !(sel_in_range_agree _ _ acts acts' Hl' Hag'),
            !(sel_allowed_agree _ _ acts acts' Hl' Hag').
    destruct (step_post_agree env s acts acts' Hl' Hag) as [-> ->].
    rewrite (backward_post_agree env s acts acts' Hl' Hag). split; reflexivity.
  - intros i row Hdi Hri.
    destruct (step_post_frame env s acts i row Hlen Hd Hdi Hri) as [F1 F2].
    destruct (backward_post_frame env s acts i row Hlen Hd Hdi Hri) as [B1 B2].
    split.
    + intros c dones h' H.
      destruct (step_outcome env h l s acts Hl Hs Hlen) as [[_ E]|[_ (e & E & _)]];
        rewrite E in H; [|discriminate].
      injection H as <- <- <-. split; [exact F2|].
      exists (step_post env s acts), (step_post env s acts).
      split; [|split; [|repeat split; assumption]].
      * rewrite lookup_app_l by (rewrite length_insert; exact Hlt).
        apply list_lookup_insert_eq. exact Hlt.
      * apply list_lookup_middle. rewrite length_insert. reflexivity.
    + intros c dones h' H.
      destruct (backward_step_outcome env h l s acts Hl Hs Hlen)
        as [[_ E]|[_ (e & E & _)]]; rewrite E in H; [|discriminate].
      injection H as <- <- <-. split; [exact B2|].
      exists (backward_post env s acts).
      split; [apply list_lookup_middle; reflexivity | split; assumption].
Qed.

(** ** Successful calls *)

Lemma step_success (env : HyperGrid) (h : heap) (l : loc) (s : StatesBatch)
      (acts : list Z) (r : loc * list bool) (h' : heap) :
  h !! l = Some s -> shape_ok env s -> step env l acts h = (inr r, h') ->
  length acts = length (states s)
  /\ sel_allowed (lnot (already_dones s)) (masks s) acts = true
  /\ r = (length h, step_dones env s acts)
  /\ h' = <[l := step_post env s acts]> h ++ [step_post env s acts].
Proof.
  intros Hl Hs H.
  destruct (decide (length acts = length (states s))) as [Hlen|Hlen].
  - destruct (step_outcome env h l s acts Hl Hs Hlen) as [[Ea E]|[_ (e & E & _)]];
      rewrite E in H; [|discriminate].
    injection H as <- <-. repeat split; assumption.
  - rewrite (step_wrong_length env h l s acts Hl Hs Hlen) in H. discriminate.
Qed.

Lemma backward_step_success (env : HyperGrid) (h : heap) (l : loc) (s : StatesBatch)
      (acts : list Z) (r : loc * list bool) (h' : heap) :
  h !! l = Some s -> shape_ok env s -> backward_step env l acts h = (inr r, h') ->
  length acts = length (states s)
  /\ sel_allowed (lnot (already_dones s)) (backward_masks s) acts = true
  /\ r = (length h, already_dones (backward_post env s acts))
  /\ h' = h ++ [backward_post env s acts].
Proof.
  intros Hl Hs H.
  destruct (decide (length acts = length (states s))) as [Hlen|Hlen].
  - destruct (backward_step_outcome env h l s acts Hl Hs Hlen)
      as [[Ea E]|[_ (e & E & _)]]; rewrite E in H; [|discriminate].
    injection H as <- <-. repeat split; assumption.
  - rewrite (backward_step_wrong_length env h l s acts Hl Hs Hlen) in H. discriminate.
Qed.

Lemma lookup_after_step (h : heap) (l : loc) (s p : StatesBatch) :
  h !! l = Some s ->
  (<[l := p]> h ++ [p]) !! l = Some p /\ (<[l := p]> h ++ [p]) !! length h = Some p.
Proof.
  intros Hl. pose proof (lookup_lt_Some _ _ _ Hl) as Hlt. split.
  - rewrite lookup_app_l by (rewrite length_insert; exact Hlt).
    apply list_lookup_insert_eq. exact Hlt.
  - apply list_lookup_middle. rewrite length_insert. reflexivity.
Qed.

Lemma step_post_wf (env : HyperGrid) (s : StatesBatch) (acts : list Z) :
  shape_ok env s -> length acts = length (states s) -> wf_batch env (step_post env s acts).
Proof.
  intros (Hm & Hb & Hd & Hcs & _) Hlen. unfold step_post. apply with_masks_wf.
  - apply has_cols_move_rows. exact Hcs.
  - assert (length (step_dones env s acts) = length (states s)) as Hdl.
    { unfold step_dones. rewrite length_lor; [lia|]. rewrite length_eq_scalar. lia. }
    rewrite length_move_rows; rewrite ?length_lnot; lia.
Qed.

Lemma backward_post_wf (env : HyperGrid) (s : StatesBatch) (acts : list Z) :
  shape_ok env s -> length acts = length (states s) ->
  wf_batch env (backward_post env s acts).
Proof.
  intros (Hm & Hb & Hd & Hcs & _) Hlen. unfold backward_post. apply with_masks_wf.
  - apply has_cols_move_rows. exact Hcs.
  - assert (length (move_rows (-1) (lnot (already_dones s)) acts (states s))
            = length (states s)) as L
        by (rewrite length_move_rows; rewrite ?length_lnot; lia).
    rewrite length_lor; [rewrite L; exact Hd | rewrite length_map, L; lia].
Qed.

Lemma has_cols_replicate {A : Type} (n k : nat) (x : A) :
  has_cols k (replicate n (replicate k x)) = true.
Proof.
  apply has_cols_lookup. intros i row H. apply lookup_replicate in H as [-> _].
  apply length_replicate.
Qed.

Lemma post_init_states_cols (env : HyperGrid) (i : init) (st : list (list Z)) :
  post_init_states env i = inr st -> has_cols (ndim env) st = true.
Proof.
  destruct i as [|stream|st0]; simpl.
  - intros [= <-]. apply has_cols_replicate.
  - intros [= <-]. apply has_cols_lookup. intros i row H. unfold randint in H.
    rewrite list_lookup_fmap in H. destruct (seq 0 (n_envs env) !! i); [|discriminate].
    injection H as <-. rewrite length_map, length_seq. reflexivity.
  - destruct (has_cols (ndim env) st0) eqn:E; [|discriminate]. intros [= <-]. exact E.
Qed.

Lemma StatesBatch_new_success (env : HyperGrid) (i : init) (h h' : heap) (l : loc) :
  StatesBatch_new env i h = (inr l, h') ->
  exists st, post_init_states env i = inr st /\ has_cols (ndim env) st = true
             /\ l = length h
             /\ h' = h ++ [with_masks env st (replicate (length st) false)].
Proof.
  intros H. destruct (post_init_states env i) as [e|st] eqn:E.
  - unfold StatesBatch_new, lift in H. rewrite E in H.
    erewrite bind_err in H by reflexivity. discriminate.
  - pose proof (post_init_states_cols env i st E) as Hc.
    rewrite (StatesBatch_new_run env i st h E Hc) in H. injection H as <- <-. eauto.
Qed.

(** The mask rows of a batch that satisfies the invariant. *)
Lemma wf_batch_masks (env : HyperGrid) (s : StatesBatch) (i : nat) (row : list Z) :
  wf_batch env s -> states s !! i = Some row ->
  length row = ndim env
  /\ masks s !! i = Some (forward_mask_row env row)
  /\ backward_masks s !! i = Some (backward_mask_row row).
Proof.
  intros (Hc & _ & Hm & Hb) Hr. split; [eapply has_cols_lookup; eauto|].
  rewrite Hm, Hb, !list_lookup_fmap, Hr. split; reflexivity.
Qed.

(** ** 64-bit arithmetic *)

Lemma wrap64_id (z : Z) : int64_min <= z <= int64_max -> wrap64 z = z.
Proof.
  unfold wrap64, int64_min, int64_max. intros H.
  rewrite Z.mod_small by lia. lia.
Qed.

Lemma wrap64_add_l (a b : Z) : wrap64 (wrap64 a + b) = wrap64 (a + b).
Proof.
  unfold wrap64. f_equal.
  replace ((a + 2 ^ 63) mod 2 ^ 64 - 2 ^ 63 + b + 2 ^ 63)
    with ((a + 2 ^ 63) mod 2 ^ 64 + b) by lia.
  rewrite Zplus_mod_idemp_l. f_equal. lia.
Qed.

Lemma sum64_fold (row : list Z) (acc : Z) :
  fold_left (fun a x => wrap64 (a + x)) row (wrap64 acc) = wrap64 (acc + Zsum row).
Proof.
  revert acc. induction row as [|x row IH]; intros acc; simpl.
  - rewrite Z.add_0_r. reflexivity.
  - rewrite wrap64_add_l, IH. f_equal. lia.
Qed.

(** The 64-bit sum of a row is its integer sum, wrapped. *)
Lemma sum64_wrap (row : list Z) : sum64 row = wrap64 (Zsum row).
Proof.
  unfold sum64. change 0 with (wrap64 0) at 1. rewrite sum64_fold. reflexivity.
Qed.

Lemma wrap64_zero (z : Z) : 0 <= z < 2 ^ 64 -> (wrap64 z = 0 <-> z = 0).
Proof.
  unfold wrap64. intros H. split; [|intros ->; reflexivity].
  intros Hw. destruct (Z_lt_le_dec z (2 ^ 63)) as [Hlt|Hge].
  - rewrite Z.mod_small in Hw by lia. lia.
  - replace (z + 2 ^ 63) with (z - 2 ^ 63 + 1 * 2 ^ 64) in Hw by lia.
    rewrite Z_mod_plus_full, Z.mod_small in Hw by lia. lia.
Qed.

Lemma Zsum_nonneg (row : list Z) :
  (forall d x, row !! d = Some x -> 0 <= x) -> 0 <= Zsum row.
Proof.
  induction row as [|y row IH]; simpl; intros H; [lia|].
  specialize (H O y eq_refl) as Hy.
  specialize (IH (fun d x Hx => H (S d) x Hx)). lia.
Qed.

Lemma Zsum_zero_origin (row : list Z) :
  (forall d x, row !! d = Some x -> 0 <= x) ->
  ((Zsum row =? 0) = is_origin row).
Proof.
  induction row as [|y row IH]; simpl; intros H; [reflexivity|].
  specialize (H O y eq_refl) as Hy.
  pose proof (Zsum_nonneg row (fun d x Hx => H (S d) x Hx)) as Hs.
  rewrite <- (IH (fun d x Hx => H (S d) x Hx)).
  destruct (Z.eqb_spec (y + Zsum row) 0), (Z.eqb_spec y 0), (Z.eqb_spec (Zsum row) 0);
    simpl; try reflexivity; lia.
Qed.

(** The done test [states.sum(-1) == 0] on a row without negative
    coordinates whose sum stays below [2 ^ 64]. *)
Lemma sum64_zero_origin (row : list Z) :
  (forall d x, row !! d = Some x -> 0 <= x) -> Zsum row < 2 ^ 64 ->
  (sum64 row =? 0) = is_origin row.
Proof.
  intros Hn Hs. rewrite <- (Zsum_zero_origin row Hn), sum64_wrap.
  pose proof (Zsum_nonneg row Hn) as H0.
  pose proof (wrap64_zero (Zsum row) ltac:(lia)) as Hw.
  destruct (Z.eqb_spec (wrap64 (Zsum row)) 0), (Z.eqb_spec (Zsum row) 0);
    try reflexivity; tauto.
Qed.

Lemma Zsum_bound (row : list Z) (b : Z) :
  (forall d x, row !! d = Some x -> x <= b) ->
  Zsum row <= Z.of_nat (length row) * b.
Proof.
  induction row as [|y row IH]; simpl length; simpl Zsum; intros H; [lia|].
  specialize (H O y eq_refl) as Hy.
  specialize (IH (fun d x Hx => H (S d) x Hx)). lia.
Qed.

(** ** The done flags recomputed from the states *)

(** C9 (as stated) fails: a batch built from the caller-supplied integer
    array [[1, -1]] is flagged done by [update_the_dones] although its
    state is not the origin. *)
Lemma C9_counterexample :
  exists l h s,
    new_then_update_the_dones demo_env [[1; -1]] [] = (inr l, h)
    /\ h !! l = Some s
    /\ states s = [[1; -1]]
    /\ already_dones s = [true]
    /\ is_origin [1; -1] = false.
Proof.
  exists 0%nat. eexists. eexists. split; [vm_compute; reflexivity|].
  repeat split.
Qed.

Lemma zeros_on_grid (env : HyperGrid) (n k : nat) :
  1 <= height env -> in_grid env (zeros n k).
Proof.
  intros Hh i row d x Hr Hx. unfold zeros in Hr.
  apply lookup_replicate in Hr as [-> _]. apply lookup_replicate in Hx as [-> _]. lia.
Qed.

Lemma randint_on_grid (env : HyperGrid) (n k : nat) (stream : nat -> Z) :
  1 <= height env -> in_grid env (randint (height env) n k stream).
Proof.
  intros Hh i row d x Hr Hx. unfold randint in Hr.
  rewrite list_lookup_fmap in Hr. destruct (seq 0 n !! i) as [i'|]; [|discriminate].
  injection Hr as <-. rewrite list_lookup_fmap in Hx.
  destruct (seq 0 k !! d) as [d'|]; [|discriminate]. injection Hx as <-.
  pose proof (Z.mod_pos_bound (stream (i' * k + d')%nat) (height env) ltac:(lia)). lia.
Qed.

(** C9 (amended): after [update_the_dones], on a batch whose coordinates
    are not negative and whose row sums stay below [2 ^ 64], an element is
    done iff its state vector is the all-zero origin.  Zero-initialised
    and randomly initialised batches are such batches, and so is every
    batch on the grid, when [ndim * (height - 1)] stays below [2 ^ 64]. *)
Theorem C9_update_the_dones (env : HyperGrid) :
  (forall h l s,
      h !! l = Some s ->
      (forall i row, states s !! i = Some row ->
         (forall d x, row !! d = Some x -> 0 <= x) /\ Zsum row < 2 ^ 64) ->
      exists s', update_the_dones l h = (inr tt, <[l := s']> h)
                 /\ states s' = states s
                 /\ length (already_dones s') = length (states s)
                 /\ forall i row, states s !! i = Some row ->
                      already_dones s' !! i = Some (is_origin row))
  /\ (1 <= height env -> Z.of_nat (ndim env) * (height env - 1) < 2 ^ 64 ->
      forall s, has_cols (ndim env) (states s) = true -> in_grid env (states s) ->
      forall i row, states s !! i = Some row ->
        (forall d x, row !! d = Some x -> 0 <= x) /\ Zsum row < 2 ^ 64)
  /\ (1 <= height env ->
      forall i h l h' s, StatesBatch_new env i h = (inr l, h') -> h' !! l = Some s ->
        (i = InitZeros \/ exists stream, i = InitRandom stream) ->
        has_cols (ndim env) (states s) = true /\ in_grid env (states s)).
Proof.
  split; [|split].
  - intros h l s Hl Hrows.
    exists (set_already_dones (map (fun row => sum64 row =? 0) (states s)) s).
    split.
    { unfold update_the_dones. rewrite (bind_ok _ _ _ _ _ (deref_ok _ _ _ Hl)).
      apply modify_ok. exact Hl. }
    split; [reflexivity|]. split; [simpl; apply length_map|].
    intros i row Hr. simpl. rewrite list_lookup_fmap, Hr. simpl. f_equal.
    destruct (Hrows i row Hr) as [Hn Hs]. apply sum64_zero_origin; assumption.
  - intros Hh Hfit s Hc Hg i row Hr. split.
    + intros d x Hx. apply (Hg i row d x Hr Hx).
    + pose proof (Zsum_bound row (height env - 1)
                    (fun d x Hx => proj2 (Hg i row d x Hr Hx))) as Hb.
      rewrite (proj1 (has_cols_lookup _ _) Hc i row Hr) in Hb. lia.
  - intros Hh i h l h' s H Hl Hi.
    apply StatesBatch_new_success in H as (st & Hst & Hc & -> & ->).
    rewrite lookup_snoc in Hl. injection Hl as <-. simpl. split; [exact Hc|].
    destruct Hi as [->|[stream ->]]; simpl in Hst; injection Hst as <-.
    + apply zeros_on_grid. exact Hh.
    + apply randint_on_grid. exact Hh.
Qed.

(** ** Coordinates stay on the grid *)

Lemma lookup_move_rows_inv (delta : Z) (m : list bool) (acts : list Z)
      (rows : list (list Z)) (i : nat) (r' : list Z) :
  move_rows delta m acts rows !! i = Some r' ->
  exists (b : bool) (a : Z) (r : list Z),
    m !! i = Some b /\ acts !! i = Some a /\ rows !! i = Some r
    /\ r' = if b then alter (fun x => wrap64 (x + delta)) (Z.to_nat a) r else r.
Proof.
  revert acts rows i. induction m as [|b m IH]; intros [|a acts] [|r rows] [|i] H;
    simpl in *; try discriminate.
  - injection H as <-. exists b, a, r. repeat split.
  - apply IH. exact H.
Qed.

(** An allowed forward action that is not the stop action points at a
    coordinate that differs from [height - 1]. *)
Lemma allowed_forward_coordinate (env : HyperGrid) (row : list Z) (a : Z) :
  allowed (forward_mask_row env row) a = true -> a <> Z.of_nat (length row) ->
  exists x, row !! Z.to_nat a = Some x /\ x <> height env - 1.
Proof.
  unfold allowed. rewrite andb_true_iff, forward_mask_row_lookup. intros [H0 H] Hne.
  apply Z.leb_le in H0. destruct (row !! Z.to_nat a) as [x|] eqn:E.
  - exists x. split; [reflexivity|]. destruct (Z.eqb_spec x (height env - 1)); [discriminate | assumption].
  - destruct (Nat.eqb_spec (Z.to_nat a) (length row)); [lia | discriminate].
Qed.

Lemma allowed_backward_coordinate (row : list Z) (a : Z) :
  allowed (backward_mask_row row) a = true ->
  exists x, row !! Z.to_nat a = Some x /\ x <> 0.
Proof.
  unfold allowed. rewrite andb_true_iff, backward_mask_row_lookup. intros [H0 H].
  destruct (row !! Z.to_nat a) as [x|] eqn:E; [|discriminate].
  exists x. split; [reflexivity|]. simpl in H.
  destruct (Z.eqb_spec x 0); [discriminate | assumption].
Qed.

(** What [step] does to an element that moves. *)
Lemma step_moving_element (env : HyperGrid) (s : StatesBatch) (acts : list Z) (i : nat) :
  wf_batch env s ->
  sel_allowed (lnot (already_dones s)) (masks s) acts = true ->
  lnot (step_dones env s acts) !! i = Some true ->
  forall a row, acts !! i = Some a -> states s !! i = Some row ->
  exists x, row !! Z.to_nat a = Some x /\ x <> height env - 1 /\ 0 <= a.
Proof.
  intros Hwf Hall Hi a row Ha Hr.
  destruct (wf_batch_masks env s i row Hwf Hr) as (Hlen & Hfm & _).
  pose proof (step_dones_not_done env s acts i Hi) as Hnd.
  pose proof (proj1 (sel_allowed_lookup _ _ _) Hall i _ a
                (proj2 (lnot_lookup_true _ _) Hnd) Hfm Ha) as Hal.
  apply lnot_lookup_true in Hi.
  apply lor_lookup_inv in Hi as (x & y & _ & Hy & Hxy).
  symmetry in Hxy. apply orb_false_iff in Hxy as [_ ->].
  rewrite lookup_eq_scalar, Ha in Hy. simpl in Hy. injection Hy as Hy.
  apply Z.eqb_neq in Hy. unfold stop_action, n_actions in Hy.
  destruct (allowed_forward_coordinate env row a Hal ltac:(lia)) as (z & Hz & Hne).
  exists z. repeat split; try assumption.
  unfold allowed in Hal. apply andb_true_iff in Hal as [H0 _]. apply Z.leb_le. exact H0.
Qed.

Lemma step_post_on_grid (env : HyperGrid) (s : StatesBatch) (acts : list Z) :
  height env - 1 <= int64_max ->
  wf_batch env s -> in_grid env (states s) ->
  sel_allowed (lnot (already_dones s)) (masks s) acts = true ->
  in_grid env (states (step_post env s acts)).
Proof.
  intros Hfit Hwf Hg Hall i row' d x Hr' Hx. simpl in Hr'.
  apply lookup_move_rows_inv in Hr' as (b & a & row & Hb & Ha & Hr & ->).
  destruct b; [|apply (Hg i row d x Hr Hx)].
  destruct (step_moving_element env s acts i Hwf Hall Hb a row Ha Hr) as (y & Hy & Hne & H0).
  destruct (decide (d = Z.to_nat a)) as [->|Hd].
  - rewrite list_lookup_alter_eq, Hy in Hx. simpl in Hx. injection Hx as <-.
    pose proof (Hg i row _ y Hr Hy) as Hgy.
    rewrite wrap64_id by (unfold int64_min, int64_max in *; lia). lia.
  - rewrite list_lookup_alter_ne in Hx by congruence. apply (Hg i row d x Hr Hx).
Qed.

Lemma backward_post_on_grid (env : HyperGrid) (s : StatesBatch) (acts : list Z) :
  height env - 1 <= int64_max ->
  wf_batch env s -> in_grid env (states s) ->
  sel_allowed (lnot (already_dones s)) (backward_masks s) acts = true ->
  in_grid env (states (backward_post env s acts)).
Proof.
  intros Hfit Hwf Hg Hall i row' d x Hr' Hx. simpl in Hr'.
  apply lookup_move_rows_inv in Hr' as (b & a & row & Hb & Ha & Hr & ->).
  destruct b; [|apply (Hg i row d x Hr Hx)].
  destruct (wf_batch_masks env s i row Hwf Hr) as (_ & _ & Hbm).
  pose proof (proj1 (sel_allowed_lookup _ _ _) Hall i _ a Hb Hbm Ha) as Hal.
  destruct (allowed_backward_coordinate row a Hal) as (y & Hy & Hne).
  destruct (decide (d = Z.to_nat a)) as [->|Hd].
  - rewrite list_lookup_alter_eq, Hy in Hx. simpl in Hx. injection Hx as <-.
    pose proof (Hg i row _ y Hr Hy) as Hgy.
    rewrite wrap64_id by (unfold int64_min, int64_max in *; lia). lia.
  - rewrite list_lookup_alter_ne in Hx by congruence. apply (Hg i row d x Hr Hx).
Qed.

(** C8: from a batch whose coordinates all lie in [0, height - 1], every
    successful [step] and [backward_step] yields batches whose coordinates
    all lie in [0, height - 1]: the environment's own batch and the
    returned copy after [step], the returned batch after [backward_step].
    The batch satisfies the batch invariant (its masks are those of its
    states) and [height - 1] is a 64-bit integer, as its comparison with
    the states tensor requires. *)
Theorem C8_states_stay_on_grid (env : HyperGrid) (h : heap) (l : loc) (s : StatesBatch)
        (acts : list Z) (r : loc * list bool) (h' : heap) :
  height env - 1 <= int64_max ->
  h !! l = Some s -> wf_batch env s -> in_grid env (states s) ->
  (step env l acts h = (inr r, h') ->
   exists s' sc, h' !! l = Some s' /\ in_grid env (states s')
                 /\ h' !! fst r = Some sc /\ in_grid env (states sc))
  /\ (backward_step env l acts h = (inr r, h') ->
      exists sc, h' !! fst r = Some sc /\ in_grid env (states sc)).
Proof.
  intros Hfit Hl Hwf Hg. pose proof (wf_batch_shape env s Hwf) as Hs. split.
  - intros H.
    destruct (step_success env h l s acts r h' Hl Hs H) as (Hlen & Hall & -> & ->).
    destruct (lookup_after_step h l s (step_post env s acts) Hl) as [L1 L2].
    pose proof (step_post_on_grid env s acts Hfit Hwf Hg Hall) as Hg'.
    exists (step_post env s acts), (step_post env s acts).
    split; [exact L1|]. split; [exact Hg'|]. split; [exact L2 | exact Hg'].
  - intros H.
    destruct (backward_step_success env h l s acts r h' Hl Hs H) as (Hlen & Hall & -> & ->).
    exists (backward_post env s acts).
    split; [apply lookup_snoc | apply backward_post_on_grid; assumption].
Qed.

(** ** The masks as a function of the states *)

Lemma wf_batch_mask_shapes (env : HyperGrid) (s : StatesBatch) :
  wf_batch env s -> mask_shapes env s.
Proof.
  intros Hwf. pose proof Hwf as (Hc & _ & Hm & Hb).
  split; [rewrite Hm; apply length_map|].
  split; [rewrite Hb; apply length_map|]. split.
  - intros i fm Hfm. rewrite Hm, list_lookup_fmap in Hfm.
    destruct (states s !! i) as [row|] eqn:Hr; [|discriminate]. injection Hfm as <-.
    pose proof (proj1 (has_cols_lookup _ _) Hc i row Hr) as Hlen.
    split; [rewrite forward_mask_row_length, Hlen; reflexivity|].
    rewrite forward_mask_row_lookup.
    rewrite (proj2 (lookup_ge_None row (ndim env))) by lia.
    rewrite <- Hlen, Nat.eqb_refl. reflexivity.
  - intros i bm Hbm. rewrite Hb, list_lookup_fmap in Hbm.
    destruct (states s !! i) as [row|] eqn:Hr; [|discriminate]. injection Hbm as <-.
    rewrite backward_mask_row_length. exact (proj1 (has_cols_lookup _ _) Hc i row Hr).
Qed.

Lemma wf_batch_masks_as_stated (env : HyperGrid) (s : StatesBatch) :
  wf_batch env s -> in_grid env (states s) -> masks_as_stated env s.
Proof.
  intros Hwf Hg i row fm bm d x Hr Hfm Hbm Hx.
  destruct (wf_batch_masks env s i row Hwf Hr) as (_ & Hfm' & Hbm').
  rewrite Hfm' in Hfm. rewrite Hbm' in Hbm. injection Hfm as <-. injection Hbm as <-.
  rewrite forward_mask_row_lookup, backward_mask_row_lookup, Hx. simpl.
  pose proof (Hg i row d x Hr Hx) as Hgx.
  destruct (Z.eqb_spec x (height env - 1)), (Z.eqb_spec x 0); simpl;
    repeat split; intros; try congruence; try lia.
Qed.

(** C5: on the grid, with [height - 1] a signed 64-bit integer, the
    masks are the stated function of the current states after the
    construction of a batch and after every successful [step] and
    [backward_step]: one row per element, the forward row has [ndim + 1]
    columns, its last (stop) column is true and its column [d] is true
    iff coordinate [d] is below [height - 1]; the backward row has
    exactly [ndim] columns and its column [d] is true iff coordinate [d]
    is above 0.  Construction from zeros and from random draws gives a
    batch on the grid, and so does a caller-supplied array of grid
    states; [step] and [backward_step] start from a batch on the grid
    with masks of that form, and yield such batches again. *)
Theorem C5_masks_function_of_states (env : HyperGrid) :
  int64_min <= height env - 1 <= int64_max ->
  (forall i h l h',
      StatesBatch_new env i h = (inr l, h') ->
      exists s, h' !! l = Some s /\ wf_batch env s
        /\ (1 <= height env -> (forall st, i <> InitStates st) -> in_grid env (states s))
        /\ (in_grid env (states s) -> mask_shapes env s /\ masks_as_stated env s))
  /\ (forall h l s acts r h',
        h !! l = Some s -> wf_batch env s -> in_grid env (states s) ->
        step env l acts h = (inr r, h') ->
        exists s' sc,
          h' !! l = Some s' /\ h' !! fst r = Some sc
          /\ wf_batch env s' /\ in_grid env (states s')
          /\ mask_shapes env s' /\ masks_as_stated env s'
          /\ wf_batch env sc /\ in_grid env (states sc)
          /\ mask_shapes env sc /\ masks_as_stated env sc)
  /\ (forall h l s acts r h',
        h !! l = Some s -> wf_batch env s -> in_grid env (states s) ->
        backward_step env l acts h = (inr r, h') ->
        exists sc,
          h' !! fst r = Some sc
          /\ wf_batch env sc /\ in_grid env (states sc)
          /\ mask_shapes env sc /\ masks_as_stated env sc).
Proof.
  intros [_ Hfit]. split; [|split].
  - intros i h l h' H.
    apply StatesBatch_new_success in H as (st & Hst & Hc & -> & ->).
    assert (wf_batch env (with_masks env st (replicate (length st) false))) as Hwf
        by (apply with_masks_wf; [exact Hc | apply length_replicate]).
    eexists. split; [apply lookup_snoc|]. split; [exact Hwf|]. split.
    + intros Hh Hi. simpl. destruct i as [|stream|st0]; simpl in Hst.
      * injection Hst as <-. apply zeros_on_grid. exact Hh.
      * injection Hst as <-. apply randint_on_grid. exact Hh.
      * elim (Hi st0). reflexivity.
    + intros Hg. split; [apply wf_batch_mask_shapes; exact Hwf|].
      apply wf_batch_masks_as_stated; assumption.
  - intros h l s acts r h' Hl Hwf Hg H.
    pose proof (wf_batch_shape env s Hwf) as Hs.
    destruct (step_success env h l s acts r h' Hl Hs H) as (Hlen & Hall & -> & ->).
    destruct (lookup_after_step h l s (step_post env s acts) Hl) as [L1 L2].
    pose proof (step_post_wf env s acts Hs Hlen) as Hwf'.
    pose proof (step_post_on_grid env s acts Hfit Hwf Hg Hall) as Hg'.
    pose proof (wf_batch_mask_shapes env _ Hwf') as Hsh.
    pose proof (wf_batch_masks_as_stated env _ Hwf' Hg') as Hst.
    exists (step_post env s acts), (step_post env s acts).
    split; [exact L1|]. split; [exact L2|].
    split; [exact Hwf'|]. split; [exact Hg'|]. split; [exact Hsh|]. split; [exact Hst|].
    split; [exact Hwf'|]. split; [exact Hg'|]. split; [exact Hsh | exact Hst].
  - intros h l s acts r h' Hl Hwf Hg H.
    pose proof (wf_batch_shape env s Hwf) as Hs.
    destruct (backward_step_success env h l s acts r h' Hl Hs H) as (Hlen & Hall & -> & ->).
    pose proof (backward_post_wf env s acts Hs Hlen) as Hwf'.
    pose proof (backward_post_on_grid env s acts Hfit Hwf Hg Hall) as Hg'.
    exists (backward_post env s acts).
    split; [apply lookup_snoc|].
    split; [exact Hwf'|]. split; [exact Hg'|].
    split; [apply wf_batch_mask_shapes; exact Hwf'|].
    apply wf_batch_masks_as_stated; assumption.
Qed.

(** ** A coordinate beyond the grid bound *)

(** C10: [make_masks] marks increment [d] illegal exactly when
    coordinate [d] equals [height - 1].  So for a batch built from a
    caller-supplied array in which the coordinate [c] of element [i] at
    [d] is greater than [height - 1], the forward mask reports that
    increment legal, and a [step] with that action for [i] (and allowed
    actions for the other elements) succeeds and stores [c + 1], as a
    64-bit integer, which is off the grid again; it is [c + 1] itself
    unless [c] is the largest 64-bit integer. *)
Theorem C10_increment_beyond_bound (env : HyperGrid) (st : list (list Z))
        (acts : list Z) (h : heap) (i d : nat) (row : list Z) (c : Z) :
  1 <= height env -> has_cols (ndim env) st = true ->
  st !! i = Some row -> row !! d = Some c ->
  height env - 1 < c -> c <= int64_max ->
  length acts = length st -> acts !! i = Some (Z.of_nat d) ->
  (forall j a r, j <> i -> acts !! j = Some a -> st !! j = Some r ->
                 allowed (forward_mask_row env r) a = true) ->
  exists l h1 s,
    StatesBatch_new env (InitStates st) h = (inr l, h1)
    /\ h1 !! l = Some s /\ states s = st
    /\ (exists fm, masks s !! i = Some fm /\ fm !! d = Some true
          /\ forall d' x, row !! d' = Some x ->
               (fm !! d' = Some false <-> x = height env - 1))
    /\ exists r h2 s' row',
         step env l acts h1 = (inr r, h2)
         /\ h2 !! l = Some s' /\ states s' !! i = Some row'
         /\ row' !! d = Some (wrap64 (c + 1))
         /\ ~ (0 <= wrap64 (c + 1) <= height env - 1)
         /\ (c < int64_max -> wrap64 (c + 1) = c + 1).
Proof.
  intros Hh Hc Hr Hx Hgt Hmax Hlen Ha Hothers.
  set (s := with_masks env st (replicate (length st) false)).
  assert (wf_batch env s) as Hwf
      by (apply with_masks_wf; [exact Hc | apply length_replicate]).
  pose proof (wf_batch_shape env s Hwf) as Hs.
  exists (length h), (h ++ [s]), s.
  split; [apply StatesBatch_new_run; [simpl; rewrite Hc; reflexivity | exact Hc]|].
  split; [apply lookup_snoc|]. split; [reflexivity|].
  destruct (wf_batch_masks env s i row Hwf Hr) as (Hrl & Hfm & _).
  assert (forward_mask_row env row !! d = Some true) as Hfd.
  { rewrite forward_mask_row_lookup, Hx. destruct (Z.eqb_spec c (height env - 1)); [lia | reflexivity]. }
  split.
  { exists (forward_mask_row env row). split; [exact Hfm|]. split; [exact Hfd|].
    intros d' x Hx'. rewrite forward_mask_row_lookup, Hx'.
    destruct (Z.eqb_spec x (height env - 1)); simpl; split; congruence. }
  assert (sel_allowed (lnot (already_dones s)) (masks s) acts = true) as Hall.
  { apply sel_allowed_lookup. intros j mrow a Hj Hm Haj.
    destruct (states s !! j) as [rj|] eqn:Erj.
    2:{ apply lookup_ge_None in Erj. apply lookup_lt_Some in Haj. simpl in Erj. lia. }
    destruct (wf_batch_masks env s j rj Hwf Erj) as (_ & Hfmj & _).
    rewrite Hfmj in Hm. injection Hm as <-.
    destruct (decide (j = i)) as [->|Hne].
    - simpl in Erj. rewrite Hr in Erj. injection Erj as <-.
      rewrite Ha in Haj. injection Haj as <-.
      unfold allowed. rewrite Nat2Z.id, Hfd.
      destruct (Z.leb_spec 0 (Z.of_nat d)); [reflexivity | lia].
    - apply (Hothers j a rj Hne Haj Erj). }
  assert (sel_in_range (lnot (already_dones s)) (masks s) acts = true) as Hin.
  { apply sel_in_range_lookup. intros j mrow a Hj Hm Haj. apply allowed_in_range.
    apply (proj1 (sel_allowed_lookup _ _ _) Hall j mrow a Hj Hm Haj). }
  pose proof (step_run env (h ++ [s]) (length h) s acts (lookup_snoc h s) Hs Hlen) as Hrun'.
  rewrite Hall, Hin in Hrun'.
  destruct (lookup_after_step (h ++ [s]) (length h) s (step_post env s acts)
              (lookup_snoc h s)) as [L1 _].
  eexists _, _, (step_post env s acts), _.
  split; [exact Hrun'|]. split; [exact L1|].
  assert (lnot (step_dones env s acts) !! i = Some true) as Hmove.
  { apply lnot_lookup_true. unfold step_dones.
    rewrite (lookup_lor _ _ i false (Z.of_nat d =? stop_action env)).
    - f_equal. simpl. apply Z.eqb_neq. unfold stop_action, n_actions.
      apply lookup_lt_Some in Hx. lia.
    - simpl. apply lookup_replicate_2. eapply lookup_lt_Some; eauto.
    - rewrite lookup_eq_scalar, Ha. reflexivity. }
  split.
  { simpl. erewrite lookup_move_rows; [reflexivity | exact Hmove | exact Ha | exact Hr]. }
  split.
  { simpl. rewrite Nat2Z.id, list_lookup_alter_eq, Hx. reflexivity. }
  unfold int64_max in *.
  destruct (decide (c < 2 ^ 63 - 1)) as [Hlt|Hge].
  - rewrite wrap64_id by (unfold int64_min, int64_max; lia). split; [lia | reflexivity].
  - assert (c = 2 ^ 63 - 1) as -> by lia. split; [|lia].
    vm_compute. intros [H1 _]. apply H1. reflexivity.
Qed.

(** ** Forward trajectories and their reversal *)

Lemma wf_batch_eq (env : HyperGrid) (s : StatesBatch) :
  wf_batch env s -> s = with_masks env (states s) (already_dones s).
Proof.
  destruct s as [st fm bm dn]. intros (_ & _ & Hm & Hb). simpl in *. subst.
  reflexivity.
Qed.

Lemma steps_run (env : HyperGrid) (traj : list (list Z)) :
  forall (h : heap) (l last : loc) (s : StatesBatch) (c : loc) (h1 : heap),
    h !! l = Some s -> h !! last = Some s -> wf_batch env s ->
    steps env l last traj h = (inr c, h1) ->
    legal env s traj /\ h1 !! c = Some (fwd env s traj).
Proof.
  induction traj as [|acts traj IH]; intros h l last s c h1 Hl Hlast Hwf H; simpl in *.
  - injection H as <- <-. split; [exact I | exact Hlast].
  - pose proof (wf_batch_shape env s Hwf) as Hs.
    destruct (step env l acts h) as [[e|r] h'] eqn:E.
    { rewrite (bind_err _ _ _ _ _ E) in H. discriminate. }
    rewrite (bind_ok _ _ _ _ _ E) in H.
    destruct (step_success env h l s acts r h' Hl Hs E) as (Hlen & Hall & -> & ->).
    destruct (lookup_after_step h l s (step_post env s acts) Hl) as [L1 L2].
    destruct (IH _ _ _ _ _ _ L1 L2 (step_post_wf env s acts Hs Hlen) H) as [Hleg Hc].
    repeat split; assumption.
Qed.

Lemma backward_steps_run (env : HyperGrid) (traj : list (list Z)) :
  forall (h : heap) (c : loc) (s : StatesBatch),
    h !! c = Some s -> wf_batch env s -> blegal env s traj ->
    exists c' h',
      backward_steps env c traj h = (inr (c', bdones env s traj), h')
      /\ h' !! c' = Some (bwd env s traj).
Proof.
  induction traj as [|acts traj IH]; intros h c s Hc Hwf Hleg; simpl in *.
  - exists c, h. split; [reflexivity | exact Hc].
  - destruct Hleg as (Hlen & Hall & Hleg).
    pose proof (wf_batch_shape env s Hwf) as Hs.
    pose proof (backward_step_run env h c s acts Hc Hs Hlen) as E.
    rewrite Hall in E.
    assert (sel_in_range (lnot (already_dones s)) (backward_masks s) acts = true) as Hin.
    { apply sel_in_range_lookup. intros j mrow a Hj Hm Haj. apply allowed_in_range.
      apply (proj1 (sel_allowed_lookup _ _ _) Hall j mrow a Hj Hm Haj). }
    rewrite Hin in E.
    destruct (IH (h ++ [backward_post env s acts]) (length h) (backward_post env s acts)
                 (lookup_snoc _ _) (backward_post_wf env s acts Hs Hlen) Hleg)
      as (c' & h' & E' & Hc').
    exists c', h'. split; [|exact Hc'].
    rewrite (bind_ok _ _ _ _ _ E). simpl fst. rewrite (bind_ok _ _ _ _ _ E').
    reflexivity.
Qed.

Lemma bwd_app (env : HyperGrid) (xs ys : list (list Z)) (s : StatesBatch) :
  bwd env s (xs ++ ys) = bwd env (bwd env s xs) ys.
Proof. revert s. induction xs as [|x xs IH]; intros s; simpl; [reflexivity | apply IH]. Qed.

Lemma blegal_app (env : HyperGrid) (xs ys : list (list Z)) (s : StatesBatch) :
  blegal env s xs -> blegal env (bwd env s xs) ys -> blegal env s (xs ++ ys).
Proof.
  revert s. induction xs as [|x xs IH]; intros s; simpl; [auto|].
  intros (H1 & H2 & H3) H4. repeat split; auto.
Qed.

Lemma bdones_app_last (env : HyperGrid) (xs : list (list Z)) (a : list Z) (s : StatesBatch) :
  last (bdones env s (xs ++ [a])) = Some (already_dones (bwd env s (xs ++ [a]))).
Proof.
  revert s. induction xs as [|x xs IH]; intros s; simpl; [reflexivity|].
  specialize (IH (backward_post env s x)).
  destruct (bdones env (backward_post env s x) (xs ++ [a])) eqn:E; [|exact IH].
  destruct xs; discriminate.
Qed.

Lemma lor_all_false (n : nat) (b : list bool) :
  length b = n -> lor (replicate n false) b = b.
Proof.
  revert b. induction n as [|n IH]; intros [|x b] H; simpl in *; try discriminate;
    [reflexivity|].
  unfold lor in *. simpl. f_equal. apply IH. lia.
Qed.

Lemma eq_scalar_never (acts : list Z) (c : Z) :
  Forall (fun a => a <> c) acts -> eq_scalar acts c = replicate (length acts) false.
Proof.
  unfold eq_scalar. induction 1 as [|a acts Ha _ IH]; simpl; [reflexivity|].
  rewrite IH. f_equal. apply Z.eqb_neq. exact Ha.
Qed.

Lemma lnot_all_false (n : nat) : lnot (replicate n false) = replicate n true.
Proof. unfold lnot. induction n; simpl; [reflexivity | f_equal; assumption]. Qed.

Lemma is_origin_false (row : list Z) (d : nat) (x : Z) :
  row !! d = Some x -> x <> 0 -> is_origin row = false.
Proof.
  revert d. induction row as [|y row IH]; intros [|d] H Hx; simpl in *; try discriminate.
  - injection H as ->. destruct (Z.eqb_spec x 0); [contradiction | reflexivity].
  - rewrite (IH d H Hx). apply andb_false_r.
Qed.

Lemma on_grid_done_test (env : HyperGrid) (st : list (list Z)) :
  sums_fit env -> has_cols (ndim env) st = true -> in_grid env st ->
  map (fun row => sum64 row =? 0) st = map is_origin st.
Proof.
  intros (Hh & _ & Hfit) Hc Hg. apply list_eq. intros i.
  rewrite !list_lookup_fmap. destruct (st !! i) as [row|] eqn:Hr; [|reflexivity].
  simpl. f_equal. apply sum64_zero_origin.
  - intros d x Hx. apply (Hg i row d x Hr Hx).
  - pose proof (Zsum_bound row (height env - 1)
                  (fun d x Hx => proj2 (Hg i row d x Hr Hx))) as Hb.
    rewrite (proj1 (has_cols_lookup _ _) Hc i row Hr) in Hb.
    unfold int64_max in Hfit. lia.
Qed.

Lemma length_step_post_states (env : HyperGrid) (s : StatesBatch) (acts : list Z) :
  shape_ok env s -> length acts = length (states s) ->
  length (states (step_post env s acts)) = length (states s).
Proof.
  intros Hs Hlen. destruct (step_post_wf env s acts Hs Hlen) as (_ & Hd & _).
  rewrite <- Hd. simpl. unfold step_dones.
  destruct Hs as (_ & _ & Hdl & _).
  rewrite length_lor; [exact Hdl | rewrite length_eq_scalar; lia].
Qed.

(** One forward call in which every element moves, undone by the
    backward call with the same actions. *)
Lemma backward_after_step (env : HyperGrid) (s : StatesBatch) (acts : list Z) :
  sums_fit env -> wf_batch env s -> in_grid env (states s) ->
  already_dones s = replicate (length (states s)) false ->
  length acts = length (states s) ->
  sel_allowed (lnot (already_dones s)) (masks s) acts = true ->
  Forall (fun a => a <> stop_action env) acts ->
  let s1 := step_post env s acts in
  already_dones s1 = replicate (length (states s1)) false
  /\ in_grid env (states s1)
  /\ map is_origin (states s1) = replicate (length (states s1)) false
  /\ sel_allowed (lnot (already_dones s1)) (backward_masks s1) acts = true
  /\ backward_post env s1 acts
     = with_masks env (states s) (map is_origin (states s)).
Proof.
  intros Hfit Hwf Hg Hdn Hlen Hall Hns s1.
  pose proof Hfit as (Hh & Hmax & _).
  pose proof (wf_batch_shape env s Hwf) as Hs.
  pose proof (step_post_wf env s acts Hs Hlen) as Hwf1.
  pose proof (step_post_on_grid env s acts Hmax Hwf Hg Hall) as Hg1.
  assert (step_dones env s acts = replicate (length (states s)) false) as Hd1.
  { unfold step_dones. rewrite Hdn, eq_scalar_never by exact Hns.
    rewrite Hlen. apply lor_all_false. apply length_replicate. }
  assert (length (states s1) = length (states s)) as Hl1.
  { simpl. rewrite length_move_rows; rewrite ?length_lnot, ?Hd1, ?length_replicate; lia. }
  assert (forall i row a, states s !! i = Some row -> acts !! i = Some a ->
            exists x, row !! Z.to_nat a = Some x /\ 0 <= x < height env - 1 /\ 0 <= a
                      /\ states s1 !! i
                         = Some (alter (fun x => wrap64 (x + 1)) (Z.to_nat a) row)) as Hmove.
  { intros i row a Hr Ha.
    assert (lnot (step_dones env s acts) !! i = Some true) as Hi.
    { rewrite Hd1, lnot_all_false. apply lookup_replicate_2. eapply lookup_lt_Some; eauto. }
    destruct (step_moving_element env s acts i Hwf Hall Hi a row Ha Hr) as (x & Hx & Hne & H0).
    exists x. pose proof (Hg i row _ x Hr Hx). repeat split; try assumption; try lia.
    simpl. rewrite (lookup_move_rows 1 _ acts (states s) i true a row Hi Ha Hr).
    reflexivity. }
  assert (already_dones s1 = replicate (length (states s1)) false) as Hdn1
      by (rewrite Hl1; exact Hd1).
  split; [exact Hdn1|]. split; [exact Hg1|]. split; [|split].
  - apply list_eq. intros i. rewrite list_lookup_fmap.
    destruct (states s1 !! i) as [row1|] eqn:Hr1.
    + rewrite lookup_replicate_2 by (eapply lookup_lt_Some; eauto). simpl. f_equal.
      destruct (lookup_lt_is_Some_2 (states s) i) as [row Hr].
      { rewrite <- Hl1. eapply lookup_lt_Some; eauto. }
      destruct (lookup_lt_is_Some_2 acts i) as [a Ha].
      { rewrite Hlen. eapply lookup_lt_Some; eauto. }
      destruct (Hmove i row a Hr Ha) as (x & Hx & Hxr & H0 & E).
      rewrite Hr1 in E. injection E as ->.
      apply (is_origin_false _ (Z.to_nat a) (wrap64 (x + 1))).
      * rewrite list_lookup_alter_eq, Hx. reflexivity.
      * rewrite wrap64_id by (unfold int64_min, int64_max in *; lia). lia.
    + apply lookup_ge_None in Hr1. symmetry. apply lookup_replicate_None. exact Hr1.
  - apply sel_allowed_lookup. intros i mrow a Hi Hm Ha.
    destruct (lookup_lt_is_Some_2 (states s) i) as [row Hr].
    { rewrite <- Hlen. eapply lookup_lt_Some; eauto. }
    destruct (Hmove i row a Hr Ha) as (x & Hx & Hxr & H0 & E).
    destruct (wf_batch_masks env s1 i _ Hwf1 E) as (_ & _ & Hbm).
    rewrite Hbm in Hm. injection Hm as <-.
    unfold allowed. rewrite backward_mask_row_lookup, list_lookup_alter_eq, Hx. simpl.
    rewrite wrap64_id by (unfold int64_min, int64_max in *; lia).
    destruct (Z.leb_spec 0 a); [|lia]. destruct (Z.eqb_spec (x + 1) 0); [lia | reflexivity].
  - assert (move_rows (-1) (lnot (already_dones s1)) acts (states s1) = states s) as Hback.
    { apply list_eq. intros i.
      destruct (states s !! i) as [row|] eqn:Hr.
      - destruct (lookup_lt_is_Some_2 acts i) as [a Ha].
        { rewrite Hlen. eapply lookup_lt_Some; eauto. }
        destruct (Hmove i row a Hr Ha) as (x & Hx & Hxr & H0 & E).
        assert (lnot (already_dones s1) !! i = Some true) as Hi1.
        { rewrite Hdn1, lnot_all_false. apply lookup_replicate_2.
          rewrite Hl1. eapply lookup_lt_Some; eauto. }
        rewrite (lookup_move_rows (-1) _ acts (states s1) i true a _ Hi1 Ha E).
        f_equal. apply list_eq. intros d.
        destruct (decide (d = Z.to_nat a)) as [->|Hd].
        + rewrite !list_lookup_alter_eq, Hx. simpl. f_equal.
          rewrite (wrap64_id (x + 1)) by (unfold int64_min, int64_max in *; lia).
          rewrite wrap64_id by (unfold int64_min, int64_max in *; lia). lia.
        + rewrite !list_lookup_alter_ne by congruence. reflexivity.
      - apply lookup_ge_None in Hr. apply lookup_ge_None.
        rewrite length_move_rows; rewrite ?length_lnot, ?Hdn1, ?length_replicate; lia. }
    unfold backward_post. rewrite Hback. f_equal.
    rewrite Hdn1, Hl1, lor_all_false by (rewrite length_map; reflexivity).
    destruct Hwf as (Hc & _). apply (on_grid_done_test env); assumption.
Qed.

(** A legal forward trajectory without stop actions, from a batch on the
    grid with no element done, is undone by the reversed trajectory of
    backward calls. *)
Lemma round_trip_pure (env : HyperGrid) (traj : list (list Z)) :
  sums_fit env -> never_stops env traj ->
  forall s, wf_batch env s -> in_grid env (states s) ->
    already_dones s = replicate (length (states s)) false ->
    legal env s traj ->
    blegal env (fwd env s traj) (rev traj)
    /\ bwd env (fwd env s traj) (rev traj)
       = match traj with
         | [] => s
         | _ => with_masks env (states s) (map is_origin (states s))
         end.
Proof.
  intros Hfit Hns. induction Hns as [|acts traj Hacts Hns IH];
    intros s Hwf Hg Hdn Hleg; simpl in *; [split; [exact I | reflexivity]|].
  destruct Hleg as (Hlen & Hall & Hleg).
  destruct (backward_after_step env s acts Hfit Hwf Hg Hdn Hlen Hall Hacts)
    as (Hdn1 & Hg1 & Ho1 & Hball & Hback).
  pose proof (step_post_wf env s acts (wf_batch_shape env s Hwf) Hlen) as Hwf1.
  destruct (IH (step_post env s acts) Hwf1 Hg1 Hdn1 Hleg) as [Hbl Hbw].
  assert (bwd env (fwd env (step_post env s acts) traj) (rev traj) = step_post env s acts)
    as Hs1.
  { rewrite Hbw. destruct traj; [reflexivity|].
    rewrite Ho1, <- Hdn1. symmetry. apply wf_batch_eq. exact Hwf1. }
  split.
  - apply blegal_app; [exact Hbl|]. rewrite Hs1.
    split; [|split; [exact Hball | exact I]].
    rewrite (length_step_post_states env s acts (wf_batch_shape env s Hwf) Hlen).
    exact Hlen.
  - rewrite bwd_app, Hs1. simpl. exact Hback.
Qed.

Lemma is_origin_zeros (n : nat) : is_origin (replicate n 0) = true.
Proof. unfold is_origin. induction n as [|n IH]; simpl; [reflexivity | exact IH]. Qed.

Lemma fwd_wf (env : HyperGrid) (traj : list (list Z)) :
  forall s, wf_batch env s -> legal env s traj -> wf_batch env (fwd env s traj).
Proof.
  induction traj as [|a t IH]; intros s Hwf Hleg; simpl in *; [exact Hwf|].
  destruct Hleg as (Hlen & _ & Hleg).
  apply IH; [apply step_post_wf; [apply wf_batch_shape|]; assumption | exact Hleg].
Qed.

(** C3: a trajectory of legal forward steps from the all-origin batch in
    which no action is the stop action is undone by [backward_step] with
    the same action vectors in reverse order: the batch is back at the
    all-zero origin and the last done vector returned is all true.  The
    trajectory has at least one step, and the coordinate sums of the grid
    are 64-bit integers. *)
Theorem C3_round_trip (env : HyperGrid) (traj : list (list Z)) (h h1 : heap) (c : loc) :
  sums_fit env -> never_stops env traj -> traj <> [] ->
  forward_run env traj h = (inr c, h1) ->
  exists c' ds h2 s',
    backward_steps env c (rev traj) h1 = (inr (c', ds), h2)
    /\ h2 !! c' = Some s'
    /\ states s' = zeros (n_envs env) (ndim env)
    /\ already_dones s' = replicate (n_envs env) true
    /\ last ds = Some (replicate (n_envs env) true).
Proof.
  intros Hfit Hns Hne H. pose proof Hfit as (Hh & _).
  set (st0 := zeros (n_envs env) (ndim env)).
  set (s0 := with_masks env st0 (replicate (length st0) false)).
  assert (has_cols (ndim env) st0 = true) as Hc0 by apply has_cols_replicate.
  assert (wf_batch env s0) as Hwf0
      by (apply with_masks_wf; [exact Hc0 | apply length_replicate]).
  unfold forward_run, reset in H.
  rewrite (bind_ok _ _ _ _ _ (StatesBatch_new_run env InitZeros st0 h eq_refl Hc0)) in H.
  destruct (steps_run env traj _ _ _ s0 c h1 (lookup_snoc h s0) (lookup_snoc h s0) Hwf0 H)
    as [Hleg Hc].
  destruct (round_trip_pure env traj Hfit Hns s0 Hwf0 (zeros_on_grid env _ _ Hh)
              eq_refl Hleg) as [Hbl Hbw].
  pose proof (fwd_wf env traj s0 Hwf0 Hleg) as Hwfe.
  destruct (backward_steps_run env (rev traj) h1 c _ Hc Hwfe Hbl) as (c' & h2 & E & Hc').
  assert (map is_origin st0 = replicate (n_envs env) true) as Ho.
  { unfold st0, zeros. apply list_eq. intros i. rewrite list_lookup_fmap.
    destruct (decide (i < n_envs env)%nat) as [Hi|Hi].
    - rewrite !lookup_replicate_2 by exact Hi. simpl. f_equal.
      apply is_origin_zeros.
    - rewrite !(proj1 (lookup_replicate_None _ _ _)) by lia. reflexivity. }
  assert (bwd env (fwd env s0 traj) (rev traj) = with_masks env st0 (map is_origin st0))
    as Hfin by (destruct traj; [contradiction | exact Hbw]).
  assert (last (bdones env (fwd env s0 traj) (rev traj))
          = Some (already_dones (bwd env (fwd env s0 traj) (rev traj)))) as Hlast.
  { clear -Hne. generalize (fwd env s0 traj). intros s.
    destruct traj as [|a t]; [contradiction|]. simpl rev. apply bdones_app_last. }
  exists c', (bdones env (fwd env s0 traj) (rev traj)), h2,
         (with_masks env st0 (map is_origin st0)).
  split; [exact E|]. split; [rewrite <- Hfin; exact Hc'|].
  split; [reflexivity|]. split; [exact Ho|].
  rewrite Hlast, Hfin. simpl. f_equal. exact Ho.
Qed.

(** ** The canonical index *)

(** C6 (as stated) fails: on the binary hypercube of 64 dimensions the
    state [1, 0, ..., 0] lies on the grid and its index is [- 2 ^ 63],
    which is not in [0, height ** ndim). *)
Lemma C6_counterexample :
  grid_state cube64 (1 :: replicate 63 0)
  /\ get_states_index cube64 (1 :: replicate 63 0) = inr (- 2 ^ 63)
  /\ ~ (0 <= - 2 ^ 63 < height cube64 ^ Z.of_nat (ndim cube64)).
Proof.
  split; [|split].
  - split; [reflexivity|]. intros [|d] x H; simpl in H.
    + injection H as <-. simpl. lia.
    + change (replicate 63 0 !! d = Some x) in H.
      apply lookup_replicate in H as [-> _]. simpl. lia.
  - vm_compute. reflexivity.
  - intros [H _]. vm_compute in H. apply H. reflexivity.
Qed.

Lemma pow_succ_nat (h : Z) (n : nat) : h ^ Z.of_nat (S n) = h * h ^ Z.of_nat n.
Proof. rewrite Nat2Z.inj_succ. apply Z.pow_succ_r. lia. Qed.

Lemma pow_pos_nat (h : Z) (n : nat) : 1 <= h -> 1 <= h ^ Z.of_nat n.
Proof.
  intros Hh. pose proof (Z.pow_pos_nonneg h (Z.of_nat n) ltac:(lia) ltac:(lia)). lia.
Qed.

Lemma pow_below_top (h : Z) (n : nat) :
  1 <= h -> h * h ^ Z.of_nat n <= 2 ^ 63 -> 1 <= h ^ Z.of_nat n <= 2 ^ 63 - 1.
Proof.
  intros Hh Hfit. pose proof (pow_pos_nat h n Hh) as Hp.
  destruct (decide (h = 1)) as [->|Hne].
  - rewrite Z.pow_1_l by lia. lia.
  - nia.
Qed.

Lemma radix_value_fold (h : Z) (row : list Z) (acc : Z) :
  fold_left (fun a x => a * h + x) row acc
  = acc * h ^ Z.of_nat (length row) + place_value h row.
Proof.
  revert acc. induction row as [|x r IH]; intros acc; simpl fold_left.
  - simpl. lia.
  - rewrite IH. simpl length. simpl place_value. rewrite pow_succ_nat. ring.
Qed.

Lemma radix_value_place (h : Z) (row : list Z) : radix_value h row = place_value h row.
Proof. unfold radix_value. rewrite radix_value_fold. lia. Qed.

Lemma place_value_bounds (h : Z) (row : list Z) :
  1 <= h -> (forall d x, row !! d = Some x -> 0 <= x <= h - 1) ->
  0 <= place_value h row <= h ^ Z.of_nat (length row) - 1.
Proof.
  intros Hh. induction row as [|x r IH]; intros Hg.
  - simpl. lia.
  - specialize (IH (fun d y Hy => Hg (S d) y Hy)).
    pose proof (Hg O x eq_refl) as Hx.
    pose proof (pow_pos_nat h (length r) Hh) as Hp.
    simpl length. simpl place_value. rewrite pow_succ_nat. nia.
Qed.

Lemma place_value_inj (h : Z) (row row' : list Z) :
  1 <= h -> length row = length row' ->
  (forall d x, row !! d = Some x -> 0 <= x <= h - 1) ->
  (forall d x, row' !! d = Some x -> 0 <= x <= h - 1) ->
  place_value h row = place_value h row' -> row = row'.
Proof.
  intros Hh. revert row'. induction row as [|x r IH]; intros [|y r'] Hl Hg Hg' Hv;
    simpl in Hl; try discriminate; [reflexivity|].
  injection Hl as Hl.
  pose proof (place_value_bounds h r Hh (fun d z Hz => Hg (S d) z Hz)) as Hb.
  pose proof (place_value_bounds h r' Hh (fun d z Hz => Hg' (S d) z Hz)) as Hb'.
  simpl in Hv. rewrite <- Hl in Hv, Hb'.
  pose proof (pow_pos_nat h (length r) Hh) as Hp.
  assert (x = y) as -> by nia.
  f_equal. apply IH; try assumption.
  - intros d z Hz. apply (Hg (S d) z Hz).
  - intros d z Hz. apply (Hg' (S d) z Hz).
  - lia.
Qed.

Lemma index_to_state_length (h : Z) (n : nat) (k : Z) :
  length (index_to_state h n k) = n.
Proof. revert k. induction n as [|n IH]; intros k; simpl; [reflexivity | f_equal; apply IH]. Qed.

Lemma index_to_state_ok (h : Z) (n : nat) (k : Z) :
  1 <= h -> 0 <= k < h ^ Z.of_nat n ->
  (forall d x, index_to_state h n k !! d = Some x -> 0 <= x <= h - 1)
  /\ place_value h (index_to_state h n k) = k.
Proof.
  intros Hh. revert k. induction n as [|n IH]; intros k Hk.
  - simpl in *. split; [intros d x H; destruct d; discriminate | lia].
  - rewrite pow_succ_nat in Hk. pose proof (pow_pos_nat h n Hh) as Hp.
    pose proof (Z.mod_pos_bound k (h ^ Z.of_nat n) ltac:(lia)) as Hm.
    destruct (IH (k mod h ^ Z.of_nat n) Hm) as [IHg IHv].
    pose proof (Z.div_mod k (h ^ Z.of_nat n) ltac:(lia)) as Hdm.
    assert (0 <= k / h ^ Z.of_nat n <= h - 1) as Hq.
    { split; [apply Z.div_pos; lia|].
      assert (k / h ^ Z.of_nat n < h); [|lia].
      apply Z.div_lt_upper_bound; nia. }
    split.
    + intros [|d] x H; simpl in H; [injection H as <-; exact Hq | eapply IHg; eauto].
    + simpl. rewrite index_to_state_length, IHv. lia.
Qed.

Lemma canonical_base_succ (h : Z) (n : nat) :
  map (fun e => wrap64 (h ^ Z.of_nat e)) (rev (seq 0 (S n)))
  = wrap64 (h ^ Z.of_nat n) :: map (fun e => wrap64 (h ^ Z.of_nat e)) (rev (seq 0 n)).
Proof. rewrite seq_S, rev_unit. reflexivity. Qed.

(** The products and their 64-bit sum are exact when the number of
    states is at most [2 ^ 63]. *)
Lemma weighted_sum_exact (h : Z) (row : list Z) :
  1 <= h -> h ^ Z.of_nat (length row) <= 2 ^ 63 ->
  (forall d x, row !! d = Some x -> 0 <= x <= h - 1) ->
  Zsum (zip_with (fun b x => wrap64 (b * x))
                 (map (fun e => wrap64 (h ^ Z.of_nat e)) (rev (seq 0 (length row)))) row)
  = place_value h row.
Proof.
  intros Hh. induction row as [|x r IH]; intros Hfit Hg; [reflexivity|].
  simpl length in *. rewrite canonical_base_succ. simpl zip_with. simpl Zsum.
  rewrite pow_succ_nat in Hfit. pose proof (pow_below_top h (length r) Hh Hfit) as Hp.
  pose proof (Hg O x eq_refl) as Hx.
  rewrite IH; [| lia | intros d y Hy; apply (Hg (S d) y Hy)].
  rewrite (wrap64_id (h ^ Z.of_nat (length r)))
    by (unfold int64_min, int64_max; lia).
  rewrite wrap64_id by (unfold int64_min, int64_max; nia).
  simpl place_value. lia.
Qed.

Lemma canonical_base_lookup (env : HyperGrid) (d : nat) :
  index_fits env -> (d < ndim env)%nat ->
  canonical_base env !! d = Some (height env ^ Z.of_nat (ndim env - 1 - d)).
Proof.
  intros [Hh Hfit]. unfold canonical_base. revert d Hfit.
  induction (ndim env) as [|n IH]; intros d Hfit Hd; [lia|].
  rewrite canonical_base_succ. rewrite pow_succ_nat in Hfit.
  pose proof (pow_below_top (height env) n Hh Hfit) as Hp.
  destruct d as [|d]; simpl lookup.
  - rewrite wrap64_id by (unfold int64_min, int64_max; lia).
    do 2 f_equal. lia.
  - rewrite IH by lia. do 2 f_equal. lia.
Qed.

Lemma get_states_index_exact (env : HyperGrid) (row : list Z) :
  index_fits env -> grid_state env row ->
  get_states_index env row = inr (place_value (height env) row).
Proof.
  intros [Hh Hfit] [Hlen Hg]. unfold get_states_index, broadcast_mul, canonical_base.
  rewrite length_map, length_rev, length_seq, Hlen, Nat.eqb_refl. simpl rbind.
  rewrite sum64_wrap, <- Hlen, weighted_sum_exact by (rewrite ?Hlen; assumption).
  pose proof (place_value_bounds (height env) row Hh Hg) as Hb. rewrite Hlen in Hb.
  rewrite wrap64_id by (unfold int64_min, int64_max; lia). reflexivity.
Qed.

(** C6 (amended): when the number of states [height ** ndim] is at most
    [2 ^ 63], [get_states_indices] reads a state vector as a number in
    base [height], most significant coordinate first (coordinate [d] has
    weight [height ** (ndim - 1 - d)]); for a state with every coordinate
    in [0, height - 1] the index lies in [0, height ** ndim), two such
    states with the same index are equal, and every number of that range
    is the index of such a state. *)
Theorem C6_canonical_index (env : HyperGrid) :
  index_fits env ->
  (forall d, (d < ndim env)%nat ->
     canonical_base env !! d = Some (height env ^ Z.of_nat (ndim env - 1 - d)))
  /\ (forall row, grid_state env row ->
        get_states_index env row = inr (radix_value (height env) row)
        /\ 0 <= radix_value (height env) row < height env ^ Z.of_nat (ndim env))
  /\ (forall row row', grid_state env row -> grid_state env row' ->
        get_states_index env row = get_states_index env row' -> row = row')
  /\ (forall k, 0 <= k < height env ^ Z.of_nat (ndim env) ->
        grid_state env (index_to_state (height env) (ndim env) k)
        /\ get_states_index env (index_to_state (height env) (ndim env) k) = inr k).
Proof.
  intros Hfit. pose proof Hfit as [Hh Hpow]. split; [|split; [|split]].
  - intros d Hd. apply canonical_base_lookup; assumption.
  - intros row Hrow. rewrite radix_value_place. split.
    + apply get_states_index_exact; assumption.
    + destruct Hrow as [Hlen Hg].
      pose proof (place_value_bounds (height env) row Hh Hg) as Hb.
      rewrite Hlen in Hb. lia.
  - intros row row' Hrow Hrow' E.
    rewrite (get_states_index_exact env row Hfit Hrow),
            (get_states_index_exact env row' Hfit Hrow') in E.
    injection E as E. destruct Hrow as [Hlen Hg], Hrow' as [Hlen' Hg'].
    apply (place_value_inj (height env)); try assumption. congruence.
  - intros k Hk.
    destruct (index_to_state_ok (height env) (ndim env) k Hh Hk) as [Hg Hv].
    assert (grid_state env (index_to_state (height env) (ndim env) k)) as Hgs
        by (split; [apply index_to_state_length | exact Hg]).
    split; [exact Hgs|].
    rewrite (get_states_index_exact env _ Hfit Hgs), Hv. reflexivity.
Qed.

(** ** The default reward *)

Lemma prod_bool_fold_zero (bs : list bool) :
  fold_left (fun acc (b : bool) => wrap64 (acc * (if b then 1 else 0))) bs 0 = 0.
Proof. induction bs as [|b bs IH]; simpl; [reflexivity|]. exact IH. Qed.

(** A product of booleans is 1 when all of them hold and 0 otherwise. *)
Lemma prod_bool_all (bs : list bool) :
  prod_bool bs = indicator (forallb (fun b => b) bs).
Proof.
  unfold prod_bool. induction bs as [|b bs IH]; simpl; [reflexivity|].
  destruct b; simpl.
  - exact IH.
  - apply prod_bool_fold_zero.
Qed.

Lemma forallb_map {A B : Type} (f : A -> B) (p : B -> bool) (l : list A) :
  forallb p (map f l) = forallb (fun x => p (f x)) l.
Proof. induction l as [|x l IH]; simpl; [reflexivity | rewrite IH; reflexivity]. Qed.

(** The default reward in any arithmetic: the two products of booleans
    are the indicators that every coordinate passes the tests. *)
Lemma reward_row_default (ops : FloatOps) (env : HyperGrid) (row : list Z) :
  reward_cos env = false ->
  reward_row ops env row =
    fadd ops
      (fadd ops (of_float ops (R0 env))
         (fmul ops
            (of_int ops
               (indicator
                  (forallb (fun x => flt ops (of_float ops (1 # 4)) (ax ops env x)) row)))
            (of_float ops (R1 env))))
      (fmul ops
         (of_int ops
            (indicator
               (forallb (fun x => flt ops (of_float ops (3 # 10)) (ax ops env x)
                                  && flt ops (ax ops env x) (of_float ops (4 # 10)))
                        row)))
         (of_float ops (R2 env))).
Proof.
  intros Hcos. unfold reward_row. rewrite Hcos. simpl negb. cbv iota.
  rewrite !prod_bool_all, !map_map, !forallb_map. reflexivity.
Qed.

(** A product of brackets over numbers is the indicator that all of the
    conditions hold. *)
Lemma Qprod_brackets {A : Type} (p : A -> bool) (l : list A) :
  Qeq (Qprod (map (fun x => bracket (p x)) l)) (inject_Z (indicator (forallb p l))).
Proof.
  unfold Qprod. induction l as [|x l IH]; [reflexivity|].
  cbn [map fold_right forallb]. rewrite IH. destruct (p x); cbn [bracket andb].
  - apply Qmult_1_l.
  - rewrite Qmult_0_l. reflexivity.
Qed.

(** C7 (amended): with [reward_cos] false, the reward of a state is
    [R0 + p1 * R1 + p2 * R2] computed in single precision, the float type
    of the tensors: [ax] is the single-precision result of
    [|x / (height - 1) - 0.5|] on the coordinate and on [height - 1]
    rounded to single precision, [p1] is 1 if every coordinate has
    [0.25 < ax] and 0 otherwise, [p2] is 1 if every coordinate has
    [0.3 < ax] and [ax < 0.4] and 0 otherwise, the thresholds and [R0],
    [R1], [R2] being rounded to single precision and the tests made on the
    rounded values.  Computed in exact arithmetic, for [height] other
    than 1, the same code gives the formula over numbers,
    [R0 + R1 * prod [ax > 0.25] + R2 * prod [0.3 < ax < 0.4]].  For
    ndim=2, height=3, R0=0.1, R1=0.5, R2=2.0 the state [2,2] has
    [ax = (0.5, 0.5)] and reward 0.6, over numbers and, as the single
    nearest 0.6, in single precision. *)
Theorem C7_default_reward :
  (forall cos exp c (env : HyperGrid) (row : list Z),
      reward_cos env = false ->
      let lit q := to_single (double_of_Q q) in
      let long z := binary_normalize 24 128 z 0 false in
      let axf x :=
        SFabs (SFsub 24 128 (SFdiv 24 128 (long x) (long (height env - 1)))
                            (lit (1 # 2))) in
      reward_row (single_ops cos exp c) env row =
        SFadd 24 128
          (SFadd 24 128 (lit (R0 env))
             (SFmul 24 128
                (long (indicator (forallb (fun x => SFltb (lit (1 # 4)) (axf x)) row)))
                (lit (R1 env))))
          (SFmul 24 128
             (long (indicator (forallb (fun x => SFltb (lit (3 # 10)) (axf x)
                                                 && SFltb (axf x) (lit (4 # 10))) row)))
             (lit (R2 env))))
  /\ (forall cos exp c (env : HyperGrid) (row : list Z),
        reward_cos env = false -> height env <> 1 ->
        Qeq (reward_row (exact_ops cos exp c) env row) (reward_as_stated env row))
  /\ (Qeq (ax_as_stated demo_env 2) (1 # 2)
      /\ Qeq (reward_as_stated demo_env [2; 2]) (6 # 10))
  /\ (forall cos exp c,
        map (ax (single_ops cos exp c) demo_env) [2; 2]
        = [to_single (double_of_Q (1 # 2)); to_single (double_of_Q (1 # 2))]
        /\ reward (single_ops cos exp c) demo_env [[2; 2]]
           = [to_single (double_of_Q (6 # 10))]).
Proof.
  split; [|split; [|split]].
  - intros cos exp c env row Hcos lit long axf.
    rewrite (reward_row_default (single_ops cos exp c) env row Hcos). reflexivity.
  - intros cos exp c env row Hcos _.
    rewrite (reward_row_default (exact_ops cos exp c) env row Hcos).
    unfold reward_as_stated. rewrite !Qprod_brackets.
    change (forallb (fun x => flt (exact_ops cos exp c) (of_float (exact_ops cos exp c) (1 # 4))
                                  (ax (exact_ops cos exp c) env x)) row)
      with (forallb (fun x => Qltb (1 # 4) (ax_as_stated env x)) row).
    change (forallb (fun x => flt (exact_ops cos exp c) (of_float (exact_ops cos exp c) (3 # 10))
                                  (ax (exact_ops cos exp c) env x)
                              && flt (exact_ops cos exp c) (ax (exact_ops cos exp c) env x)
                                     (of_float (exact_ops cos exp c) (4 # 10))) row)
      with (forallb (fun x => Qltb (3 # 10) (ax_as_stated env x)
                              && Qltb (ax_as_stated env x) (4 # 10)) row).
    cbn [fadd fmul of_int of_float exact_ops F].
    generalize (inject_Z (indicator (forallb (fun x => Qltb (1 # 4) (ax_as_stated env x)) row))).
    generalize (inject_Z (indicator (forallb (fun x => Qltb (3 # 10) (ax_as_stated env x)
                                       && Qltb (ax_as_stated env x) (4 # 10)) row))).
    intros p2 p1. ring.
  - split; vm_compute; reflexivity.
  - intros cos exp c. split; vm_compute; reflexivity.
Qed.

(** C7 (as stated) fails: on a grid of height 11 the state [9, 9] has
    [|9 / 10 - 0.5| = 0.4], which is not below 0.4, so the formula over
    numbers gives no [R2] bonus and the reward 0.6.  In single precision
    [9 / 10 - 0.5] is below the single nearest 0.4: the code gives the
    bonus and returns the single nearest 2.6. *)
Lemma C7_counterexample :
  let ops := single_ops (fun x => x) (fun x => x) S754_nan in
  reward_cos grid11 = false
  /\ Qeq (ax_as_stated grid11 9) (4 # 10)
  /\ Qeq (reward_as_stated grid11 [9; 9]) (6 # 10)
  /\ flt ops (ax ops grid11 9) (of_float ops (4 # 10)) = true
  /\ reward ops grid11 [[9; 9]] = [of_float ops (26 # 10)]
  /\ reward ops grid11 [[9; 9]] <> [of_float ops (reward_as_stated grid11 [9; 9])].
Proof.
  intros ops. split; [reflexivity|].
  split; [vm_compute; reflexivity|]. split; [vm_compute; reflexivity|].
  split; [vm_compute; reflexivity|]. split; [vm_compute; reflexivity|].
  vm_compute. discriminate.
Qed.

(** ** The theorems at concrete inputs *)

Lemma forallb_lookup {A : Type} (p : A -> bool) (l : list A) :
  forallb p l = true -> forall i x, l !! i = Some x -> p x = true.
Proof.
  induction l as [|y l IH]; simpl; intros H [|i] x Hx; try discriminate;
    apply andb_true_iff in H as [H1 H2].
  - simpl in Hx. injection Hx as <-. exact H1.
  - apply (IH H2 i x Hx).
Qed.

Lemma in_grid_b_sound (env : HyperGrid) (st : list (list Z)) :
  in_grid_b env st = true -> in_grid env st.
Proof.
  intros H i row d x Hr Hx. unfold in_grid_b in H.
  pose proof (forallb_lookup _ _ (forallb_lookup _ _ H i row Hr) d x Hx) as Hb.
  simpl in Hb. apply andb_true_iff in Hb as [H1 H2].
  apply Z.leb_le in H1. apply Z.leb_le in H2. lia.
Qed.

Lemma sample_batch_wf : wf_batch demo_env sample_batch.
Proof. repeat split. Qed.

Lemma sample_batch_shape : shape_ok demo_env sample_batch.
Proof. apply wf_batch_shape, sample_batch_wf. Qed.

Lemma demo_sums_fit : sums_fit demo_env.
Proof. unfold sums_fit, int64_max. simpl. lia. Qed.

Lemma C2_witness :
  let env := demo_env in
  let h := [sample_batch] in
  let l := 0%nat in
  let s := sample_batch in
  h !! l = Some s /\ shape_ok env s
  /\ (forall acts e h', step env l acts h = (inl e, h') -> h' = h)
  /\ (forall acts r h', backward_step env l acts h = (r, h') ->
        take (length h) h' = h /\ h' !! l = Some s)
  /\ (forall acts, length acts = length (states s) ->
        ((exists e, fst (step env l acts h) = inl e /\ InvalidAction e)
         <-> refused (already_dones s) (masks s) acts)
        /\ ((exists e, fst (backward_step env l acts h) = inl e /\ InvalidAction e)
            <-> refused (already_dones s) (backward_masks s) acts)
        /\ (typed_actions (already_dones s) (masks s) acts ->
            (fst (step env l acts h) = inl ValueError
             <-> masked_out (already_dones s) (masks s) acts))
        /\ (typed_actions (already_dones s) (backward_masks s) acts ->
            (fst (backward_step env l acts h) = inl ValueError
             <-> masked_out (already_dones s) (backward_masks s) acts))).
Proof.
  intros env h l s.
  split; [reflexivity|]. split; [exact sample_batch_shape|].
  exact (C2_invalid_action_atomic env h l s eq_refl sample_batch_shape).
Defined.

Lemma C3_witness :
  let env := demo_env in
  let traj := sample_trajectory in
  let h := @nil StatesBatch in
  let c := 2%nat in
  let h1 := snd (forward_run demo_env sample_trajectory []) in
  sums_fit env /\ never_stops env traj /\ traj <> []
  /\ forward_run env traj h = (inr c, h1)
  /\ exists c' ds h2 s',
       backward_steps env c (rev traj) h1 = (inr (c', ds), h2)
       /\ h2 !! c' = Some s'
       /\ states s' = zeros (n_envs env) (ndim env)
       /\ already_dones s' = replicate (n_envs env) true
       /\ last ds = Some (replicate (n_envs env) true).
Proof.
  intros env traj h c h1.
  assert (never_stops env traj) as Hns
      by (repeat (constructor; try (vm_compute; discriminate))).
  assert (traj <> []) as Hne by discriminate.
  assert (forward_run env traj h = (inr c, h1)) as Hrun by (vm_compute; reflexivity).
  split; [exact demo_sums_fit|]. split; [exact Hns|]. split; [exact Hne|].
  split; [exact Hrun|].
  exact (C3_round_trip env traj h h1 c demo_sums_fit Hns Hne Hrun).
Defined.

Lemma C4_witness :
  let env := demo_env in
  let h := [sample_batch] in
  let l := 0%nat in
  let s := sample_batch in
  let acts := [1; 2] in
  h !! l = Some s /\ shape_ok env s /\ length acts = length (states s)
  /\ (forall acts',
        length acts' = length acts ->
        (forall i, already_dones s !! i = Some false -> acts' !! i = acts !! i) ->
        step env l acts' h = step env l acts h
        /\ backward_step env l acts' h = backward_step env l acts h)
  /\ (forall i row, already_dones s !! i = Some true -> states s !! i = Some row ->
        (forall c dones h', step env l acts h = (inr (c, dones), h') ->
           dones !! i = Some true
           /\ exists s' sc, h' !! l = Some s' /\ h' !! c = Some sc
                /\ states s' !! i = Some row /\ already_dones s' !! i = Some true
                /\ states sc !! i = Some row /\ already_dones sc !! i = Some true)
        /\ (forall c dones h', backward_step env l acts h = (inr (c, dones), h') ->
              dones !! i = Some true
              /\ exists sc, h' !! c = Some sc
                   /\ states sc !! i = Some row /\ already_dones sc !! i = Some true)).
Proof.
  intros env h l s acts.
  split; [reflexivity|]. split; [exact sample_batch_shape|]. split; [reflexivity|].
  exact (C4_done_elements_frame env h l s acts eq_refl sample_batch_shape eq_refl).
Defined.

Lemma C5_witness :
  let env := demo_env in
  let h := [sample_batch] in
  let l := 0%nat in
  let s := sample_batch in
  let acts := [1; 2] in
  let r := (1%nat, [false; true]) in
  let h' := snd (step demo_env 0 [1; 2] [sample_batch]) in
  int64_min <= height env - 1 <= int64_max
  /\ h !! l = Some s /\ wf_batch env s /\ in_grid env (states s)
  /\ step env l acts h = (inr r, h')
  /\ exists s' sc,
       h' !! l = Some s' /\ h' !! fst r = Some sc
       /\ wf_batch env s' /\ in_grid env (states s')
       /\ mask_shapes env s' /\ masks_as_stated env s'
       /\ wf_batch env sc /\ in_grid env (states sc)
       /\ mask_shapes env sc /\ masks_as_stated env sc.
Proof.
  intros env h l s acts r h'.
  assert (int64_min <= height env - 1 <= int64_max) as Hfit
      by (unfold int64_min, int64_max; simpl; lia).
  assert (in_grid env (states s)) as Hg by (apply in_grid_b_sound; reflexivity).
  assert (step env l acts h = (inr r, h')) as Hrun by (vm_compute; reflexivity).
  split; [exact Hfit|]. split; [reflexivity|]. split; [exact sample_batch_wf|].
  split; [exact Hg|]. split; [exact Hrun|].
  exact (proj1 (proj2 (C5_masks_function_of_states env Hfit))
           h l s acts r h' eq_refl sample_batch_wf Hg Hrun).
Defined.

Lemma C6_witness :
  let env := demo_env in
  index_fits env
  /\ (forall d, (d < ndim env)%nat ->
        canonical_base env !! d = Some (height env ^ Z.of_nat (ndim env - 1 - d)))
  /\ (forall row, grid_state env row ->
        get_states_index env row = inr (radix_value (height env) row)
        /\ 0 <= radix_value (height env) row < height env ^ Z.of_nat (ndim env))
  /\ (forall row row', grid_state env row -> grid_state env row' ->
        get_states_index env row = get_states_index env row' -> row = row')
  /\ (forall k, 0 <= k < height env ^ Z.of_nat (ndim env) ->
        grid_state env (index_to_state (height env) (ndim env) k)
        /\ get_states_index env (index_to_state (height env) (ndim env) k) = inr k).
Proof.
  intros env.
  assert (index_fits env) as Hfit by (unfold index_fits; simpl; lia).
  split; [exact Hfit|].
  exact (C6_canonical_index env Hfit).
Defined.

Lemma C7_witness :
  let cos := fun x : Q => x in
  let exp := fun x : Q => x in
  let env := demo_env in
  let row := [2; 1] in
  reward_cos env = false /\ height env <> 1
  /\ Qeq (reward_row (exact_ops cos exp 0%Q) env row) (reward_as_stated env row).
Proof.
  intros cos exp env row.
  assert (height env <> 1) as Hh by discriminate.
  split; [reflexivity|]. split; [exact Hh|].
  exact (proj1 (proj2 C7_default_reward) cos exp 0%Q env row eq_refl Hh).
Defined.

Lemma C8_witness :
  let env := demo_env in
  let h := [sample_batch] in
  let l := 0%nat in
  let s := sample_batch in
  let acts := [1; 2] in
  let r := (1%nat, [false; true]) in
  let h' := snd (step demo_env 0 [1; 2] [sample_batch]) in
  height env - 1 <= int64_max /\ h !! l = Some s /\ wf_batch env s
  /\ in_grid env (states s)
  /\ step env l acts h = (inr r, h')
  /\ (step env l acts h = (inr r, h') ->
      exists s' sc, h' !! l = Some s' /\ in_grid env (states s')
                    /\ h' !! fst r = Some sc /\ in_grid env (states sc))
  /\ (backward_step env l acts h = (inr r, h') ->
      exists sc, h' !! fst r = Some sc /\ in_grid env (states sc)).
Proof.
  intros env h l s acts r h'.
  assert (height env - 1 <= int64_max) as H1 by (unfold int64_max; simpl; lia).
  assert (in_grid env (states s)) as H2 by (apply in_grid_b_sound; reflexivity).
  split; [exact H1|]. split; [reflexivity|]. split; [exact sample_batch_wf|].
  split; [exact H2|]. split; [vm_compute; reflexivity|].
  exact (C8_states_stay_on_grid env h l s acts r h' H1 eq_refl sample_batch_wf H2).
Defined.

Lemma C9_witness :
  let env := demo_env in
  let h := [sample_batch] in
  let l := 0%nat in
  let s := sample_batch in
  h !! l = Some s
  /\ (forall i row, states s !! i = Some row ->
        (forall d x, row !! d = Some x -> 0 <= x) /\ Zsum row < 2 ^ 64)
  /\ exists s', update_the_dones l h = (inr tt, <[l := s']> h)
                /\ states s' = states s
                /\ length (already_dones s') = length (states s)
                /\ forall i row, states s !! i = Some row ->
                     already_dones s' !! i = Some (is_origin row).
Proof.
  intros env h l s.
  assert (forall i row, states s !! i = Some row ->
            (forall d x, row !! d = Some x -> 0 <= x) /\ Zsum row < 2 ^ 64) as Hrows.
  { apply (proj1 (proj2 (C9_update_the_dones env))).
    - simpl. lia.
    - simpl. lia.
    - reflexivity.
    - apply in_grid_b_sound. reflexivity. }
  split; [reflexivity|]. split; [exact Hrows|].
  exact (proj1 (C9_update_the_dones env) h l s eq_refl Hrows).
Defined.

Lemma C10_witness :
  let env := demo_env in
  let st := [[5; 0]] in
  let acts := [0] in
  let h := @nil StatesBatch in
  let i := 0%nat in
  let d := 0%nat in
  let row := [5; 0] in
  let c := 5 in
  1 <= height env /\ has_cols (ndim env) st = true
  /\ st !! i = Some row /\ row !! d = Some c
  /\ height env - 1 < c /\ c <= int64_max
  /\ length acts = length st /\ acts !! i = Some (Z.of_nat d)
  /\ (forall j a r, j <> i -> acts !! j = Some a -> st !! j = Some r ->
                    allowed (forward_mask_row env r) a = true)
  /\ exists l h1 s,
       StatesBatch_new env (InitStates st) h = (inr l, h1)
       /\ h1 !! l = Some s /\ states s = st
       /\ (exists fm, masks s !! i = Some fm /\ fm !! d = Some true
             /\ forall d' x, row !! d' = Some x ->
                  (fm !! d' = Some false <-> x = height env - 1))
       /\ exists r h2 s' row',
            step env l acts h1 = (inr r, h2)
            /\ h2 !! l = Some s' /\ states s' !! i = Some row'
            /\ row' !! d = Some (wrap64 (c + 1))
            /\ ~ (0 <= wrap64 (c + 1) <= height env - 1)
            /\ (c < int64_max -> wrap64 (c + 1) = c + 1).
Proof.
  intros env st acts h i d row c.
  assert (1 <= height env) as H1 by (simpl; lia).
  assert (height env - 1 < c) as H2 by (simpl; lia).
  assert (c <= int64_max) as H3 by (unfold int64_max; simpl; lia).
  assert (forall j a r, j <> i -> acts !! j = Some a -> st !! j = Some r ->
                        allowed (forward_mask_row env r) a = true) as H4.
  { intros [|j] a r Hj Ha; [contradiction | discriminate]. }
  split; [exact H1|]. split; [reflexivity|]. split; [reflexivity|].
  split; [reflexivity|]. split; [exact H2|]. split; [exact H3|].
  split; [reflexivity|]. split; [reflexivity|]. split; [exact H4|].
  exact (C10_increment_beyond_bound env st acts h i d row c
           H1 eq_refl eq_refl eq_refl H2 H3 eq_refl eq_refl H4).
Defined.

(** * Further properties of the environment *)

(** ** Errors other than a refused action *)

(** X1: an action vector whose length is not the batch size is refused by
    the first indexing with the done flags: [step] raises [IndexError]
    and leaves the heap as it was; [backward_step] raises [IndexError]
    after its deep copy, the batch it was given being untouched. *)
Theorem X1_wrong_length_index_error (env : HyperGrid) (h : heap) (l : loc)
        (s : StatesBatch) (acts : list Z) :
  h !! l = Some s -> shape_ok env s -> length acts <> length (states s) ->
  step env l acts h = (inl IndexError, h)
  /\ backward_step env l acts h = (inl IndexError, h ++ [s]).
Proof.
  intros Hl Hs Hlen. split.
  - apply (step_wrong_length env h l s acts); assumption.
  - apply (backward_step_wrong_length env h l s acts); assumption.
Qed.

Lemma sel_in_range_false_ex {A : Type} (dn : list bool) (rows : list (list A))
      (acts : list Z) :
  sel_in_range (lnot dn) rows acts = false ->
  exists i a row, dn !! i = Some false /\ acts !! i = Some a /\ rows !! i = Some row
                  /\ in_range (length row) a = false.
Proof.
  revert rows acts. induction dn as [|d dn IH]; intros [|row rows] [|a acts]; simpl;
    try discriminate.
  intros H. apply andb_false_iff in H as [H|H].
  - apply orb_false_iff in H as [Hd Ha]. exists O, a, row.
    destruct d; [discriminate|]. repeat split; assumption.
  - destruct (IH _ _ H) as (i & x & r & H1 & H2 & H3 & H4).
    exists (S i), x, r. repeat split; assumption.
Qed.

(** Some not-done element has an action outside [0, cols). *)
Lemma sel_in_range_false_iff {A : Type} (dn : list bool) (rows : list (list A))
      (acts : list Z) (cols : nat) :
  length rows = length dn -> has_cols cols rows = true ->
  (sel_in_range (lnot dn) rows acts = false <->
   exists i a, dn !! i = Some false /\ acts !! i = Some a
               /\ ~ (0 <= a < Z.of_nat cols)).
Proof.
  intros Hlen Hc. split.
  - intros H. apply sel_in_range_false_ex in H as (i & a & row & Hd & Ha & Hr & Hin).
    exists i, a. split; [exact Hd|]. split; [exact Ha|].
    rewrite (proj1 (has_cols_lookup _ _) Hc i row Hr) in Hin.
    unfold in_range in Hin. intros [H0 H1].
    apply andb_false_iff in Hin as [Hin|Hin];
      [apply Z.leb_gt in Hin | apply Z.ltb_ge in Hin]; lia.
  - intros (i & a & Hd & Ha & Hout).
    destruct (sel_in_range (lnot dn) rows acts) eqn:E; [|reflexivity].
    destruct (lookup_lt_is_Some_2 rows i) as [row Hr].
    { rewrite Hlen. eapply lookup_lt_Some; eauto. }
    pose proof (proj1 (sel_in_range_typed dn rows acts) E i a row Hd Ha Hr) as Ht.
    rewrite (proj1 (has_cols_lookup _ _) Hc i row Hr) in Ht. contradiction.
Qed.

(** X2: an action outside the mask is not a [ValueError]: [step] raises
    the [RuntimeError] of [torch.gather] exactly when some element that
    is not done has an action outside [0, n_actions), and [backward_step]
    exactly when one has an action outside [0, ndim), whatever the masks
    say about the other elements. *)
Theorem X2_out_of_range_runtime_error (env : HyperGrid) (h : heap) (l : loc)
        (s : StatesBatch) (acts : list Z) :
  h !! l = Some s -> shape_ok env s -> length acts = length (states s) ->
  (fst (step env l acts h) = inl RuntimeError <->
   exists i a, already_dones s !! i = Some false /\ acts !! i = Some a
               /\ ~ (0 <= a < Z.of_nat (n_actions env)))
  /\ (fst (backward_step env l acts h) = inl RuntimeError <->
      exists i a, already_dones s !! i = Some false /\ acts !! i = Some a
                  /\ ~ (0 <= a < Z.of_nat (ndim env))).
Proof.
  intros Hl Hs Hlen. pose proof Hs as (Hm & Hb & Hd & _ & Hcm & Hcb). split.
  - rewrite <- (sel_in_range_false_iff (already_dones s) (masks s) acts (n_actions env))
      by (assumption || lia).
    rewrite (step_run env h l s acts Hl Hs Hlen).
    destruct (sel_in_range _ _ _); [|split; reflexivity].
    destruct (sel_allowed _ _ _); simpl; split; discriminate.
  - rewrite <- (sel_in_range_false_iff (already_dones s) (backward_masks s) acts (ndim env))
      by (assumption || lia).
    rewrite (backward_step_run env h l s acts Hl Hs Hlen).
    destruct (sel_in_range _ _ _); [|split; reflexivity].
    destruct (sel_allowed _ _ _); simpl; split; discriminate.
Qed.

(** ** Batches in which every element is done, and the stop action *)

Lemma lor_all_true (n : nat) (b : list bool) :
  length b = n -> lor (replicate n true) b = replicate n true.
Proof.
  revert b. induction n as [|n IH]; intros [|x b] H; simpl in *; try discriminate;
    [reflexivity|].
  unfold lor in *. simpl. f_equal. apply IH. lia.
Qed.

Lemma lnot_all_true (n : nat) : lnot (replicate n true) = replicate n false.
Proof. unfold lnot. induction n; simpl; [reflexivity | f_equal; assumption]. Qed.

Lemma move_rows_none (delta : Z) (acts : list Z) (rows : list (list Z)) :
  length acts = length rows ->
  move_rows delta (replicate (length rows) false) acts rows = rows.
Proof.
  revert acts. induction rows as [|r rows IH]; intros [|a acts] H; simpl in *;
    try discriminate; [reflexivity|].
  f_equal. apply IH. lia.
Qed.

Lemma sel_none_in_range {A : Type} (n : nat) (rows : list (list A)) (acts : list Z) :
  sel_in_range (replicate n false) rows acts = true.
Proof.
  apply sel_in_range_lookup. intros i row a H.
  apply lookup_replicate in H as [H _]. discriminate.
Qed.

Lemma sel_none_allowed (n : nat) (msk : list (list bool)) (acts : list Z) :
  sel_allowed (replicate n false) msk acts = true.
Proof.
  apply sel_allowed_lookup. intros i row a H.
  apply lookup_replicate in H as [H _]. discriminate.
Qed.

(** X5: once every element of a batch is done, [step] and
    [backward_step] accept any action vector of the batch size and change
    nothing: the environment's batch is what it was and the returned
    batch is equal to it. *)
Theorem X5_all_done_fixed_point (env : HyperGrid) (h : heap) (l : loc)
        (s : StatesBatch) (acts : list Z) :
  h !! l = Some s -> wf_batch env s ->
  already_dones s = replicate (length (states s)) true ->
  length acts = length (states s) ->
  step env l acts h = (inr (length h, already_dones s), h ++ [s])
  /\ backward_step env l acts h = (inr (length h, already_dones s), h ++ [s]).
Proof.
  intros Hl Hwf Hdn Hlen. pose proof (wf_batch_shape env s Hwf) as Hs.
  assert (step_post env s acts = s) as Hp.
  { unfold step_post, step_dones. rewrite Hdn.
    rewrite lor_all_true by (rewrite length_eq_scalar; exact Hlen).
    rewrite lnot_all_true, move_rows_none by exact Hlen.
    rewrite <- Hdn. symmetry. apply wf_batch_eq. exact Hwf. }
  assert (backward_post env s acts = s) as Hb.
  { unfold backward_post. rewrite Hdn.
    rewrite lnot_all_true, move_rows_none by exact Hlen.
    rewrite lor_all_true by (rewrite length_map; reflexivity).
    rewrite <- Hdn. symmetry. apply wf_batch_eq. exact Hwf. }
  split.
  - rewrite (step_run env h l s acts Hl Hs Hlen), Hp. unfold step_dones.
    rewrite Hdn, lnot_all_true, sel_none_in_range, sel_none_allowed.
    rewrite lor_all_true by (rewrite length_eq_scalar; exact Hlen).
    rewrite (list_insert_id h l s Hl). reflexivity.
  - rewrite (backward_step_run env h l s acts Hl Hs Hlen), Hb.
    rewrite Hdn, lnot_all_true, sel_none_in_range, sel_none_allowed. reflexivity.
Qed.

(** X6: the stop action is never refused.  On a batch that satisfies the
    batch invariant, a [step] in which every element that is not done
    chooses the stop action succeeds, moves no element, and returns a done
    vector that is all true. *)
Theorem X6_stop_always_accepted (env : HyperGrid) (h : heap) (l : loc)
        (s : StatesBatch) (acts : list Z) :
  h !! l = Some s -> wf_batch env s -> length acts = length (states s) ->
  (forall i a, already_dones s !! i = Some false -> acts !! i = Some a ->
               a = stop_action env) ->
  let s' := set_already_dones (replicate (length (states s)) true) s in
  step env l acts h
  = (inr (length h, replicate (length (states s)) true), <[l := s']> h ++ [s']).
Proof.
  intros Hl Hwf Hlen Hstop s'. pose proof (wf_batch_shape env s Hwf) as Hs.
  pose proof Hs as (_ & _ & Hd & _).
  assert (sel_allowed (lnot (already_dones s)) (masks s) acts = true) as Hall.
  { apply sel_allowed_lookup. intros i mrow a Hi Hm Ha.
    apply lnot_lookup_true in Hi. rewrite (Hstop i a Hi Ha).
    destruct (lookup_lt_is_Some_2 (states s) i) as [row Hr].
    { rewrite <- Hd. eapply lookup_lt_Some; eauto. }
    destruct (wf_batch_masks env s i row Hwf Hr) as (Hrl & Hfm & _).
    rewrite Hfm in Hm. injection Hm as <-.
    unfold allowed, stop_action, n_actions.
    replace (Z.to_nat (Z.of_nat (ndim env + 1) - 1)) with (ndim env) by lia.
    rewrite forward_mask_row_lookup.
    rewrite (proj2 (lookup_ge_None row (ndim env))) by lia.
    rewrite <- Hrl, Nat.eqb_refl.
    destruct (Z.leb_spec 0 (Z.of_nat (length row + 1) - 1)); [reflexivity | lia]. }
  assert (sel_in_range (lnot (already_dones s)) (masks s) acts = true) as Hin.
  { apply sel_in_range_lookup. intros j mrow a Hj Hm Haj. apply allowed_in_range.
    apply (proj1 (sel_allowed_lookup _ _ _) Hall j mrow a Hj Hm Haj). }
  assert (step_dones env s acts = replicate (length (states s)) true) as Hdn.
  { apply list_eq. intros i. unfold step_dones.
    destruct (already_dones s !! i) as [d|] eqn:Ed.
    - destruct (lookup_lt_is_Some_2 acts i) as [a Ha].
      { rewrite Hlen, <- Hd. eapply lookup_lt_Some; eauto. }
      rewrite (lookup_lor _ _ i d (a =? stop_action env) Ed)
        by (rewrite lookup_eq_scalar, Ha; reflexivity).
      rewrite lookup_replicate_2 by (rewrite <- Hd; eapply lookup_lt_Some; eauto).
      f_equal. destruct d; [reflexivity|].
      rewrite (Hstop i a Ed Ha). apply Z.eqb_refl.
    - apply lookup_ge_None in Ed.
      rewrite (proj1 (lookup_replicate_None _ _ _)) by lia.
      apply lookup_ge_None. unfold lor. rewrite length_zip_with. lia. }
  assert (step_post env s acts = s') as Hp.
  { unfold step_post. rewrite Hdn, lnot_all_true, move_rows_none by exact Hlen.
    unfold s', set_already_dones, with_masks.
    destruct Hwf as (_ & _ & Hm & Hb). rewrite <- Hm, <- Hb. reflexivity. }
  rewrite (step_run env h l s acts Hl Hs Hlen), Hin, Hall, Hp, Hdn. reflexivity.
Qed.

Lemma allowed_backward_origin (row : list Z) (a : Z) :
  is_origin row = true -> allowed (backward_mask_row row) a = false.
Proof.
  intros Ho. destruct (allowed (backward_mask_row row) a) eqn:E; [|reflexivity].
  destruct (allowed_backward_coordinate row a E) as (x & Hx & Hne).
  unfold is_origin in Ho. pose proof (forallb_lookup _ _ Ho _ x Hx) as H0.
  apply Z.eqb_eq in H0. contradiction.
Qed.

(** X7: moves off the grid are refused at both ends.  An element that is
    not done and sits at the origin makes every [backward_step] fail, and
    one whose coordinates all equal [height - 1] makes every [step] fail
    in which its action is not the stop action. *)
Theorem X7_boundary_moves_refused (env : HyperGrid) (h : heap) (l : loc)
        (s : StatesBatch) (acts : list Z) (i : nat) (row : list Z) :
  h !! l = Some s -> wf_batch env s -> length acts = length (states s) ->
  already_dones s !! i = Some false -> states s !! i = Some row ->
  (is_origin row = true ->
   exists e, fst (backward_step env l acts h) = inl e /\ InvalidAction e)
  /\ (forall a, acts !! i = Some a -> a <> stop_action env ->
        (forall d x, row !! d = Some x -> x = height env - 1) ->
        exists e, fst (step env l acts h) = inl e /\ InvalidAction e).
Proof.
  intros Hl Hwf Hlen Hd Hr. pose proof (wf_batch_shape env s Hwf) as Hs.
  destruct (wf_batch_masks env s i row Hwf Hr) as (Hrl & Hfm & Hbm).
  destruct (lookup_lt_is_Some_2 acts i) as [a Ha].
  { rewrite Hlen. eapply lookup_lt_Some; eauto. }
  split.
  - intros Ho.
    assert (sel_allowed (lnot (already_dones s)) (backward_masks s) acts = false) as E.
    { apply sel_allowed_false. exists i, a, (backward_mask_row row).
      repeat split; try assumption. apply allowed_backward_origin. exact Ho. }
    destruct (backward_step_outcome env h l s acts Hl Hs Hlen)
      as [[Ea _]|[_ (e & Er & Hi & _)]]; [congruence|].
    exists e. rewrite Er. split; [reflexivity | exact Hi].
  - intros a' Ha' Hns Htop. rewrite Ha in Ha'. injection Ha' as <-.
    assert (sel_allowed (lnot (already_dones s)) (masks s) acts = false) as E.
    { apply sel_allowed_false. exists i, a, (forward_mask_row env row).
      repeat split; try assumption.
      destruct (allowed (forward_mask_row env row) a) eqn:Eal; [|reflexivity].
      unfold stop_action, n_actions in Hns.
      destruct (allowed_forward_coordinate env row a Eal) as (x & Hx & Hne).
      { pose proof (allowed_in_range _ _ Eal) as Hin.
        rewrite forward_mask_row_length in Hin. unfold in_range in Hin.
        apply andb_true_iff in Hin as [_ Hin]. apply Z.ltb_lt in Hin. lia. }
      elim Hne. apply (Htop _ x Hx). }
    destruct (step_outcome env h l s acts Hl Hs Hlen)
      as [[Ea _]|[_ (e & Er & Hi & _)]]; [congruence|].
    exists e. rewrite Er. split; [reflexivity | exact Hi].
Qed.

(** ** The objects a call touches *)

(** X8: the batch a successful [step] returns is a new object, a deep
    copy of the environment's batch: it is equal to that batch, it is not
    that batch, and a further [step] of the environment, whatever its
    outcome, leaves the returned copy as it was. *)
Theorem X8_step_returns_copy (env : HyperGrid) (h : heap) (l : loc) (s : StatesBatch)
        (acts : list Z) (r : loc * list bool) (h' : heap) :
  h !! l = Some s -> shape_ok env s -> step env l acts h = (inr r, h') ->
  fst r = length h /\ fst r <> l
  /\ length h' = S (length h)
  /\ h' !! fst r = h' !! l
  /\ (forall acts2 r2 h'', step env l acts2 h' = (r2, h'') ->
        h'' !! fst r = h' !! fst r).
Proof.
  intros Hl Hs H. pose proof (lookup_lt_Some _ _ _ Hl) as Hlt.
  destruct (step_success env h l s acts r h' Hl Hs H) as (Hlen & _ & -> & ->).
  destruct (lookup_after_step h l s (step_post env s acts) Hl) as [L1 L2].
  simpl fst. split; [reflexivity|]. split; [lia|].
  split; [rewrite length_app, length_insert; simpl; lia|].
  split; [rewrite L1, L2; reflexivity|].
  pose proof (wf_batch_shape env _ (step_post_wf env s acts Hs Hlen)) as Hs'.
  intros acts2 [e|r2] h'' H2.
  - assert (h'' = <[l:=step_post env s acts]> h ++ [step_post env s acts]) as ->;
      [|reflexivity].
    destruct (decide (length acts2 = length (states (step_post env s acts)))) as [Hl2|Hl2].
    + destruct (step_outcome env _ l _ acts2 L1 Hs' Hl2) as [[_ E]|[_ (e' & E & _)]];
        rewrite E in H2; congruence.
    + rewrite (step_wrong_length env _ l _ acts2 L1 Hs' Hl2) in H2. congruence.
  - destruct (step_success env _ l _ acts2 r2 h'' L1 Hs' H2) as (_ & _ & _ & ->).
    rewrite lookup_app_l
      by (rewrite length_insert, length_app, length_insert; simpl; lia).
    apply list_lookup_insert_ne. lia.
Qed.

(** ** Construction of a batch *)

(** X9: the three ways to construct a batch.  [StatesBatch(states=st)]
    asserts that the last dimension of the array is [ndim]: an array with
    a row of another length raises [AssertionError] and no object is
    created; otherwise the new batch holds the array as it is.  Without
    an array the batch has [n_envs] rows of [ndim] zeros; with
    [random=True] it has [n_envs] rows of [ndim] coordinates drawn in
    [0, height), whatever the generator draws. *)
Theorem X9_batch_construction (env : HyperGrid) (h : heap) :
  (forall st, (exists i row, st !! i = Some row /\ length row <> ndim env) ->
     StatesBatch_new env (InitStates st) h = (inl AssertionError, h))
  /\ (forall st, has_cols (ndim env) st = true ->
        exists s, StatesBatch_new env (InitStates st) h = (inr (length h), h ++ [s])
                  /\ states s = st)
  /\ (exists s, StatesBatch_new env InitZeros h = (inr (length h), h ++ [s])
                /\ states s = replicate (n_envs env) (replicate (ndim env) 0))
  /\ (forall stream, 1 <= height env ->
        exists s, StatesBatch_new env (InitRandom stream) h = (inr (length h), h ++ [s])
                  /\ length (states s) = n_envs env
                  /\ has_cols (ndim env) (states s) = true
                  /\ in_grid env (states s)).
Proof.
  split; [|split; [|split]].
  - intros st (i & row & Hr & Hne).
    assert (has_cols (ndim env) st = false) as Hc.
    { destruct (has_cols (ndim env) st) eqn:E; [|reflexivity].
      elim Hne. apply (proj1 (has_cols_lookup _ _) E i row Hr). }
    unfold StatesBatch_new, lift. simpl post_init_states. rewrite Hc.
    apply bind_err. reflexivity.
  - intros st Hc. eexists. split.
    + apply StatesBatch_new_run; [simpl; rewrite Hc; reflexivity | exact Hc].
    + reflexivity.
  - eexists. split.
    + apply StatesBatch_new_run; [reflexivity | apply has_cols_replicate].
    + reflexivity.
  - intros stream Hh.
    pose proof (post_init_states_cols env (InitRandom stream) _ eq_refl) as Hc.
    eexists. split; [apply StatesBatch_new_run; [reflexivity | exact Hc]|].
    simpl. split; [|split; [exact Hc|]].
    + unfold randint. rewrite length_map, length_seq. reflexivity.
    + apply randint_on_grid. exact Hh.
Qed.

(** ** The two ways to compute the done flags *)

(** X10: [backward_step] and [update_the_dones] agree.  After a
    successful [backward_step] on a batch in which no element was done,
    the returned done vector is the test [states.sum(-1) == 0] of the
    returned states, so that [update_the_dones] on the returned batch
    changes nothing. *)
Theorem X10_backward_dones_recomputed (env : HyperGrid) (h : heap) (l : loc)
        (s : StatesBatch) (acts : list Z) (r : loc * list bool) (h' : heap) :
  h !! l = Some s -> shape_ok env s ->
  already_dones s = replicate (length (states s)) false ->
  backward_step env l acts h = (inr r, h') ->
  update_the_dones (fst r) h' = (inr tt, h')
  /\ exists s', h' !! fst r = Some s' /\ already_dones s' = snd r
                /\ snd r = map (fun row => sum64 row =? 0) (states s').
Proof.
  intros Hl Hs Hdn H.
  destruct (backward_step_success env h l s acts r h' Hl Hs H) as (Hlen & _ & -> & ->).
  set (s' := backward_post env s acts).
  assert (already_dones s' = map (fun row => sum64 row =? 0) (states s')) as Hd'.
  { unfold s', backward_post. simpl.
    assert (length (move_rows (-1) (lnot (already_dones s)) acts (states s))
            = length (states s)) as Hmv
        by (destruct Hs as (_ & _ & Hd & _);
            rewrite length_move_rows; rewrite ?length_lnot; lia).
    set (mv := move_rows (-1) (lnot (already_dones s)) acts (states s)) in *.
    rewrite Hdn. apply lor_all_false. rewrite length_map. exact Hmv. }
  simpl fst. simpl snd. split.
  - unfold update_the_dones.
    rewrite (bind_ok _ _ _ _ _ (deref_ok _ _ _ (lookup_snoc h s'))).
    rewrite (modify_ok _ _ _ _ (lookup_snoc h s')), insert_snoc. do 2 f_equal.
    rewrite <- Hd'. destruct s'; reflexivity.
  - exists s'. split; [apply lookup_snoc|]. split; [reflexivity | exact Hd'].
Qed.

(** ** What a call does to one element *)

Lemma alter_as_insert {A : Type} (f : A -> A) (k : nat) (row : list A) (x : A) :
  row !! k = Some x -> alter f k row = <[k := f x]> row.
Proof.
  intros Hx. apply list_eq. intros j. destruct (decide (j = k)) as [->|Hne].
  - rewrite list_lookup_alter_eq, Hx, list_lookup_insert_eq
      by (eapply lookup_lt_Some; eauto). reflexivity.
  - rewrite list_lookup_alter_ne, list_lookup_insert_ne by congruence. reflexivity.
Qed.

(** X3: what a successful [step] does to an element that is not done.
    If its action is the stop action, its state vector is kept and it is
    done.  Otherwise the action is an axis in [0, ndim), the coordinate on
    that axis differs from [height - 1], it is incremented by one (as a
    64-bit integer: exactly, for a coordinate of the grid), the other
    coordinates are kept and the element is not done.  The environment's
    batch and the returned batch are equal. *)
Theorem X3_step_element (env : HyperGrid) (h : heap) (l : loc) (s : StatesBatch)
        (acts : list Z) (r : loc * list bool) (h' : heap)
        (i : nat) (row : list Z) (a : Z) :
  h !! l = Some s -> wf_batch env s -> step env l acts h = (inr r, h') ->
  already_dones s !! i = Some false -> states s !! i = Some row -> acts !! i = Some a ->
  exists s',
    h' !! l = Some s' /\ h' !! fst r = Some s' /\ already_dones s' = snd r
    /\ ((a = stop_action env /\ states s' !! i = Some row /\ snd r !! i = Some true)
        \/ (exists x,
              0 <= a < Z.of_nat (ndim env)
              /\ row !! Z.to_nat a = Some x /\ x <> height env - 1
              /\ states s' !! i = Some (<[Z.to_nat a := wrap64 (x + 1)]> row)
              /\ snd r !! i = Some false
              /\ (0 <= x <= height env - 1 -> height env - 1 <= int64_max ->
                  wrap64 (x + 1) = x + 1))).
Proof.
  intros Hl Hwf H Hd Hr Ha. pose proof (wf_batch_shape env s Hwf) as Hs.
  destruct (step_success env h l s acts r h' Hl Hs H) as (Hlen & Hall & -> & ->).
  destruct (lookup_after_step h l s (step_post env s acts) Hl) as [L1 L2].
  exists (step_post env s acts). split; [exact L1|]. split; [exact L2|].
  split; [reflexivity|]. simpl snd.
  assert (step_dones env s acts !! i = Some (a =? stop_action env)) as Hdi.
  { unfold step_dones. rewrite (lookup_lor _ _ i false (a =? stop_action env) Hd);
      [reflexivity | rewrite lookup_eq_scalar, Ha; reflexivity]. }
  destruct (Z.eqb_spec a (stop_action env)) as [Hstop|Hmove].
  - left. split; [exact Hstop|]. split; [|exact Hdi]. simpl.
    rewrite (lookup_move_rows 1 _ acts (states s) i false a row);
      [reflexivity | rewrite lookup_lnot, Hdi; reflexivity | exact Ha | exact Hr].
  - right.
    assert (lnot (step_dones env s acts) !! i = Some true) as Hi
        by (rewrite lookup_lnot, Hdi; reflexivity).
    destruct (step_moving_element env s acts i Hwf Hall Hi a row Ha Hr)
      as (x & Hx & Hne & H0).
    destruct (wf_batch_masks env s i row Hwf Hr) as (Hrl & _).
    exists x. split.
    { apply lookup_lt_Some in Hx. lia. }
    split; [exact Hx|]. split; [exact Hne|]. split.
    { simpl. rewrite (lookup_move_rows 1 _ acts (states s) i true a row Hi Ha Hr).
      rewrite (alter_as_insert _ _ _ x Hx). reflexivity. }
    split; [exact Hdi|].
    intros Hg Hfit. apply wrap64_id. unfold int64_min, int64_max in *. lia.
Qed.

(** X4: what a successful [backward_step] does to an element that is not
    done: the action is an axis in [0, ndim), the coordinate on that axis
    is not 0, it is decremented by one (as a 64-bit integer: exactly, for
    a positive 64-bit integer), the other coordinates are kept, and the
    element becomes done iff the 64-bit sum of its new coordinates is 0. *)
Theorem X4_backward_step_element (env : HyperGrid) (h : heap) (l : loc)
        (s : StatesBatch) (acts : list Z) (r : loc * list bool) (h' : heap)
        (i : nat) (row : list Z) (a : Z) :
  h !! l = Some s -> wf_batch env s -> backward_step env l acts h = (inr r, h') ->
  already_dones s !! i = Some false -> states s !! i = Some row -> acts !! i = Some a ->
  exists s' x,
    h' !! fst r = Some s' /\ already_dones s' = snd r
    /\ 0 <= a < Z.of_nat (ndim env)
    /\ row !! Z.to_nat a = Some x /\ x <> 0
    /\ states s' !! i = Some (<[Z.to_nat a := wrap64 (x - 1)]> row)
    /\ snd r !! i = Some (sum64 (<[Z.to_nat a := wrap64 (x - 1)]> row) =? 0)
    /\ (0 < x <= int64_max -> wrap64 (x - 1) = x - 1).
Proof.
  intros Hl Hwf H Hd Hr Ha. pose proof (wf_batch_shape env s Hwf) as Hs.
  destruct (backward_step_success env h l s acts r h' Hl Hs H) as (Hlen & Hall & -> & ->).
  destruct (wf_batch_masks env s i row Hwf Hr) as (Hrl & _ & Hbm).
  assert (lnot (already_dones s) !! i = Some true) as Hi
      by (apply lnot_lookup_true; exact Hd).
  pose proof (proj1 (sel_allowed_lookup _ _ _) Hall i _ a Hi Hbm Ha) as Hal.
  destruct (allowed_backward_coordinate row a Hal) as (x & Hx & Hne).
  assert (0 <= a) as H0
      by (unfold allowed in Hal; apply andb_true_iff in Hal as [H0 _];
          apply Z.leb_le; exact H0).
  assert (states (backward_post env s acts) !! i
          = Some (<[Z.to_nat a := wrap64 (x - 1)]> row)) as Hrow'.
  { simpl. rewrite (lookup_move_rows (-1) _ acts (states s) i true a row Hi Ha Hr).
    rewrite (alter_as_insert _ _ _ x Hx). reflexivity. }
  exists (backward_post env s acts), x. simpl fst. simpl snd.
  split; [apply lookup_snoc|]. split; [reflexivity|]. split.
  { apply lookup_lt_Some in Hx. lia. }
  split; [exact Hx|]. split; [exact Hne|]. split; [exact Hrow'|]. split.
  - simpl in *. rewrite (lookup_lor _ _ i false
                           (sum64 (<[Z.to_nat a := wrap64 (x - 1)]> row) =? 0) Hd);
      [reflexivity | rewrite list_lookup_fmap, Hrow'; reflexivity].
  - intros Hpos. apply wrap64_id. unfold int64_min, int64_max in *. lia.
Qed.

(** ** The length of a trajectory *)

Lemma Zsum_alter (f : Z -> Z) (row : list Z) (k : nat) (x : Z) :
  row !! k = Some x -> Zsum (alter f k row) = Zsum row - x + f x.
Proof.
  unfold Zsum. revert k.
  induction row as [|y row IH]; intros [|k] H; try discriminate.
  - simpl in *. injection H as ->. lia.
  - simpl. change (list_alter f k row) with (alter f k row).
    rewrite (IH k H). lia.
Qed.

(** In a call in which every element moves, every coordinate sum grows by
    one. *)
Lemma step_post_row_sum (env : HyperGrid) (s : StatesBatch) (acts : list Z) :
  sums_fit env -> wf_batch env s -> in_grid env (states s) ->
  already_dones s = replicate (length (states s)) false ->
  length acts = length (states s) ->
  sel_allowed (lnot (already_dones s)) (masks s) acts = true ->
  Forall (fun a => a <> stop_action env) acts ->
  forall i row, states s !! i = Some row ->
    exists row', states (step_post env s acts) !! i = Some row'
                 /\ Zsum row' = Zsum row + 1.
Proof.
  intros (Hh & Hmax & _) Hwf Hg Hdn Hlen Hall Hns i row Hr.
  destruct (lookup_lt_is_Some_2 acts i) as [a Ha].
  { rewrite Hlen. eapply lookup_lt_Some; eauto. }
  assert (step_dones env s acts = replicate (length (states s)) false) as Hd1.
  { unfold step_dones. rewrite Hdn, eq_scalar_never by exact Hns.
    rewrite Hlen. apply lor_all_false. apply length_replicate. }
  assert (lnot (step_dones env s acts) !! i = Some true) as Hi.
  { rewrite Hd1, lnot_all_false. apply lookup_replicate_2. eapply lookup_lt_Some; eauto. }
  destruct (step_moving_element env s acts i Hwf Hall Hi a row Ha Hr) as (x & Hx & Hne & H0).
  pose proof (Hg i row _ x Hr Hx) as Hgx.
  eexists. split.
  - simpl. apply (lookup_move_rows 1 _ acts (states s) i true a row Hi Ha Hr).
  - rewrite (Zsum_alter _ row _ x Hx).
    rewrite wrap64_id by (unfold int64_min, int64_max in *; lia). lia.
Qed.

Lemma fwd_row_sums (env : HyperGrid) (traj : list (list Z)) :
  sums_fit env -> never_stops env traj ->
  forall s, wf_batch env s -> in_grid env (states s) ->
    already_dones s = replicate (length (states s)) false ->
    legal env s traj ->
    in_grid env (states (fwd env s traj))
    /\ forall i row, states s !! i = Some row ->
         exists row', states (fwd env s traj) !! i = Some row'
                      /\ Zsum row' = Zsum row + Z.of_nat (length traj).
Proof.
  intros Hfit Hns. induction Hns as [|acts traj Hacts Hns IH];
    intros s Hwf Hg Hdn Hleg.
  - simpl. split; [exact Hg|]. intros i row Hr. exists row. split; [exact Hr | lia].
  - destruct Hleg as (Hlen & Hall & Hleg).
    destruct (backward_after_step env s acts Hfit Hwf Hg Hdn Hlen Hall Hacts)
      as (Hdn1 & Hg1 & _).
    pose proof (step_post_wf env s acts (wf_batch_shape env s Hwf) Hlen) as Hwf1.
    destruct (IH (step_post env s acts) Hwf1 Hg1 Hdn1 Hleg) as [Hge IHs].
    split; [exact Hge|]. intros i row Hr.
    destruct (step_post_row_sum env s acts Hfit Hwf Hg Hdn Hlen Hall Hacts i row Hr)
      as (row1 & Hr1 & Hs1).
    destruct (IHs i row1 Hr1) as (row' & Hr' & Hs').
    exists row'. split; [exact Hr'|]. simpl length. lia.
Qed.

Lemma fwd_length (env : HyperGrid) (traj : list (list Z)) :
  forall s, wf_batch env s -> legal env s traj ->
    length (states (fwd env s traj)) = length (states s).
Proof.
  induction traj as [|a t IH]; intros s Hwf Hleg; simpl in *; [reflexivity|].
  destruct Hleg as (Hlen & _ & Hleg).
  pose proof (wf_batch_shape env s Hwf) as Hs.
  rewrite IH by (apply step_post_wf || exact Hleg; assumption).
  apply length_step_post_states; assumption.
Qed.

Lemma Zsum_zeros (n : nat) : Zsum (replicate n 0) = 0.
Proof. induction n as [|n IH]; simpl; [reflexivity | exact IH]. Qed.

(** X11: a walk cannot go on for ever.  After a trajectory of successful
    steps from the all-origin batch in which no action is the stop
    action, the batch is on the grid and the coordinates of every element
    sum to the number of steps; so a batch with at least one element
    admits at most [ndim * (height - 1)] such steps. *)
Theorem X11_trajectory_length (env : HyperGrid) (traj : list (list Z))
        (h h1 : heap) (c : loc) :
  sums_fit env -> never_stops env traj ->
  forward_run env traj h = (inr c, h1) ->
  exists s,
    h1 !! c = Some s
    /\ in_grid env (states s)
    /\ (forall i row, states s !! i = Some row -> Zsum row = Z.of_nat (length traj))
    /\ ((1 <= n_envs env)%nat ->
        Z.of_nat (length traj) <= Z.of_nat (ndim env) * (height env - 1)).
Proof.
  intros Hfit Hns H. pose proof Hfit as (Hh & _).
  set (st0 := zeros (n_envs env) (ndim env)).
  set (s0 := with_masks env st0 (replicate (length st0) false)).
  assert (has_cols (ndim env) st0 = true) as Hc0 by apply has_cols_replicate.
  assert (wf_batch env s0) as Hwf0
      by (apply with_masks_wf; [exact Hc0 | apply length_replicate]).
  unfold forward_run, reset in H.
  rewrite (bind_ok _ _ _ _ _ (StatesBatch_new_run env InitZeros st0 h eq_refl Hc0)) in H.
  destruct (steps_run env traj _ _ _ s0 c h1 (lookup_snoc h s0) (lookup_snoc h s0) Hwf0 H)
    as [Hleg Hc].
  destruct (fwd_row_sums env traj Hfit Hns s0 Hwf0 (zeros_on_grid env _ _ Hh)
              eq_refl Hleg) as [Hg Hsum].
  pose proof (fwd_wf env traj s0 Hwf0 Hleg) as (Hce & Hde & _).
  assert (length (states (fwd env s0 traj)) = n_envs env) as Hn.
  { rewrite (fwd_length env traj s0 Hwf0 Hleg). simpl. unfold st0, zeros.
    apply length_replicate. }
  assert (forall i row, states (fwd env s0 traj) !! i = Some row ->
            Zsum row = Z.of_nat (length traj)) as Hall.
  { intros i row Hr.
    destruct (lookup_lt_is_Some_2 st0 i) as [row0 Hr0].
    { unfold st0, zeros. rewrite length_replicate, <- Hn. eapply lookup_lt_Some; eauto. }
    destruct (Hsum i row0 Hr0) as (row' & Hr' & Hs').
    rewrite Hr in Hr'. injection Hr' as <-. rewrite Hs'.
    unfold st0, zeros in Hr0. apply lookup_replicate in Hr0 as [-> _].
    rewrite Zsum_zeros. lia. }
  exists (fwd env s0 traj). split; [exact Hc|]. split; [exact Hg|].
  split; [exact Hall|]. intros Hne.
  destruct (lookup_lt_is_Some_2 (states (fwd env s0 traj)) 0%nat) as [row Hr]; [lia|].
  rewrite <- (Hall 0%nat row Hr).
  pose proof (Zsum_bound row (height env - 1)
                (fun d x Hx => proj2 (Hg 0%nat row d x Hr Hx))) as Hb.
  rewrite (proj1 (has_cols_lookup _ _) Hce 0%nat row Hr) in Hb. exact Hb.
Qed.

(** ** The canonical index along a walk and over a batch *)

Lemma place_value_insert (h : Z) (row : list Z) (d : nat) (x y : Z) :
  row !! d = Some x ->
  place_value h (<[d := y]> row)
  = place_value h row + (y - x) * h ^ Z.of_nat (length row - 1 - d).
Proof.
  revert d. induction row as [|x0 r IH]; intros [|d] H; simpl in H; try discriminate.
  - injection H as ->. change (<[0%nat := y]> (x :: r)) with (y :: r).
    simpl place_value.
    replace (length (x :: r) - 1 - 0)%nat with (length r) by (simpl; lia).
    ring.
  - change (<[S d := y]> (x0 :: r)) with (x0 :: <[d := y]> r).
    simpl place_value. rewrite length_insert, (IH d H).
    replace (length (x0 :: r) - 1 - S d)%nat with (length r - 1 - d)%nat
      by (simpl; lia).
    ring.
Qed.

Lemma place_value_zeros (h : Z) (n : nat) : place_value h (replicate n 0) = 0.
Proof. induction n as [|n IH]; simpl; [reflexivity | rewrite IH; lia]. Qed.

(** X12: the canonical index along a walk.  When the number of states is
    at most [2 ^ 63], the origin has index 0, and incrementing
    coordinate [d] of a grid state below [height - 1] raises its index by
    [height ** (ndim - 1 - d)]. *)
Theorem X12_index_of_a_move (env : HyperGrid) :
  index_fits env ->
  get_states_index env (replicate (ndim env) 0) = inr 0
  /\ forall row d x k,
       grid_state env row -> row !! d = Some x -> x < height env - 1 ->
       get_states_index env row = inr k ->
       get_states_index env (<[d := x + 1]> row)
       = inr (k + height env ^ Z.of_nat (ndim env - 1 - d)).
Proof.
  intros Hfit. pose proof Hfit as [Hh _]. split.
  - rewrite get_states_index_exact; [rewrite place_value_zeros; reflexivity | exact Hfit |].
    split; [apply length_replicate|].
    intros d x H. apply lookup_replicate in H as [-> _]. lia.
  - intros row d x k Hrow Hx Hlt Hk.
    rewrite (get_states_index_exact env row Hfit Hrow) in Hk. injection Hk as <-.
    destruct Hrow as [Hlen Hg].
    assert (grid_state env (<[d := x + 1]> row)) as Hrow'.
    { split; [rewrite length_insert; exact Hlen|].
      intros d' y Hy. destruct (decide (d' = d)) as [->|Hne].
      - rewrite list_lookup_insert_eq in Hy by (eapply lookup_lt_Some; eauto).
        injection Hy as <-. pose proof (Hg d x Hx). lia.
      - rewrite list_lookup_insert_ne in Hy by congruence. apply (Hg d' y Hy). }
    rewrite (get_states_index_exact env _ Hfit Hrow'),
            (place_value_insert _ row d x (x + 1) Hx), Hlen.
    f_equal. ring.
Qed.

Lemma get_states_index_error (env : HyperGrid) (row : list Z) (e : exn) :
  get_states_index env row = inl e ->
  e = RuntimeError
  /\ length row <> ndim env /\ length row <> 1%nat /\ ndim env <> 1%nat.
Proof.
  unfold get_states_index, broadcast_mul, canonical_base.
  rewrite length_map, length_rev, length_seq.
  destruct (Nat.eqb_spec (ndim env) (length row)); [discriminate|].
  destruct (Nat.eqb_spec (length row) 1); [discriminate|].
  destruct (Nat.eqb_spec (ndim env) 1); [discriminate|].
  simpl. intros [= <-]. repeat split; congruence.
Qed.

Lemma zip_with_replicate_r {A B C : Type} (f : A -> B -> C) (l : list A) (y : B) :
  zip_with f l (replicate (length l) y) = map (fun x => f x y) l.
Proof. induction l as [|x l IH]; simpl; [reflexivity | rewrite IH; reflexivity]. Qed.

(** X13: [get_states_indices] over a batch.  When the number of states
    is at most [2 ^ 63], a batch of grid states gets the list of their
    base-[height] values, one per element.  A state array whose rows have
    neither [ndim] columns nor one column is refused with the
    [RuntimeError] of the elementwise product (unless [ndim] is 1); a
    one-column array is not refused: by broadcasting, its coordinate
    stands for every axis. *)
Theorem X13_indices_of_a_batch (env : HyperGrid) (st : list (list Z)) :
  (index_fits env ->
   (forall i row, st !! i = Some row -> grid_state env row) ->
   get_states_indices env st = inr (map (radix_value (height env)) st))
  /\ ((exists i row, st !! i = Some row /\ length row <> ndim env
                     /\ length row <> 1%nat /\ ndim env <> 1%nat) ->
      get_states_indices env st = inl RuntimeError)
  /\ (forall x, get_states_index env [x]
                = get_states_index env (replicate (ndim env) x)).
Proof.
  split; [|split].
  - intros Hfit. induction st as [|row st IH]; intros Hg; simpl; [reflexivity|].
    rewrite (get_states_index_exact env row Hfit (Hg O row eq_refl)).
    simpl. rewrite IH by (intros i r Hr; apply (Hg (S i) r Hr)). simpl.
    rewrite radix_value_place. reflexivity.
  - intros (i & row & Hr & H1 & H2 & H3). revert i Hr.
    induction st as [|r0 st IH]; intros [|i] Hr; simpl in Hr; try discriminate.
    + injection Hr as ->. simpl.
      destruct (get_states_index env row) as [e|k] eqn:E.
      * apply get_states_index_error in E as [-> _]. reflexivity.
      * exfalso. revert E.
        unfold get_states_index, broadcast_mul, canonical_base.
        rewrite length_map, length_rev, length_seq.
        destruct (Nat.eqb_spec (ndim env) (length row)); [congruence|].
        destruct (Nat.eqb_spec (length row) 1); [congruence|].
        destruct (Nat.eqb_spec (ndim env) 1); [congruence|]. discriminate.
    + simpl. destruct (get_states_index env r0) as [e|k] eqn:E.
      * apply get_states_index_error in E as [-> _]. reflexivity.
      * simpl. rewrite (IH i Hr). reflexivity.
  - intros x. unfold get_states_index, broadcast_mul.
    assert (length (canonical_base env) = ndim env) as Hl
        by (unfold canonical_base; rewrite length_map, length_rev, length_seq; reflexivity).
    rewrite length_replicate, Hl, Nat.eqb_refl. simpl length.
    destruct (Nat.eqb_spec (ndim env) 1) as [E|E].
    + rewrite E. reflexivity.
    + simpl. rewrite <- Hl, zip_with_replicate_r, ?Nat.eqb_refl. reflexivity.
Qed.

(** ** The two bonuses of the default reward *)

(** X14: the bonuses of the default reward are nested.  In any
    arithmetic in which a value above 0.3 is above 0.25, as in single
    precision, a state that earns the [R2] bonus (every [ax] in
    (0.3, 0.4)) also earns the [R1] bonus (every [ax] above 0.25): the
    reward is one of [R0 + 0 * R1 + 0 * R2], [R0 + 1 * R1 + 0 * R2] and
    [R0 + 1 * R1 + 1 * R2]. *)
Theorem X14_reward_bonuses_nested (ops : FloatOps) (env : HyperGrid) (row : list Z) :
  reward_cos env = false ->
  (forall a, flt ops (of_float ops (3 # 10)) a = true ->
             flt ops (of_float ops (1 # 4)) a = true) ->
  let value p1 p2 :=
    fadd ops (fadd ops (of_float ops (R0 env))
                       (fmul ops (of_int ops p1) (of_float ops (R1 env))))
             (fmul ops (of_int ops p2) (of_float ops (R2 env))) in
  reward_row ops env row = value 0 0
  \/ reward_row ops env row = value 1 0
  \/ reward_row ops env row = value 1 1.
Proof.
  intros Hcos Hlt value. unfold reward_row. rewrite Hcos. simpl negb. cbv iota.
  rewrite !prod_bool_all, !map_map, !forallb_map. unfold value.
  set (p1 := forallb (fun x => flt ops (of_float ops (1 # 4)) (ax ops env x)) row).
  set (p2 := forallb (fun x => flt ops (of_float ops (3 # 10)) (ax ops env x)
                               && flt ops (ax ops env x) (of_float ops (4 # 10))) row).
  assert (p2 = true -> p1 = true) as Hnest.
  { unfold p1, p2. clear -Hlt. induction row as [|x row IH]; simpl; [reflexivity|].
    intros E2. apply andb_true_iff in E2 as [Hx E2]. apply andb_true_iff in Hx as [Hx _].
    rewrite (Hlt _ Hx), (IH E2). reflexivity. }
  destruct p2.
  - rewrite (Hnest eq_refl). right. right. reflexivity.
  - destruct p1; [right; left | left]; reflexivity.
Qed.

(** Single precision orders 0.25 below 0.3. *)
Lemma single_above_03 (cos exp : spec_float -> spec_float) (c a : spec_float) :
  let ops := single_ops cos exp c in
  flt ops (of_float ops (3 # 10)) a = true -> flt ops (of_float ops (1 # 4)) a = true.
Proof.
  intros ops. change (of_float ops (3 # 10)) with (S754_finite false 10066330 (-25)).
  change (of_float ops (1 # 4)) with (S754_finite false 8388608 (-25)).
  simpl flt. unfold SFltb, SFcompare.
  destruct a as [sa|sa| |sa ma ea]; try (destruct sa); try discriminate; try reflexivity.
  destruct (Z.compare (-25) ea) eqn:Ee; try discriminate; try reflexivity.
  change (Pos.compare_cont Eq 10066330 ma) with (Pos.compare 10066330 ma).
  change (Pos.compare_cont Eq 8388608 ma) with (Pos.compare 8388608 ma).
  destruct (Pos.compare_spec 10066330 ma) as [|H1|]; try discriminate. intros _.
  destruct (Pos.compare_spec 8388608 ma) as [E|E|E]; [exfalso | reflexivity | exfalso].
  - subst ma. revert H1. vm_compute. discriminate.
  - pose proof (Pos.lt_trans _ _ _ H1 E) as C. revert C. vm_compute. discriminate.
Qed.

Lemma X14_witness :
  let ops := single_ops (fun x => x) (fun x => x) S754_nan in
  let env := demo_env in
  let row := [1; 2] in
  reward_cos env = false
  /\ (forall a, flt ops (of_float ops (3 # 10)) a = true ->
                flt ops (of_float ops (1 # 4)) a = true)
  /\ (let value p1 p2 :=
        fadd ops (fadd ops (of_float ops (R0 env))
                           (fmul ops (of_int ops p1) (of_float ops (R1 env))))
                 (fmul ops (of_int ops p2) (of_float ops (R2 env))) in
      reward_row ops env row = value 0 0
      \/ reward_row ops env row = value 1 0
      \/ reward_row ops env row = value 1 1).
Proof.
  intros ops env row.
  pose proof (single_above_03 (fun x => x) (fun x => x) S754_nan) as H.
  split; [reflexivity|]. split; [exact H|].
  exact (X14_reward_bonuses_nested ops env row eq_refl H).
Defined.

(** ** The mask update of [HyperGrid2] *)

Lemma assign_init_rows_ok (t : list (list bool)) (v : list (list bool)) :
  length v = length t ->
  (forall i row vr, t !! i = Some row -> v !! i = Some vr ->
                    length vr = (length row - 1)%nat) ->
  HyperGrid2.assign_init_rows t v
  = inr (zip_with (fun row vr => vr ++ drop (length row - 1) row) t v).
Proof.
  revert v. induction t as [|row t IH]; intros [|vr v] Hl H; simpl in *;
    try discriminate; [reflexivity|].
  unfold HyperGrid2.assign_init. rewrite (H O row vr eq_refl eq_refl), Nat.eqb_refl.
  simpl. rewrite IH by (lia || (intros i r w Hr Hw; apply (H (S i) r w Hr Hw))).
  reflexivity.
Qed.

Lemma assign_init_rows_error (t : list (list bool)) (v : list (list bool)) :
  length v = length t ->
  (exists i row vr, t !! i = Some row /\ v !! i = Some vr
                    /\ length vr <> (length row - 1)%nat /\ length vr <> 1%nat) ->
  HyperGrid2.assign_init_rows t v = inl RuntimeError.
Proof.
  revert v. induction t as [|row t IH]; intros [|vr v] Hl (i & r & w & Hr & Hw & H1 & H2);
    simpl in *; try discriminate; try (destruct i; discriminate).
  destruct (HyperGrid2.assign_init row vr) as [e|x] eqn:E.
  - revert E. unfold HyperGrid2.assign_init.
    destruct (Nat.eqb _ _); [discriminate|]. destruct (Nat.eqb _ _); [discriminate|].
    intros [= <-]. reflexivity.
  - destruct i as [|i]; simpl in Hr, Hw.
    + injection Hr as ->. injection Hw as ->. revert E. unfold HyperGrid2.assign_init.
      destruct (Nat.eqb_spec (length w) (length r - 1)); [contradiction|].
      destruct (Nat.eqb_spec (length w) 1); [contradiction | discriminate].
    + simpl. rewrite IH; [reflexivity | lia |]. exists i, r, w. repeat split; assumption.
Qed.

(** X15: [HyperGrid2.update_masks].  On a [States] object whose forward
    mask has [ndim + 1] columns, it writes [state != height - 1] into the
    first [ndim] columns of the forward mask, never the last (stop)
    column, and replaces the backward mask by [state != 0]; the states
    are kept.  When the stop column is true, the masks are those that
    [StatesBatch.make_masks] and [make_backward_masks] compute for the
    same states.  A forward mask of another width is refused with
    [RuntimeError] (states of one column apart, which broadcasting
    repeats). *)
Theorem X15_update_masks_of_HyperGrid2 (env : HyperGrid) (s : HyperGrid2.States) :
  has_cols (ndim env) (HyperGrid2.states s) = true ->
  length (HyperGrid2.forward_masks s) = length (HyperGrid2.states s) ->
  (has_cols (ndim env + 1) (HyperGrid2.forward_masks s) = true ->
   exists s',
     HyperGrid2.update_masks env s = inr s'
     /\ HyperGrid2.states s' = HyperGrid2.states s
     /\ HyperGrid2.backward_masks s' = map backward_mask_row (HyperGrid2.states s)
     /\ (forall i row mrow,
           HyperGrid2.states s !! i = Some row ->
           HyperGrid2.forward_masks s !! i = Some mrow ->
           HyperGrid2.forward_masks s' !! i
           = Some (map (fun x => negb (x =? height env - 1)) row ++ drop (ndim env) mrow)
           /\ HyperGrid2.forward_masks s' !! i ≫= (fun r => r !! ndim env)
              = mrow !! ndim env)
     /\ ((forall i mrow, HyperGrid2.forward_masks s !! i = Some mrow ->
                         mrow !! ndim env = Some true) ->
         make_masks env (HyperGrid2.states s) = inr (HyperGrid2.forward_masks s')
         /\ make_backward_masks env (HyperGrid2.states s)
            = inr (HyperGrid2.backward_masks s')))
  /\ ((exists i mrow, HyperGrid2.forward_masks s !! i = Some mrow
                      /\ length mrow <> (ndim env + 1)%nat
                      /\ mrow <> [] /\ ndim env <> 1%nat) ->
      HyperGrid2.update_masks env s = inl RuntimeError).
Proof.
  intros Hcs Hlen.
  assert (length (HyperGrid2.ne_scalar (HyperGrid2.states s) (height env - 1))
          = length (HyperGrid2.forward_masks s)) as Hl
      by (unfold HyperGrid2.ne_scalar; rewrite length_map; lia).
  assert (forall i vr, HyperGrid2.ne_scalar (HyperGrid2.states s) (height env - 1) !! i
                       = Some vr ->
            exists row, HyperGrid2.states s !! i = Some row
                        /\ vr = map (fun x => negb (x =? height env - 1)) row
                        /\ length vr = ndim env) as Hv.
  { intros i vr H. unfold HyperGrid2.ne_scalar in H. rewrite list_lookup_fmap in H.
    destruct (HyperGrid2.states s !! i) as [row|] eqn:Hr; [|discriminate].
    injection H as <-. exists row. split; [reflexivity|]. split; [reflexivity|].
    rewrite length_map. apply (proj1 (has_cols_lookup _ _) Hcs i row Hr). }
  split.
  - intros Hcm.
    assert (HyperGrid2.slice_assign (HyperGrid2.forward_masks s)
              (HyperGrid2.ne_scalar (HyperGrid2.states s) (height env - 1))
            = inr (zip_with (fun row vr => vr ++ drop (length row - 1) row)
                            (HyperGrid2.forward_masks s)
                            (HyperGrid2.ne_scalar (HyperGrid2.states s) (height env - 1))))
      as Hsl.
    { unfold HyperGrid2.slice_assign. rewrite Hl, Nat.eqb_refl.
      apply assign_init_rows_ok; [exact Hl|].
      intros i mrow vr Hm Hvr. destruct (Hv i vr Hvr) as (row & _ & _ & ->).
      rewrite (proj1 (has_cols_lookup _ _) Hcm i mrow Hm). lia. }
    assert (forall i row mrow,
              HyperGrid2.states s !! i = Some row ->
              HyperGrid2.forward_masks s !! i = Some mrow ->
              zip_with (fun row vr => vr ++ drop (length row - 1) row)
                       (HyperGrid2.forward_masks s)
                       (HyperGrid2.ne_scalar (HyperGrid2.states s) (height env - 1)) !! i
              = Some (map (fun x => negb (x =? height env - 1)) row
                        ++ drop (ndim env) mrow)) as Hrow.
    { intros i row mrow Hr Hm. rewrite lookup_zip_with, Hm. simpl.
      unfold HyperGrid2.ne_scalar. rewrite list_lookup_fmap, Hr. simpl.
      rewrite (proj1 (has_cols_lookup _ _) Hcm i mrow Hm).
      replace (ndim env + 1 - 1)%nat with (ndim env) by lia. reflexivity. }
    eexists. split; [unfold HyperGrid2.update_masks; rewrite Hsl; reflexivity|].
    simpl. split; [reflexivity|]. split; [reflexivity|]. split.
    + intros i row mrow Hr Hm. rewrite (Hrow i row mrow Hr Hm).
      split; [reflexivity|]. simpl.
      rewrite lookup_app_r by (rewrite length_map,
                                 (proj1 (has_cols_lookup _ _) Hcs i row Hr); lia).
      rewrite length_map, (proj1 (has_cols_lookup _ _) Hcs i row Hr), Nat.sub_diag.
      rewrite lookup_drop. f_equal. lia.
    + intros Hstop. rewrite make_masks_ok, make_backward_masks_ok by exact Hcs.
      split; [|reflexivity]. f_equal. apply list_eq. intros i.
      rewrite list_lookup_fmap.
      destruct (HyperGrid2.states s !! i) as [row|] eqn:Hr.
      * destruct (lookup_lt_is_Some_2 (HyperGrid2.forward_masks s) i) as [mrow Hm].
        { rewrite Hlen. eapply lookup_lt_Some; eauto. }
        rewrite (Hrow i row mrow Hr Hm). simpl. unfold forward_mask_row. do 2 f_equal.
        pose proof (proj1 (has_cols_lookup _ _) Hcm i mrow Hm) as Hml.
        pose proof (Hstop i mrow Hm) as Hlast.
        apply list_eq. intros [|j].
        -- rewrite lookup_drop, Nat.add_0_r, Hlast. reflexivity.
        -- rewrite lookup_drop. simpl. symmetry. apply lookup_ge_None. lia.
      * simpl. symmetry. apply lookup_ge_None. rewrite length_zip_with.
        apply lookup_ge_None in Hr. lia.
  - intros (i & mrow & Hm & Hw & Hne & Hn1).
    unfold HyperGrid2.update_masks, HyperGrid2.slice_assign.
    rewrite Hl, Nat.eqb_refl.
    rewrite assign_init_rows_error; [reflexivity | exact Hl |].
    destruct (lookup_lt_is_Some_2
                (HyperGrid2.ne_scalar (HyperGrid2.states s) (height env - 1)) i)
      as [vr Hvr].
    { rewrite Hl. eapply lookup_lt_Some; eauto. }
    destruct (Hv i vr Hvr) as (row & _ & _ & Hvl).
    exists i, mrow, vr. split; [exact Hm|]. split; [exact Hvr|].
    destruct mrow as [|b mrow]; [contradiction|]. simpl length in *. lia.
Qed.

(** ** The further properties at concrete inputs *)

Lemma sample_wf (st : list (list Z)) (dones : list bool) :
  has_cols (ndim demo_env) st = true -> length dones = length st ->
  wf_batch demo_env (with_masks demo_env st dones).
Proof. apply with_masks_wf. Qed.

Lemma X1_witness :
  let env := demo_env in
  let h := [sample_batch] in
  let l := 0%nat in
  let s := sample_batch in
  let acts := [0] in
  h !! l = Some s /\ shape_ok env s /\ length acts <> length (states s)
  /\ step env l acts h = (inl IndexError, h)
  /\ backward_step env l acts h = (inl IndexError, h ++ [s]).
Proof.
  intros env h l s acts.
  assert (length acts <> length (states s)) as H by (simpl; lia).
  split; [reflexivity|]. split; [exact sample_batch_shape|]. split; [exact H|].
  exact (X1_wrong_length_index_error env h l s acts eq_refl sample_batch_shape H).
Defined.

Lemma X2_witness :
  let env := demo_env in
  let h := [sample_batch] in
  let l := 0%nat in
  let s := sample_batch in
  let acts := [3; 0] in
  h !! l = Some s /\ shape_ok env s /\ length acts = length (states s)
  /\ (fst (step env l acts h) = inl RuntimeError <->
      exists i a, already_dones s !! i = Some false /\ acts !! i = Some a
                  /\ ~ (0 <= a < Z.of_nat (n_actions env)))
  /\ (fst (backward_step env l acts h) = inl RuntimeError <->
      exists i a, already_dones s !! i = Some false /\ acts !! i = Some a
                  /\ ~ (0 <= a < Z.of_nat (ndim env))).
Proof.
  intros env h l s acts.
  split; [reflexivity|]. split; [exact sample_batch_shape|]. split; [reflexivity|].
  exact (X2_out_of_range_runtime_error env h l s acts eq_refl sample_batch_shape eq_refl).
Defined.

Lemma X3_witness :
  let env := demo_env in
  let h := [sample_batch] in
  let l := 0%nat in
  let s := sample_batch in
  let acts := [1; 2] in
  let r := (1%nat, [false; true]) in
  let h' := snd (step demo_env 0 [1; 2] [sample_batch]) in
  let i := 0%nat in
  let row := [2; 0] in
  let a := 1 in
  h !! l = Some s /\ wf_batch env s /\ step env l acts h = (inr r, h')
  /\ already_dones s !! i = Some false /\ states s !! i = Some row
  /\ acts !! i = Some a
  /\ exists s',
       h' !! l = Some s' /\ h' !! fst r = Some s' /\ already_dones s' = snd r
       /\ ((a = stop_action env /\ states s' !! i = Some row /\ snd r !! i = Some true)
           \/ (exists x,
                 0 <= a < Z.of_nat (ndim env)
                 /\ row !! Z.to_nat a = Some x /\ x <> height env - 1
                 /\ states s' !! i = Some (<[Z.to_nat a := wrap64 (x + 1)]> row)
                 /\ snd r !! i = Some false
                 /\ (0 <= x <= height env - 1 -> height env - 1 <= int64_max ->
                     wrap64 (x + 1) = x + 1))).
Proof.
  intros env h l s acts r h' i row a.
  assert (step env l acts h = (inr r, h')) as Hrun by (vm_compute; reflexivity).
  split; [reflexivity|]. split; [exact sample_batch_wf|]. split; [exact Hrun|].
  split; [reflexivity|]. split; [reflexivity|]. split; [reflexivity|].
  exact (X3_step_element env h l s acts r h' i row a eq_refl sample_batch_wf Hrun
           eq_refl eq_refl eq_refl).
Defined.

Lemma X4_witness :
  let env := demo_env in
  let h := [sample_batch] in
  let l := 0%nat in
  let s := sample_batch in
  let acts := [0; 0] in
  let r := (1%nat, [false; true]) in
  let h' := snd (backward_step demo_env 0 [0; 0] [sample_batch]) in
  let i := 0%nat in
  let row := [2; 0] in
  let a := 0 in
  h !! l = Some s /\ wf_batch env s /\ backward_step env l acts h = (inr r, h')
  /\ already_dones s !! i = Some false /\ states s !! i = Some row
  /\ acts !! i = Some a
  /\ exists s' x,
       h' !! fst r = Some s' /\ already_dones s' = snd r
       /\ 0 <= a < Z.of_nat (ndim env)
       /\ row !! Z.to_nat a = Some x /\ x <> 0
       /\ states s' !! i = Some (<[Z.to_nat a := wrap64 (x - 1)]> row)
       /\ snd r !! i = Some (sum64 (<[Z.to_nat a := wrap64 (x - 1)]> row) =? 0)
       /\ (0 < x <= int64_max -> wrap64 (x - 1) = x - 1).
Proof.
  intros env h l s acts r h' i row a.
  assert (backward_step env l acts h = (inr r, h')) as Hrun by (vm_compute; reflexivity).
  split; [reflexivity|]. split; [exact sample_batch_wf|]. split; [exact Hrun|].
  split; [reflexivity|]. split; [reflexivity|]. split; [reflexivity|].
  exact (X4_backward_step_element env h l s acts r h' i row a eq_refl sample_batch_wf
           Hrun eq_refl eq_refl eq_refl).
Defined.

Lemma X5_witness :
  let env := demo_env in
  let h := [sample_done_batch] in
  let l := 0%nat in
  let s := sample_done_batch in
  let acts := [7; -3] in
  h !! l = Some s /\ wf_batch env s
  /\ already_dones s = replicate (length (states s)) true
  /\ length acts = length (states s)
  /\ step env l acts h = (inr (length h, already_dones s), h ++ [s])
  /\ backward_step env l acts h = (inr (length h, already_dones s), h ++ [s]).
Proof.
  intros env h l s acts.
  assert (wf_batch env s) as Hwf by (apply sample_wf; reflexivity).
  split; [reflexivity|]. split; [exact Hwf|]. split; [reflexivity|].
  split; [reflexivity|].
  exact (X5_all_done_fixed_point env h l s acts eq_refl Hwf eq_refl eq_refl).
Defined.

Lemma X6_witness :
  let env := demo_env in
  let h := [sample_batch] in
  let l := 0%nat in
  let s := sample_batch in
  let acts := [2; 99] in
  h !! l = Some s /\ wf_batch env s /\ length acts = length (states s)
  /\ (forall i a, already_dones s !! i = Some false -> acts !! i = Some a ->
                  a = stop_action env)
  /\ (let s' := set_already_dones (replicate (length (states s)) true) s in
      step env l acts h
      = (inr (length h, replicate (length (states s)) true), <[l := s']> h ++ [s'])).
Proof.
  intros env h l s acts.
  assert (forall i a, already_dones s !! i = Some false -> acts !! i = Some a ->
                      a = stop_action env) as Hstop.
  { intros [|[|i]] a Hd Ha; simpl in Hd, Ha; try discriminate.
    injection Ha as <-. reflexivity. }
  split; [reflexivity|]. split; [exact sample_batch_wf|]. split; [reflexivity|].
  split; [exact Hstop|].
  exact (X6_stop_always_accepted env h l s acts eq_refl sample_batch_wf eq_refl Hstop).
Defined.

Lemma X7_witness :
  let env := demo_env in
  let h := [sample_origin_batch] in
  let l := 0%nat in
  let s := sample_origin_batch in
  let acts := [0; 0] in
  let i := 0%nat in
  let row := [0; 0] in
  h !! l = Some s /\ wf_batch env s /\ length acts = length (states s)
  /\ already_dones s !! i = Some false /\ states s !! i = Some row
  /\ (is_origin row = true ->
      exists e, fst (backward_step env l acts h) = inl e /\ InvalidAction e)
  /\ (forall a, acts !! i = Some a -> a <> stop_action env ->
        (forall d x, row !! d = Some x -> x = height env - 1) ->
        exists e, fst (step env l acts h) = inl e /\ InvalidAction e).
Proof.
  intros env h l s acts i row.
  assert (wf_batch env s) as Hwf by (apply sample_wf; reflexivity).
  split; [reflexivity|]. split; [exact Hwf|]. split; [reflexivity|].
  split; [reflexivity|]. split; [reflexivity|].
  exact (X7_boundary_moves_refused env h l s acts i row eq_refl Hwf eq_refl
           eq_refl eq_refl).
Defined.

Lemma X8_witness :
  let env := demo_env in
  let h := [sample_batch] in
  let l := 0%nat in
  let s := sample_batch in
  let acts := [1; 2] in
  let r := (1%nat, [false; true]) in
  let h' := snd (step demo_env 0 [1; 2] [sample_batch]) in
  h !! l = Some s /\ shape_ok env s /\ step env l acts h = (inr r, h')
  /\ fst r = length h /\ fst r <> l
  /\ length h' = S (length h)
  /\ h' !! fst r = h' !! l
  /\ (forall acts2 r2 h'', step env l acts2 h' = (r2, h'') ->
        h'' !! fst r = h' !! fst r).
Proof.
  intros env h l s acts r h'.
  assert (step env l acts h = (inr r, h')) as Hrun by (vm_compute; reflexivity).
  split; [reflexivity|]. split; [exact sample_batch_shape|]. split; [exact Hrun|].
  exact (X8_step_returns_copy env h l s acts r h' eq_refl sample_batch_shape Hrun).
Defined.

Lemma X9_witness :
  let env := demo_env in
  let h := @nil StatesBatch in
  let stream := fun n : nat => Z.of_nat n * 7 in
  1 <= height env
  /\ exists s, StatesBatch_new env (InitRandom stream) h = (inr (length h), h ++ [s])
               /\ length (states s) = n_envs env
               /\ has_cols (ndim env) (states s) = true
               /\ in_grid env (states s).
Proof.
  intros env h stream.
  assert (1 <= height env) as Hh by (simpl; lia).
  split; [exact Hh|].
  exact (proj2 (proj2 (proj2 (X9_batch_construction env h))) stream Hh).
Defined.

Lemma X10_witness :
  let env := demo_env in
  let h := [sample_fresh_batch] in
  let l := 0%nat in
  let s := sample_fresh_batch in
  let acts := [0; 1] in
  let r := (1%nat, [false; true]) in
  let h' := snd (backward_step demo_env 0 [0; 1] [sample_fresh_batch]) in
  h !! l = Some s /\ shape_ok env s
  /\ already_dones s = replicate (length (states s)) false
  /\ backward_step env l acts h = (inr r, h')
  /\ update_the_dones (fst r) h' = (inr tt, h')
  /\ exists s', h' !! fst r = Some s' /\ already_dones s' = snd r
                /\ snd r = map (fun row => sum64 row =? 0) (states s').
Proof.
  intros env h l s acts r h'.
  assert (shape_ok env s) as Hs by (apply wf_batch_shape, sample_wf; reflexivity).
  assert (backward_step env l acts h = (inr r, h')) as Hrun by (vm_compute; reflexivity).
  split; [reflexivity|]. split; [exact Hs|]. split; [reflexivity|].
  split; [exact Hrun|].
  exact (X10_backward_dones_recomputed env h l s acts r h' eq_refl Hs eq_refl Hrun).
Defined.

Lemma X11_witness :
  let env := demo_env in
  let traj := sample_trajectory in
  let h := @nil StatesBatch in
  let c := 2%nat in
  let h1 := snd (forward_run demo_env sample_trajectory []) in
  sums_fit env /\ never_stops env traj
  /\ forward_run env traj h = (inr c, h1)
  /\ exists s,
       h1 !! c = Some s
       /\ in_grid env (states s)
       /\ (forall i row, states s !! i = Some row -> Zsum row = Z.of_nat (length traj))
       /\ ((1 <= n_envs env)%nat ->
           Z.of_nat (length traj) <= Z.of_nat (ndim env) * (height env - 1)).
Proof.
  intros env traj h c h1.
  assert (never_stops env traj) as Hns
      by (repeat (constructor; try (vm_compute; discriminate))).
  assert (forward_run env traj h = (inr c, h1)) as Hrun by (vm_compute; reflexivity).
  split; [exact demo_sums_fit|]. split; [exact Hns|]. split; [exact Hrun|].
  exact (X11_trajectory_length env traj h h1 c demo_sums_fit Hns Hrun).
Defined.

Lemma X12_witness :
  let env := demo_env in
  index_fits env
  /\ get_states_index env (replicate (ndim env) 0) = inr 0
  /\ forall row d x k,
       grid_state env row -> row !! d = Some x -> x < height env - 1 ->
       get_states_index env row = inr k ->
       get_states_index env (<[d := x + 1]> row)
       = inr (k + height env ^ Z.of_nat (ndim env - 1 - d)).
Proof.
  intros env.
  assert (index_fits env) as Hfit by (unfold index_fits; simpl; lia).
  split; [exact Hfit|].
  exact (X12_index_of_a_move env Hfit).
Defined.

Lemma X13_witness :
  let env := demo_env in
  let st := [[2; 0]; [0; 1]] in
  index_fits env
  /\ (forall i row, st !! i = Some row -> grid_state env row)
  /\ get_states_indices env st = inr (map (radix_value (height env)) st).
Proof.
  intros env st.
  assert (index_fits env) as Hfit by (unfold index_fits; simpl; lia).
  assert (forall i row, st !! i = Some row -> grid_state env row) as Hg.
  { intros [|[|i]] row H; simpl in H; try discriminate; injection H as <-;
      (split; [reflexivity|]);
      intros [|[|d]] x Hx; simpl in Hx; try discriminate; injection Hx as <-;
      simpl; lia. }
  split; [exact Hfit|]. split; [exact Hg|].
  exact (proj1 (X13_indices_of_a_batch env st) Hfit Hg).
Defined.

Lemma X15_witness :
  let env := demo_env in
  let s := sample_states2 in
  has_cols (ndim env) (HyperGrid2.states s) = true
  /\ length (HyperGrid2.forward_masks s) = length (HyperGrid2.states s)
  /\ has_cols (ndim env + 1) (HyperGrid2.forward_masks s) = true
  /\ exists s',
       HyperGrid2.update_masks env s = inr s'
       /\ HyperGrid2.states s' = HyperGrid2.states s
       /\ HyperGrid2.backward_masks s' = map backward_mask_row (HyperGrid2.states s)
       /\ (forall i row mrow,
             HyperGrid2.states s !! i = Some row ->
             HyperGrid2.forward_masks s !! i = Some mrow ->
             HyperGrid2.forward_masks s' !! i
             = Some (map (fun x => negb (x =? height env - 1)) row
                       ++ drop (ndim env) mrow)
             /\ HyperGrid2.forward_masks s' !! i ≫= (fun r => r !! ndim env)
                = mrow !! ndim env)
       /\ ((forall i mrow, HyperGrid2.forward_masks s !! i = Some mrow ->
                           mrow !! ndim env = Some true) ->
           make_masks env (HyperGrid2.states s) = inr (HyperGrid2.forward_masks s')
           /\ make_backward_masks env (HyperGrid2.states s)
              = inr (HyperGrid2.backward_masks s')).
Proof.
  intros env s.
  split; [reflexivity|]. split; [reflexivity|]. split; [reflexivity|].
  exact (proj1 (X15_update_masks_of_HyperGrid2 env s eq_refl eq_refl) eq_refl).
Defined.
